(** * zont: time zone resolution, time parsing and conversion

    A shallow embedding of [TimeZoneConverter] of [zont.py].

    Python [str] values are modelled as [string]; the model covers ASCII
    text (code points below 128, [isascii]): case mapping, whitespace
    and digit classes are the ones Python has on that range, and differ
    from Python's on text outside it, where [str.strip], [str.upper],
    [str.lower] and the classes [\s] and [\d] know more characters.
    A theorem whose statement would not hold of the program on other
    text takes [isascii] of its input as a hypothesis.  The time-zone
    database, the platform clock and the local-time rules are external to
    the program and appear as section variables. *)

From Stdlib Require Import ZArith Lia Bool Ascii String List DecimalString.
From stdpp Require Import base gmap sets list strings sorting.

Local Open Scope Z_scope.

(** ** Python string primitives *)

Module Py.

Definition code (c : ascii) : N := N_of_ascii c.

Definition in_range (lo hi : N) (c : ascii) : bool :=
  (N.leb lo (code c) && N.leb (code c) hi)%bool.

(** [s.isascii()]: every character is below 128.  The classes and the
    case maps below are Python's on such strings. *)
Fixpoint isascii (s : string) : bool :=
  match s with
  | EmptyString => true
  | String c r => (N.ltb (code c) 128 && isascii r)%bool
  end.

(** [str.isspace] on the ASCII range: TAB..CR, FS..US and SPACE. *)
Definition isspace (c : ascii) : bool :=
  (in_range 9 13 c || in_range 28 32 c)%bool.

(** [str.isdigit], [str.isupper] and [str.islower] on the ASCII range. *)
Definition isdigit (c : ascii) : bool := in_range 48 57 c.
Definition isupper (c : ascii) : bool := in_range 65 90 c.
Definition islower (c : ascii) : bool := in_range 97 122 c.

(** [str.upper] and [str.lower] of one character of the ASCII range;
    other characters are left as they are. *)
Definition upper_char (c : ascii) : ascii :=
  if islower c then ascii_of_N (code c - 32) else c.
Definition lower_char (c : ascii) : ascii :=
  if isupper c then ascii_of_N (code c + 32) else c.

Fixpoint map_str (f : ascii -> ascii) (s : string) : string :=
  match s with
  | EmptyString => EmptyString
  | String c r => String (f c) (map_str f r)
  end.

(** [s.upper()] and [s.lower()] *)
Definition upper : string -> string := map_str upper_char.
Definition lower : string -> string := map_str lower_char.

(** [s.lstrip()], [s.rstrip()], [s.strip()] *)
Fixpoint lstrip (s : string) : string :=
  match s with
  | EmptyString => EmptyString
  | String c r => if isspace c then lstrip r else s
  end.

Fixpoint rstrip (s : string) : string :=
  match s with
  | EmptyString => EmptyString
  | String c r =>
      match rstrip r with
      | EmptyString => if isspace c then EmptyString else String c EmptyString
      | r' => String c r'
      end
  end.

Definition strip (s : string) : string := rstrip (lstrip s).

(** Every character of the string is white space. *)
Fixpoint all_space (s : string) : bool :=
  match s with
  | EmptyString => true
  | String c r => (isspace c && all_space r)%bool
  end.

(** Some character of the string is in the class [p]. *)
Fixpoint any_char (p : ascii -> bool) (s : string) : bool :=
  match s with
  | EmptyString => false
  | String c r => (p c || any_char p r)%bool
  end.

(** The last character of the string is in the class [p]. *)
Fixpoint last_is (p : ascii -> bool) (s : string) : bool :=
  match s with
  | EmptyString => false
  | String c EmptyString => p c
  | String _ r => last_is p r
  end.

(** [s.startswith(p)] *)
Fixpoint startswith (p s : string) : bool :=
  match p, s with
  | EmptyString, _ => true
  | String a p', String b s' => (Ascii.eqb a b && startswith p' s')%bool
  | String _ _, EmptyString => false
  end.

(** [needle in hay] for two strings *)
Fixpoint contains (needle hay : string) : bool :=
  (startswith needle hay ||
   match hay with
   | EmptyString => false
   | String _ h => contains needle h
   end)%bool.

(** Exceptions raised by the code and by the libraries it calls. *)
Inductive exn :=
| ValueError (msg : string)
| KeyError (msg : string)
| OverflowError (msg : string).

(** [str(e)]; a [KeyError] prints the [repr] of its argument. *)
Definition str_exn (e : exn) : string :=
  match e with
  | ValueError m => m
  | KeyError m => "'" +:+ m +:+ "'"
  | OverflowError m => m
  end.

Inductive result (A : Type) :=
| Ok (a : A)
| Raise (e : exn).
Arguments Ok {A} a.
Arguments Raise {A} e.

End Py.

Import Py.

(** ** The resolver: [TimeZoneConverter.normalize_timezone] *)

(** [self.timezone_abbrevs] *)
Definition timezone_abbrevs : gmap string string :=
  list_to_map
    [ ("EST", "America/New_York");
      ("PST", "America/Los_Angeles");
      ("MST", "America/Denver");
      ("CST", "America/Chicago");
      ("GMT", "Europe/London");
      ("UTC", "UTC");
      ("JST", "Asia/Tokyo");
      ("CET", "Europe/Paris");
      ("IST", "Asia/Kolkata");
      ("AEST", "Australia/Sydney") ].

(** Python compares strings by code point, lexicographically. *)
Definition str_le (a b : string) : Prop := String.leb a b = true.

#[global] Instance str_le_dec a b : Decision (str_le a b).
Proof. unfold str_le. apply _. Defined.

#[global] Instance str_le_total : Total str_le.
Proof. intros a b. apply String.leb_total. Qed.

(** [sorted(xs)] *)
Definition sorted (xs : list string) : list string := merge_sort str_le xs.

(** The loop [for tz in self.all_timezones: if tz_input.lower() in
    tz.lower(): return tz]; [None] when the loop runs to its end. *)
Fixpoint close_match (tz_input : string) (tzs : list string) : option string :=
  match tzs with
  | [] => None
  | tz :: rest =>
      if contains (lower tz_input) (lower tz) then Some tz
      else close_match tz_input rest
  end.

Section Resolver.

(** [zoneinfo.available_timezones()]: the set of keys of the zone
    database of the machine. *)
Variable available_timezones : gset string.

(** [self.all_timezones] *)
Definition all_timezones : list string :=
  sorted (elements available_timezones).

Definition normalize_timezone (tz_input : string) : result string :=
  let tz_input := strip tz_input in
  match timezone_abbrevs !! upper tz_input with
  | Some z => Ok z
  | None =>
      if bool_decide (tz_input ∈ all_timezones) then Ok tz_input
      else match close_match tz_input all_timezones with
           | Some tz => Ok tz
           | None => Raise (ValueError ("Unknown timezone: " +:+ tz_input))
           end
  end.

End Resolver.

(** ** Regular expressions: the patterns of [parse_time_input] *)

Module Re.

Inductive regex :=
| Void
| Eps
| Class (p : ascii -> bool)
| Cat (r1 r2 : regex)
| Alt (r1 r2 : regex)
| Star (r : regex).

Fixpoint nullable (r : regex) : bool :=
  match r with
  | Void => false
  | Eps => true
  | Class _ => false
  | Cat r1 r2 => (nullable r1 && nullable r2)%bool
  | Alt r1 r2 => (nullable r1 || nullable r2)%bool
  | Star _ => true
  end.

Fixpoint deriv (c : ascii) (r : regex) : regex :=
  match r with
  | Void => Void
  | Eps => Void
  | Class p => if p c then Eps else Void
  | Cat r1 r2 =>
      if nullable r1 then Alt (Cat (deriv c r1) r2) (deriv c r2)
      else Cat (deriv c r1) r2
  | Alt r1 r2 => Alt (deriv c r1) (deriv c r2)
  | Star r1 => Cat (deriv c r1) (Star r1)
  end.

(** The whole string is a word of [r]. *)
Fixpoint fullmatch (r : regex) (s : string) : bool :=
  match s with
  | EmptyString => nullable r
  | String c s' => fullmatch (deriv c r) s'
  end.

(** [s] without its last character when that is a line feed. *)
Fixpoint chop_newline (s : string) : option string :=
  match s with
  | EmptyString => None
  | String c EmptyString => if Ascii.eqb c "010" then Some EmptyString else None
  | String c r => option_map (String c) (chop_newline r)
  end.

(** [re.match('^' r '$', s)]: [$] also matches just before a line feed
    that ends the string. *)
Definition re_match (r : regex) (s : string) : bool :=
  (fullmatch r s ||
   match chop_newline s with
   | Some s' => fullmatch r s'
   | None => false
   end)%bool.

(** The words of a regular expression. *)
Inductive Matches : regex -> string -> Prop :=
| M_Eps : Matches Eps EmptyString
| M_Class p c : p c = true -> Matches (Class p) (String c EmptyString)
| M_Cat r1 r2 s1 s2 : Matches r1 s1 -> Matches r2 s2 -> Matches (Cat r1 r2) (s1 +:+ s2)
| M_AltL r1 r2 s : Matches r1 s -> Matches (Alt r1 r2) s
| M_AltR r1 r2 s : Matches r2 s -> Matches (Alt r1 r2) s
| M_Star0 r : Matches (Star r) EmptyString
| M_StarS r s1 s2 : Matches r s1 -> Matches (Star r) s2 -> Matches (Star r) (s1 +:+ s2).

(** Atoms under [re.IGNORECASE]. *)
Definition lit (c : ascii) : regex :=
  Class (fun x => Ascii.eqb (lower_char x) (lower_char c)).
Definition digit : regex := Class isdigit.                 (* \d *)
Definition space : regex := Class isspace.                 (* \s *)
Definition ap : regex :=                                   (* [ap] *)
  Class (fun x => (Ascii.eqb (lower_char x) "a" || Ascii.eqb (lower_char x) "p")%bool).

Definition digit12 : regex := Cat digit (Alt digit Eps).   (* \d{1,2} *)
Definition digit2 : regex := Cat digit digit.              (* \d{2} *)
Definition digit4 : regex := Cat digit2 digit2.            (* \d{4} *)
Definition plus (r : regex) : regex := Cat r (Star r).     (* r+ *)

End Re.

Import Re.

(** [^(\d{1,2})([ap]m)$] *)
Definition pattern_hour_meridiem : regex :=
  Cat digit12 (Cat ap (lit "m")).
(** [^(\d{1,2}):(\d{2})([ap]m)$] *)
Definition pattern_hour_minute_meridiem : regex :=
  Cat digit12 (Cat (lit ":") (Cat digit2 (Cat ap (lit "m")))).
(** [^(\d{1,2}):(\d{2})$] *)
Definition pattern_hour_minute : regex :=
  Cat digit12 (Cat (lit ":") digit2).
(** [^(\d{4}-\d{2}-\d{2}\s+\d{1,2}:\d{2})$] *)
Definition pattern_date_time : regex :=
  Cat digit4 (Cat (lit "-") (Cat digit2 (Cat (lit "-") (Cat digit2
    (Cat (plus space) (Cat digit12 (Cat (lit ":") digit2))))))).

(** The list [patterns] of [parse_time_input]. *)
Definition patterns : list (regex * string) :=
  [ (pattern_hour_meridiem, "%I%p");
    (pattern_hour_minute_meridiem, "%I:%M%p");
    (pattern_hour_minute, "%H:%M");
    (pattern_date_time, "%Y-%m-%d %H:%M") ].

(** ** Dates and times: the part of [datetime] the code uses *)

Module Datetime.

(** A naive [datetime]: the wall-clock fields the object stores. *)
Record naive := mk_naive {
  year : Z; month : Z; day : Z;
  hour : Z; minute : Z; second : Z; microsecond : Z
}.

(** An aware [datetime] whose [tzinfo] is [ZoneInfo(key)]. *)
Record aware := mk_aware {
  wall : naive;
  fold : bool;
  tzinfo : string
}.

Definition MINYEAR : Z := 1.
Definition MAXYEAR : Z := 9999.

Definition is_leap (y : Z) : bool :=
  ((y mod 4 =? 0) && (negb (y mod 100 =? 0) || (y mod 400 =? 0)))%bool.

(** The tables [_DAYS_IN_MONTH] and [_DAYS_BEFORE_MONTH], indexed from 1. *)
Definition DAYS_IN_MONTH (m : Z) : Z :=
  nth (Z.to_nat m) [0; 31; 28; 31; 30; 31; 30; 31; 31; 30; 31; 30; 31] 0.

Definition DAYS_BEFORE_MONTH (m : Z) : Z :=
  nth (Z.to_nat m) [0; 0; 31; 59; 90; 120; 151; 181; 212; 243; 273; 304; 334] 0.

Definition days_in_month (y m : Z) : Z :=
  if (m =? 2) && is_leap y then 29 else DAYS_IN_MONTH m.

(** [_check_date_fields] *)
Definition valid_date (y m d : Z) : bool :=
  ((MINYEAR <=? y) && (y <=? MAXYEAR) && (1 <=? m) && (m <=? 12) &&
   (1 <=? d) && (d <=? days_in_month y m))%bool.

(** [_check_time_fields] *)
Definition valid_time (h mi s us : Z) : bool :=
  ((0 <=? h) && (h <=? 23) && (0 <=? mi) && (mi <=? 59) &&
   (0 <=? s) && (s <=? 59) && (0 <=? us) && (us <=? 999999))%bool.

(** The constructor [datetime(y, m, d, h, mi, s, us)]. *)
Definition datetime (y m d h mi s us : Z) : result naive :=
  if negb (valid_date y m d) then Raise (ValueError "day is out of range for month")
  else if negb (valid_time h mi s us) then Raise (ValueError "hour must be in 0..23")
  else Ok (mk_naive y m d h mi s us).

(** [dt.replace(year=y, month=m, day=d)] *)
Definition replace_date (dt : naive) (y m d : Z) : result naive :=
  datetime y m d (hour dt) (minute dt) (second dt) (microsecond dt).

(** [dt.replace(tzinfo=ZoneInfo(key))] on a naive [dt] *)
Definition replace_tzinfo (dt : naive) (key : string) : aware :=
  mk_aware dt false key.

(** [dt.date()] as (year, month, day) *)
Definition date (dt : naive) : Z * Z * Z := (year dt, month dt, day dt).

Definition days_before_year (y : Z) : Z :=
  let y1 := y - 1 in y1 * 365 + y1 / 4 - y1 / 100 + y1 / 400.

Definition days_before_month (y m : Z) : Z :=
  DAYS_BEFORE_MONTH m + (if (2 <? m) && is_leap y then 1 else 0).

(** [_ymd2ord]: 0001-01-01 is day 1. *)
Definition ymd2ord (y m d : Z) : Z :=
  days_before_year y + days_before_month y m + d.

Definition US_PER_DAY : Z := 86400000000.
Definition MAXORDINAL : Z := 3652059.

(** Microseconds of the wall clock since 0001-01-01T00:00. *)
Definition to_us (dt : naive) : Z :=
  (ymd2ord (year dt) (month dt) (day dt) - 1) * US_PER_DAY
  + ((hour dt * 60 + minute dt) * 60 + second dt) * 1000000
  + microsecond dt.

(** The values a [datetime] can hold: ordinals 1..MAXORDINAL. *)
Definition representable (us : Z) : bool :=
  ((0 <=? us) && (us <? MAXORDINAL * US_PER_DAY))%bool.

Definition DI400Y : Z := 146097.
Definition DI100Y : Z := 36524.
Definition DI4Y : Z := 1461.

(** [_ord2ymd] *)
Definition ord2ymd (ordinal : Z) : Z * Z * Z :=
  let n := ordinal - 1 in
  let n400 := n / DI400Y in
  let n := n mod DI400Y in
  let n100 := n / DI100Y in
  let n := n mod DI100Y in
  let n4 := n / DI4Y in
  let n := n mod DI4Y in
  let n1 := n / 365 in
  let n := n mod 365 in
  let y := n400 * 400 + 1 + n100 * 100 + n4 * 4 + n1 in
  if (n1 =? 4) || (n100 =? 4) then (y - 1, 12, 31)
  else
    let leapyear := (n1 =? 3) && (negb (n4 =? 24) || (n100 =? 3)) in
    let m := Z.shiftr (n + 50) 5 in
    let preceding := DAYS_BEFORE_MONTH m + (if (2 <? m) && leapyear then 1 else 0) in
    if n <? preceding then
      let m' := m - 1 in
      let preceding' :=
        preceding - (DAYS_IN_MONTH m' + (if (m' =? 2) && leapyear then 1 else 0)) in
      (y, m', n - preceding' + 1)
    else (y, m, n - preceding + 1).

(** The datetime at [us] microseconds since 0001-01-01T00:00. *)
Definition of_us (us : Z) : naive :=
  let '(y, m, d) := ord2ymd (us / US_PER_DAY + 1) in
  let r := us mod US_PER_DAY in
  let secs := r / 1000000 in
  mk_naive y m d (secs / 3600) (secs mod 3600 / 60) (secs mod 60) (r mod 1000000).

(** [dt + timedelta(microseconds=delta)] on a naive [dt] *)
Definition add_us (dt : naive) (delta : Z) : result naive :=
  let us := to_us dt + delta in
  if representable us then Ok (of_us us)
  else Raise (OverflowError "date value out of range").

(** 1970-01-01T00:00 on that scale. *)
Definition UNIX_EPOCH_US : Z := (ymd2ord 1970 1 1 - 1) * US_PER_DAY.

(** The year that [gmtime] gives for a time on the scale of [to_us],
    also before year 1 and after year 9999. *)
Definition year_of_us (us : Z) : Z := fst (fst (ord2ymd (us / US_PER_DAY + 1))).

(** [datetime.utcfromtimestamp(t)] for [t] in microseconds: the fields
    of [gmtime], which the constructor rejects when the year is not in
    [MINYEAR..MAXYEAR]. *)
Definition utcfromtimestamp (t : Z) : result naive :=
  let us := UNIX_EPOCH_US + t in
  if representable us then Ok (of_us us)
  else Raise (ValueError ("year " +:+ NilZero.string_of_int (Z.to_int (year_of_us us))
                          +:+ " is out of range")).

End Datetime.

Import Datetime.

(** ** [datetime.strptime] for the directives the code uses

    [_strptime] turns the format into a regular expression with one named
    group per directive, takes the first match in backtracking order and
    rejects it when data remains.  The model keeps that order: every
    directive lists its ways to consume a prefix, first alternative
    first.  The texts of the [ValueError]s raised here never reach a
    caller of [parse_time_input], which drops them. *)

Module Strptime.

Inductive directive :=
| D_Y | D_m | D_d | D_H | D_I | D_M | D_p   (* %Y %m %d %H %I %M %p *)
| D_lit (c : ascii)                         (* any other character *)
| D_space.                                  (* a run of white space: \s+ *)

Definition directive_of (c : ascii) : option directive :=
  if Ascii.eqb c "Y" then Some D_Y
  else if Ascii.eqb c "m" then Some D_m
  else if Ascii.eqb c "d" then Some D_d
  else if Ascii.eqb c "H" then Some D_H
  else if Ascii.eqb c "I" then Some D_I
  else if Ascii.eqb c "M" then Some D_M
  else if Ascii.eqb c "p" then Some D_p
  else if Ascii.eqb c "%" then Some (D_lit "%")
  else None.

(** The format as a list of directives; [after_space] is set while a run
    of white space of the format is being read. *)
Fixpoint compile (after_space : bool) (fmt : string) : result (list directive) :=
  match fmt with
  | EmptyString => Ok []
  | String c r =>
      if Ascii.eqb c "%" then
        match r with
        | EmptyString => Raise (ValueError "stray % in format")
        | String x r' =>
            match directive_of x, compile false r' with
            | Some d, Ok ds => Ok (d :: ds)
            | Some _, Raise e => Raise e
            | None, _ => Raise (ValueError "bad directive in format")
            end
        end
      else if isspace c then
        match compile true r with
        | Ok ds => Ok (if after_space then ds else D_space :: ds)
        | Raise e => Raise e
        end
      else
        match compile false r with
        | Ok ds => Ok (D_lit c :: ds)
        | Raise e => Raise e
        end
  end.

Definition only (c : ascii) : ascii -> bool := Ascii.eqb c.
Definition between (lo hi : ascii) : ascii -> bool :=
  in_range (code lo) (code hi).
Definition ci (c : ascii) : ascii -> bool :=
  fun x => Ascii.eqb (lower_char x) (lower_char c).

(** The alternatives of a directive, each a sequence of character
    classes, in the order of [_strptime.TimeRE]. *)
Definition alternatives (d : directive) : list (list (ascii -> bool)) :=
  match d with
  | D_Y => [[isdigit; isdigit; isdigit; isdigit]]
  | D_m => [[only "1"; between "0" "2"]; [only "0"; between "1" "9"]; [between "1" "9"]]
  | D_d => [[only "3"; between "0" "1"]; [between "1" "2"; isdigit];
            [only "0"; between "1" "9"]; [between "1" "9"]; [only " "; between "1" "9"]]
  | D_H => [[only "2"; between "0" "3"]; [between "0" "1"; isdigit]; [isdigit]]
  | D_I => [[only "1"; between "0" "2"]; [only "0"; between "1" "9"]; [between "1" "9"]]
  | D_M => [[between "0" "5"; isdigit]; [isdigit]]
  | D_p => [[ci "a"; ci "m"]; [ci "p"; ci "m"]]
  | D_lit c => [[ci c]]
  | D_space => []
  end.

(** The name of the group a directive captures. *)
Definition group_name (d : directive) : option ascii :=
  match d with
  | D_Y => Some "Y"%char | D_m => Some "m"%char | D_d => Some "d"%char
  | D_H => Some "H"%char | D_I => Some "I"%char | D_M => Some "M"%char
  | D_p => Some "p"%char
  | D_lit _ | D_space => None
  end.

(** Consume one character per class: the text taken and the rest. *)
Fixpoint take (cs : list (ascii -> bool)) (s : string) : option (string * string) :=
  match cs with
  | [] => Some (EmptyString, s)
  | p :: cs' =>
      match s with
      | EmptyString => None
      | String c r =>
          if p c then
            match take cs' r with
            | Some (t, rest) => Some (String c t, rest)
            | None => None
            end
          else None
      end
  end.

(** [\s+] is greedy: the longest run first, then shorter ones. *)
Fixpoint space_splits (s : string) : list (string * string) :=
  match s with
  | EmptyString => []
  | String c r =>
      if isspace c then
        map (fun tr => (String c (fst tr), snd tr)) (space_splits r)
        ++ [(String c EmptyString, r)]
      else []
  end.

Definition successes (d : directive) (s : string) : list (string * string) :=
  match d with
  | D_space => space_splits s
  | _ => omap (fun cs => take cs s) (alternatives d)
  end.

Definition groups := list (ascii * string).

Definition capture (d : directive) (t : string) (g : groups) : groups :=
  match group_name d with
  | Some k => (k, t) :: g
  | None => g
  end.

(** All the ways the directives match a prefix of [s], in backtracking
    order, each with its groups and the data that remains. *)
Fixpoint run (ds : list directive) (s : string) : list (groups * string) :=
  match ds with
  | [] => [([], s)]
  | d :: ds' =>
      flat_map (fun tr =>
        map (fun gr => (capture d (fst tr) (fst gr), snd gr)) (run ds' (snd tr)))
        (successes d s)
  end.

(** [int(t)] for a text of digits; [int] skips the blank that [%d] may
    capture. *)
Definition digit_value (c : ascii) : Z := Z.of_N (code c) - 48.

Fixpoint int_acc (acc : Z) (t : string) : Z :=
  match t with
  | EmptyString => acc
  | String c r => int_acc (if isdigit c then acc * 10 + digit_value c else acc) r
  end.

Definition int (t : string) : Z := int_acc 0 t.

(** [found_dict.get(k)] *)
Fixpoint get (k : ascii) (g : groups) : option string :=
  match g with
  | [] => None
  | (k', t) :: g' => if Ascii.eqb k k' then Some t else get k g'
  end.

Definition get_int (k : ascii) (default : Z) (g : groups) : Z :=
  match get k g with
  | Some t => int t
  | None => default
  end.

(** The hour of a 12-hour clock under the meridiem [ampm] (lower case;
    empty when the format has no [%p]). *)
Definition hour12 (h : Z) (ampm : string) : Z :=
  if String.eqb ampm "" || String.eqb ampm "am" then (if h =? 12 then 0 else h)
  else if String.eqb ampm "pm" then (if h =? 12 then h else h + 12)
  else h.

Definition hour_of (g : groups) : Z :=
  match get "I" g with
  | Some t => hour12 (int t) (lower (default EmptyString (get "p" g)))
  | None => get_int "H" 0 g
  end.

(** The fields read from the groups: the year defaults to 1900, month
    and day to 1, the time to 00:00:00.  [_strptime] checks the date by
    building a [date], then the class builds the [datetime]. *)
Definition build (g : groups) : result naive :=
  datetime (get_int "Y" 1900 g) (get_int "m" 1 g) (get_int "d" 1 g)
           (hour_of g) (get_int "M" 0 g) 0 0.

(** [datetime.strptime(data_string, format)] *)
Definition strptime (data_string format : string) : result naive :=
  match compile false format with
  | Raise e => Raise e
  | Ok ds =>
      match run ds data_string with
      | [] => Raise (ValueError ("time data '" +:+ data_string +:+
                                 "' does not match format '" +:+ format +:+ "'"))
      | (g, rest) :: _ =>
          if negb (String.eqb rest "")
          then Raise (ValueError ("unconverted data remains: " +:+ rest))
          else build g
      end
  end.

End Strptime.

Import Strptime.

(** ** Computations that read the clock and may raise

    The state is the number of readings of the platform clock taken so
    far; a raised exception keeps the state reached. *)

Definition M (A : Type) : Type := nat -> result A * nat.

Definition ret {A} (a : A) : M A := fun w => (Ok a, w).
Definition raise {A} (e : exn) : M A := fun w => (Raise e, w).
Definition lift {A} (r : result A) : M A := fun w => (r, w).
Definition bind {A B} (m : M A) (k : A -> M B) : M B :=
  fun w => match m w with
           | (Ok a, w') => k a w'
           | (Raise e, w') => (Raise e, w')
           end.

Notation "x <- m ;; k" := (bind m (fun x => k))
  (at level 100, m at next level, right associativity).

(** [try: body except ValueError: handler] *)
Definition except_ValueError {A} (body : M A) (handler : M A) : M A :=
  fun w => match body w with
           | (Raise (ValueError _), w') => handler w'
           | other => other
           end.

(** [try: body except Exception as e: handler(e)] *)
Definition except_Exception {A} (body : M A) (handler : exn -> M A) : M A :=
  fun w => match body w with
           | (Raise e, w') => handler e w'
           | other => other
           end.

(** A value stored in the [dict] that [convert_time] returns. *)
Inductive pyval :=
| PyStr (s : string)
| PyDatetime (d : aware).

Section Converter.

(** The zone database of the machine. *)
Variable available_timezones : gset string.
(** [ZoneInfo(key)] finds the key. *)
Variable zone_known : string -> bool.
(** [ZoneInfo(key).utcoffset(dt)], in microseconds, from the wall
    clock and the fold of [dt]. *)
Variable utcoffset : string -> naive -> bool -> Z.
(** [ZoneInfo(key).fromutc(dt)] for the UTC wall clock [dt]. *)
Variable fromutc : string -> naive -> result aware.

(** The platform: the successive readings of [time.time()], in
    microseconds since the Unix epoch, and the local time at a reading. *)
Variable clock : nat -> Z.
Variable localtime : Z -> naive.

Definition read_clock : M Z := fun w => (Ok (clock w), S w).

(** [ZoneInfo(key)]; the object is identified with its key, as the
    class returns one object per key. *)
Definition ZoneInfo (key : string) : result string :=
  if zone_known key then Ok key
  else Raise (KeyError ("No time zone found with key " +:+ key)).

(** [datetime.now()] *)
Definition now_local : M naive :=
  t <- read_clock ;; ret (localtime t).

(** [datetime.now(tz)] *)
Definition now_in (tz : string) : M aware :=
  t <- read_clock ;;
  utc <- lift (utcfromtimestamp t) ;;
  lift (fromutc tz utc).

(** [dt.utcoffset()] *)
Definition offset_of (dt : aware) : Z :=
  utcoffset (tzinfo dt) (wall dt) (fold dt).

(** The absolute time of an aware datetime, in microseconds since
    0001-01-01T00:00 UTC. *)
Definition instant (dt : aware) : Z := to_us (wall dt) - offset_of dt.

(** [dt.astimezone(tz)] on an aware [dt]: the same object when [tz]
    is its zone, else [tz.fromutc((dt - offset).replace(tzinfo=tz))]. *)
Definition astimezone (dt : aware) (tz : string) : result aware :=
  if String.eqb tz (tzinfo dt) then Ok dt
  else
    match add_us (wall dt) (- offset_of dt) with
    | Ok utc => fromutc tz utc
    | Raise e => Raise e
    end.

(** The body of the [try] of the loop of [parse_time_input]. *)
Definition parse_with (time_str fmt source_tz : string) : M aware :=
  if contains "Y" fmt then
    dt <- lift (strptime time_str fmt) ;;
    tz <- lift (ZoneInfo source_tz) ;;
    ret (replace_tzinfo dt tz)
  else
    today <- now_local ;;
    dt <- lift (strptime (upper time_str) fmt) ;;
    dt <- lift (replace_date dt (year today) (month today) (day today)) ;;
    tz <- lift (ZoneInfo source_tz) ;;
    ret (replace_tzinfo dt tz).

(** The loop [for pattern, fmt in patterns] with its [continue]. *)
Fixpoint try_patterns (ps : list (regex * string)) (time_str source_tz : string)
  : M aware :=
  match ps with
  | [] => raise (ValueError ("Could not parse time: " +:+ time_str))
  | (pattern, fmt) :: rest =>
      if re_match pattern time_str then
        except_ValueError (parse_with time_str fmt source_tz)
                          (try_patterns rest time_str source_tz)
      else try_patterns rest time_str source_tz
  end.

Definition parse_time_input (time_str source_tz : string) : M aware :=
  let time_str := strip time_str in
  if String.eqb (lower time_str) "now" then
    tz <- lift (ZoneInfo source_tz) ;; now_in tz
  else try_patterns patterns time_str source_tz.

Definition convert_time (time_str from_tz to_tz : string)
  : M (gmap string pyval) :=
  except_Exception
    (source_tz <- lift (normalize_timezone available_timezones from_tz) ;;
     target_tz <- lift (normalize_timezone available_timezones to_tz) ;;
     source_time <- parse_time_input time_str source_tz ;;
     tz <- lift (ZoneInfo target_tz) ;;
     target_time <- lift (astimezone source_time tz) ;;
     ret (<["source_time" := PyDatetime source_time]>
          (<["target_time" := PyDatetime target_time]>
          (<["source_tz" := PyStr source_tz]>
          (<["target_tz" := PyStr target_tz]> ∅)))))
    (fun e => ret {["error" := PyStr (str_exn e)]}).

End Converter.

(** The format paired with the first pattern that matches, if any. *)
Definition matching_format (time_str : string) : option string :=
  match List.find (fun pf => re_match (fst pf) time_str) patterns with
  | Some pf => Some (snd pf)
  | None => None
  end.

(** The expression matches a pattern whose format has no year: the
    forms for which [parse_with] asks the clock for today's date. *)
Definition time_only (time_str : string) : bool :=
  match matching_format time_str with
  | Some fmt => negb (contains "Y" fmt)
  | None => false
  end.

(** The text that [parse_with] hands to [strptime]. *)
Definition strptime_input (time_str fmt : string) : string :=
  if contains "Y" fmt then time_str else upper time_str.

(** ** The display: [format_result] and [cli_mode]

    The marks of the messages are outside ASCII; a string holds the
    bytes of their UTF-8 encoding, as the source file has them. *)

(** The colour codes [RED], [GREEN], [CYAN], [GRAY] and [RESET]. *)
Definition ESC : ascii := "027"%char.
Definition GREEN : string := String ESC "[92m".
Definition CYAN : string := String ESC "[96m".
Definition GRAY : string := String ESC "[90m".
Definition RED : string := String ESC "[91m".
Definition RESET : string := String ESC "[0m".

(** [s.lstrip(chars)] *)
Fixpoint lstrip_chars (chars s : string) : string :=
  match s with
  | EmptyString => EmptyString
  | String c r => if any_char (Ascii.eqb c) chars then lstrip_chars chars r else s
  end.

(** [sep.join(parts)] *)
Fixpoint join (sep : string) (parts : list string) : string :=
  match parts with
  | [] => EmptyString
  | [p] => p
  | p :: rest => p +:+ sep +:+ join sep rest
  end.

(** [xs[-k]] for [k] from 1; [None] is the [IndexError]. *)
Definition from_end {A : Type} (xs : list A) (k : nat) : option A :=
  if Nat.leb k (length xs) then xs !! (length xs - k)%nat else None.

(** [xs[:-k]] *)
Definition drop_last {A : Type} (k : nat) (xs : list A) : list A :=
  firstn (length xs - k) xs.

(** A number below 100 as [%02d] prints it. *)
Definition digit_char (d : Z) : ascii := ascii_of_N (Z.to_N (48 + d)).
Definition two_digits (n : Z) : string :=
  String (digit_char (n / 10)) (String (digit_char (n mod 10)) EmptyString).

(** The order of [date] objects: by year, then month, then day. *)
Definition date_eqb (a b : Z * Z * Z) : bool :=
  let '(y1, m1, d1) := a in
  let '(y2, m2, d2) := b in
  ((y1 =? y2) && (m1 =? m2) && (d1 =? d2))%bool.

Definition date_ltb (a b : Z * Z * Z) : bool :=
  let '(y1, m1, d1) := a in
  let '(y2, m2, d2) := b in
  ((y1 <? y2) || ((y1 =? y2) && ((m1 <? m2) || ((m1 =? m2) && (d1 <? d2)))))%bool.

Section Display.

(** [dt.tzname()] from the zone database: the abbreviation in force in
    the zone at the wall clock and fold of [dt]. *)
Variable tzname : string -> naive -> bool -> string.
(** [str(dt)] of a datetime. *)
Variable str_datetime : aware -> string.

(** [dt.strftime('%I:%M %p %Z')], with the [AM] and [PM] of the C
    locale. *)
Definition strftime_clock (dt : aware) : string :=
  let h := hour (wall dt) in
  let h12 := if h mod 12 =? 0 then 12 else h mod 12 in
  two_digits h12 +:+ ":" +:+ two_digits (minute (wall dt)) +:+ " " +:+
  (if h <? 12 then "AM" else "PM") +:+ " " +:+
  tzname (tzinfo dt) (wall dt) (fold dt).

(** [str(v)], as an f-string formats a value. *)
Definition str_of (v : pyval) : string :=
  match v with
  | PyStr s => s
  | PyDatetime dt => str_datetime dt
  end.

(** The f-strings of the error line and of the result line. *)
Definition error_line (msg : string) : string :=
  RED +:+ "âŒ Error: " +:+ msg +:+ RESET.

Definition output_line (source_fmt target_fmt date_info : string) : string :=
  CYAN +:+ "ğŸ• " +:+ source_fmt +:+ RESET +:+ " â†’ " +:+
  GREEN +:+ target_fmt +:+ date_info +:+ RESET.

(** [format_result]; [None] when the call raises: a [KeyError] for a
    missing key, an [AttributeError] for a time that is not a
    datetime. *)
Definition format_result (result : gmap string pyval) : option string :=
  match result !! "error" with
  | Some e => Some (error_line (str_of e))
  | None =>
      match result !! "source_time", result !! "target_time" with
      | Some (PyDatetime source), Some (PyDatetime target) =>
          let source_fmt := lstrip_chars "0" (strftime_clock source) in
          let target_fmt := lstrip_chars "0" (strftime_clock target) in
          let date_info :=
            if negb (date_eqb (date (wall source)) (date (wall target))) then
              if date_ltb (date (wall source)) (date (wall target))
              then " " +:+ GRAY +:+ "(+1 day)" +:+ RESET
              else " " +:+ GRAY +:+ "(-1 day)" +:+ RESET
            else EmptyString in
          Some (output_line source_fmt target_fmt date_info)
      | _, _ => None
      end
  end.

Variable available_timezones : gset string.
Variable zone_known : string -> bool.
Variable utcoffset : string -> naive -> bool -> Z.
Variable fromutc : string -> naive -> result aware.
Variable clock : nat -> Z.
Variable localtime : Z -> naive.

(** The two lines that [cli_mode] prints for a malformed command. *)
Definition usage : list string :=
  [ RED +:+ "âŒ Usage: zont <time> <from_tz> to <to_tz>" +:+ RESET;
    GRAY +:+ "Example: zont 3pm EST to PST" +:+ RESET ].

(** [cli_mode(args)] on [args.conversion]: the lines printed, or
    [None] when the call raises. *)
Definition cli_mode (conversion : list string) (w : nat) : option (list string) * nat :=
  if Nat.ltb (length conversion) 4 then (Some usage, w)
  else
    match from_end conversion 2 with
    | None => (None, w)
    | Some word =>
        if negb (String.eqb (lower word) "to") then (Some usage, w)
        else
          match from_end conversion 3, from_end conversion 1 with
          | Some from_tz, Some to_tz =>
              let time_str := join " " (drop_last 3 conversion) in
              match convert_time available_timezones zone_known utcoffset fromutc
                                 clock localtime time_str from_tz to_tz w with
              | (Ok result, w') =>
                  (option_map (fun line => [line]) (format_result result), w')
              | (Raise _, w') => (None, w')
              end
          | _, _ => (None, w)
          end
    end.

End Display.

(** ** A concrete machine for runs

    Keys of the IANA database whose zones keep one offset all year, a
    machine whose local time is UTC, and a clock that reads 23:59:59 on
    2024-03-09, then 00:00:01 on 2024-03-10, then 00:00:03.5. *)
Definition sample_zones : gset string :=
  list_to_set
    [ "UTC"; "Asia/Tokyo"; "EST"; "Asia/Kolkata"; "Etc/GMT+5";
      "Etc/Greenwich"; "Greenwich"; "Africa/Abidjan" ].

Definition sample_offsets : gmap string Z :=
  list_to_map
    [ ("UTC", 0); ("Asia/Tokyo", 9 * 3600000000); ("EST", -5 * 3600000000);
      ("Asia/Kolkata", 19800000000); ("Etc/GMT+5", -5 * 3600000000);
      ("Etc/Greenwich", 0); ("Greenwich", 0); ("Africa/Abidjan", 0) ].

Definition sample_known (key : string) : bool :=
  bool_decide (is_Some (sample_offsets !! key)).

Definition sample_utcoffset (key : string) (dt : naive) (fold : bool) : Z :=
  default 0 (sample_offsets !! key).

Definition sample_fromutc (key : string) (utc : naive) : result aware :=
  match add_us utc (default 0 (sample_offsets !! key)) with
  | Ok dt => Ok (mk_aware dt false key)
  | Raise e => Raise e
  end.

Definition sample_localtime (t : Z) : naive := of_us (t + UNIX_EPOCH_US).

Definition sample_clock (k : nat) : Z :=
  match k with
  | 0%nat => 1710028799000000
  | 1%nat => 1710028801000000
  | _ => 1710028803500000
  end.

Definition sample_parse : string -> string -> M aware :=
  parse_time_input sample_known sample_fromutc sample_clock sample_localtime.

Definition sample_convert : string -> string -> string -> M (gmap string pyval) :=
  convert_time sample_zones sample_known sample_utcoffset sample_fromutc
               sample_clock sample_localtime.

Example sample_sorted :
  all_timezones sample_zones =
  [ "Africa/Abidjan"; "Asia/Kolkata"; "Asia/Tokyo"; "EST"; "Etc/GMT+5";
    "Etc/Greenwich"; "Greenwich"; "UTC" ].
Proof. vm_compute. reflexivity. Qed.

Example resolve_est : normalize_timezone sample_zones " est " = Ok "America/New_York".
Proof. vm_compute. reflexivity. Qed.

Example resolve_fuzzy : normalize_timezone sample_zones "tokyo" = Ok "Asia/Tokyo".
Proof. vm_compute. reflexivity. Qed.

Example resolve_greenwich : normalize_timezone sample_zones "greenwich" = Ok "Etc/Greenwich".
Proof. vm_compute. reflexivity. Qed.

Example resolve_unknown :
  normalize_timezone sample_zones "Mars/Phobos" = Raise (ValueError "Unknown timezone: Mars/Phobos").
Proof. vm_compute. reflexivity. Qed.

Example re1 : re_match pattern_hour_meridiem "3PM" = true. Proof. reflexivity. Qed.
Example re2 : re_match pattern_hour_minute "25:00" = true. Proof. reflexivity. Qed.
Example re3 : re_match pattern_date_time "2024-01-15   15:00" = true. Proof. reflexivity. Qed.
Example re4 : re_match pattern_hour_minute_meridiem "3:30" = false. Proof. reflexivity. Qed.

Example sp1 : strptime "3PM" "%I%p" = Ok (mk_naive 1900 1 1 15 0 0 0). Proof. vm_compute. reflexivity. Qed.
Example sp2 : strptime "12AM" "%I%p" = Ok (mk_naive 1900 1 1 0 0 0 0). Proof. vm_compute. reflexivity. Qed.
Example sp3 : strptime "2024-01-15 15:00" "%Y-%m-%d %H:%M" = Ok (mk_naive 2024 1 15 15 0 0 0). Proof. vm_compute. reflexivity. Qed.
Example sp4 : strptime "25:00" "%H:%M" = Raise (ValueError "time data '25:00' does not match format '%H:%M'"). Proof. vm_compute. reflexivity. Qed.
Example sp5 : strptime "3:60" "%H:%M" = Raise (ValueError "unconverted data remains: 0"). Proof. vm_compute. reflexivity. Qed.
Example sp6 : strptime "2024-02-30 15:00" "%Y-%m-%d %H:%M" = Raise (ValueError "day is out of range for month"). Proof. vm_compute. reflexivity. Qed.
Example sp7 : strptime "7:05" "%H:%M" = Ok (mk_naive 1900 1 1 7 5 0 0). Proof. vm_compute. reflexivity. Qed.

Example cal1 : of_us (to_us (mk_naive 2024 2 29 23 59 58 7)) = mk_naive 2024 2 29 23 59 58 7.
Proof. vm_compute. reflexivity. Qed.
Example cal2 : sample_localtime (sample_clock 0) = mk_naive 2024 3 9 23 59 59 0.
Proof. vm_compute. reflexivity. Qed.
Example cal3 : sample_localtime (sample_clock 1) = mk_naive 2024 3 10 0 0 1 0.
Proof. vm_compute. reflexivity. Qed.
Example cal4 : ord2ymd MAXORDINAL = (9999, 12, 31). Proof. vm_compute. reflexivity. Qed.
Example cal5 : ord2ymd 1 = (1, 1, 1). Proof. vm_compute. reflexivity. Qed.

Example conv1 :
  sample_convert "2024-01-15 15:00" "UTC" "Asia/Tokyo" 0%nat =
  (Ok (<["source_time" := PyDatetime (mk_aware (mk_naive 2024 1 15 15 0 0 0) false "UTC")]>
      (<["target_time" := PyDatetime (mk_aware (mk_naive 2024 1 16 0 0 0 0) false "Asia/Tokyo")]>
      (<["source_tz" := PyStr "UTC"]> (<["target_tz" := PyStr "Asia/Tokyo"]> ∅)))), 0%nat).
Proof. vm_compute. reflexivity. Qed.

Example conv2 :
  sample_convert "25:00" "UTC" "UTC" 0%nat =
  (Ok {["error" := PyStr "Could not parse time: 25:00"]}, 1%nat).
Proof. vm_compute. reflexivity. Qed.

Example conv3 :
  sample_convert "3pm" "Mars/Phobos" "UTC" 0%nat =
  (Ok {["error" := PyStr "Unknown timezone: Mars/Phobos"]}, 0%nat).
Proof. vm_compute. reflexivity. Qed.

Example conv4 :
  sample_convert "3pm" "UTC" "jst" 0%nat =
  (Ok (<["source_time" := PyDatetime (mk_aware (mk_naive 2024 3 9 15 0 0 0) false "UTC")]>
      (<["target_time" := PyDatetime (mk_aware (mk_naive 2024 3 10 0 0 0 0) false "Asia/Tokyo")]>
      (<["source_tz" := PyStr "UTC"]> (<["target_tz" := PyStr "Asia/Tokyo"]> ∅)))), 1%nat).
Proof. vm_compute. reflexivity. Qed.

Example conv5 :
  sample_convert "now" "UTC" "EST" 0%nat =
  (Ok {["error" := PyStr "'No time zone found with key America/New_York'"]}, 1%nat).
Proof. vm_compute. reflexivity. Qed.

Example conv6 :
  sample_convert "0001-01-01 00:00" "JST" "UTC" 0%nat =
  (Ok {["error" := PyStr "date value out of range"]}, 0%nat).
Proof. vm_compute. reflexivity. Qed.

(** * Properties *)

(** ** Strings *)

Section StringFacts.

Lemma append_nil_l (s : string) : "" +:+ s = s.
Proof. reflexivity. Qed.

Lemma append_cons (c : ascii) (a b : string) :
  String c a +:+ b = String c (a +:+ b).
Proof. reflexivity. Qed.

Lemma append_nil_r (s : string) : s +:+ "" = s.
Proof.
  induction s as [|c s IH]; [reflexivity|]. rewrite append_cons. congruence.
Qed.

Lemma append_assoc (a b c : string) : (a +:+ b) +:+ c = a +:+ (b +:+ c).
Proof.
  induction a as [|x a IH]; [reflexivity|]. rewrite !append_cons. congruence.
Qed.

Lemma startswith_spec (p s : string) :
  startswith p s = true <-> exists post, s = p +:+ post.
Proof.
  revert s. induction p as [|a p IH]; intros s; simpl.
  - split; [intros _; now exists s | reflexivity].
  - destruct s as [|b s].
    + split; [discriminate | intros [post H]; discriminate].
    + rewrite andb_true_iff, IH, Ascii.eqb_eq. split.
      * intros [-> [post ->]]. now exists post.
      * intros [post H]. rewrite append_cons in H. injection H as -> ->.
        split; [reflexivity | now exists post].
Qed.

(** [needle in hay] holds exactly when [hay] is some text, then the
    needle, then some text. *)
Lemma contains_spec (needle hay : string) :
  contains needle hay = true <-> exists pre post, hay = pre +:+ needle +:+ post.
Proof.
  induction hay as [|c h IH].
  - simpl. rewrite orb_false_r, startswith_spec. split.
    + intros [post H]. now exists "", post.
    + intros [pre [post H]]. destruct pre; [now exists post | discriminate].
  - simpl. rewrite orb_true_iff, startswith_spec, IH. split.
    + intros [[post H] | [pre [post H]]].
      * now exists "", post.
      * exists (String c pre), post. rewrite append_cons. now rewrite H.
    + intros [pre [post H]]. destruct pre as [|x pre].
      * left. now exists post.
      * right. rewrite append_cons in H. injection H as _ ->. now exists pre, post.
Qed.

Lemma contains_empty (hay : string) : contains "" hay = true.
Proof. destruct hay; reflexivity. Qed.

Lemma lstrip_all_space (s : string) : all_space s = true -> lstrip s = "".
Proof.
  induction s as [|c s IH]; simpl; [reflexivity|].
  intros [Hc Hs]%andb_true_iff. now rewrite Hc, IH.
Qed.

Lemma strip_all_space (s : string) : all_space s = true -> strip s = "".
Proof. intros H. unfold strip. now rewrite lstrip_all_space. Qed.

Lemma rstrip_empty_inv (s : string) : rstrip s = "" -> all_space s = true.
Proof.
  induction s as [|c s IH]; simpl; [reflexivity|].
  destruct (rstrip s) eqn:E; [|discriminate].
  destruct (isspace c); [intros _; now apply IH | discriminate].
Qed.

Lemma lstrip_all_space_inv (s : string) :
  all_space (lstrip s) = true -> all_space s = true.
Proof.
  induction s as [|c s IH]; simpl; [reflexivity|].
  destruct (isspace c) eqn:E; simpl; [exact IH | now rewrite E].
Qed.

Lemma strip_empty_iff (s : string) : strip s = "" <-> all_space s = true.
Proof.
  split; [|apply strip_all_space].
  intros H. now apply lstrip_all_space_inv, rstrip_empty_inv.
Qed.

End StringFacts.

(** ** The order of the catalog *)

Section Order.

Lemma ascii_compare_trans_lt (a b c : ascii) :
  Ascii.compare a b = Lt -> Ascii.compare b c = Lt -> Ascii.compare a c = Lt.
Proof.
  unfold Ascii.compare. rewrite !N.compare_lt_iff. apply N.lt_trans.
Qed.

Lemma string_compare_trans_lt (x y z : string) :
  String.compare x y = Lt -> String.compare y z = Lt -> String.compare x z = Lt.
Proof.
  revert y z. induction x as [|a x IH]; intros [|b y] [|c z]; simpl; try congruence.
  destruct (Ascii.compare a b) eqn:Eab; try discriminate;
    destruct (Ascii.compare b c) eqn:Ebc; try discriminate.
  - apply Ascii.compare_eq_iff in Eab, Ebc. subst.
    rewrite (proj2 (N.compare_eq_iff _ _) eq_refl : Ascii.compare c c = Eq).
    apply IH.
  - apply Ascii.compare_eq_iff in Eab. subst. now rewrite Ebc.
  - apply Ascii.compare_eq_iff in Ebc. subst. now rewrite Eab.
  - now rewrite (ascii_compare_trans_lt _ _ _ Eab Ebc).
Qed.

Lemma string_compare_refl (x : string) : String.compare x x = Eq.
Proof.
  induction x as [|a x IH]; simpl; [reflexivity|].
  now rewrite (proj2 (N.compare_eq_iff _ _) eq_refl : Ascii.compare a a = Eq).
Qed.

Lemma str_le_cases (x y : string) :
  str_le x y <-> x = y \/ String.compare x y = Lt.
Proof.
  unfold str_le, String.leb. split.
  - destruct (String.compare x y) eqn:E; try discriminate; intros _.
    + left. now apply String.compare_eq_iff.
    + now right.
  - intros [-> | ->]; [now rewrite string_compare_refl | reflexivity].
Qed.

#[global] Instance str_le_trans : Transitive str_le.
Proof.
  intros x y z. rewrite !str_le_cases.
  intros [-> | Hxy] [-> | Hyz]; auto.
  right. eapply string_compare_trans_lt; eassumption.
Qed.

Lemma str_le_empty_inv (x : string) : str_le x "" -> x = "".
Proof. destruct x; [reflexivity | discriminate]. Qed.

Lemma str_le_antisym (x y : string) : str_le x y -> str_le y x -> x = y.
Proof.
  intros H1 H2. apply str_le_cases in H1, H2.
  destruct H1 as [-> | Hxy]; [reflexivity|]. destruct H2 as [-> | Hyx]; [reflexivity|].
  pose proof (String.compare_antisym x y) as Ha. rewrite Hyx in Ha.
  simpl in Ha. congruence.
Qed.

Lemma StronglySorted_lookup_le {A : Type} (R : A -> A -> Prop) (l : list A)
    (i j : nat) (x y : A) :
  StronglySorted R l -> (i < j)%nat -> l !! i = Some x -> l !! j = Some y -> R x y.
Proof.
  intros HS. revert i j x y.
  induction HS as [|a l HS IH Hall]; intros i j x y Hij Hi Hj.
  - now rewrite lookup_nil in Hi.
  - destruct j as [|j]; [lia|]. simpl in Hj. destruct i as [|i]; simpl in Hi.
    + injection Hi as <-. rewrite Forall_forall in Hall. apply Hall.
      apply list_elem_of_lookup. eauto.
    + apply (IH i j); [lia | assumption | assumption].
Qed.

End Order.

(** ** The resolver *)

Section ResolverFacts.

Variable available_timezones : gset string.

Local Abbreviation catalog := (all_timezones available_timezones).
Local Abbreviation resolve := (normalize_timezone available_timezones).

(** The catalog holds the keys of the database, each once, in
    ascending order. *)
Lemma elem_of_catalog (z : string) : z ∈ catalog <-> z ∈ available_timezones.
Proof.
  unfold all_timezones, sorted.
  rewrite (merge_sort_Permutation str_le (elements available_timezones)).
  apply elem_of_elements.
Qed.

Lemma catalog_sorted : StronglySorted str_le catalog.
Proof. apply StronglySorted_merge_sort; apply _. Qed.

Lemma catalog_NoDup : NoDup catalog.
Proof.
  unfold all_timezones, sorted.
  rewrite (merge_sort_Permutation str_le (elements available_timezones)).
  apply NoDup_elements.
Qed.

Lemma catalog_head_least (z0 : string) (rest : list string) (z : string) :
  catalog = z0 :: rest -> z ∈ available_timezones -> str_le z0 z.
Proof.
  intros E Hz. apply elem_of_catalog in Hz.
  pose proof catalog_sorted as HS. rewrite E in HS, Hz.
  apply StronglySorted_cons in HS as [Hall _].
  apply elem_of_cons in Hz as [-> | Hz].
  - apply str_le_cases. now left.
  - rewrite Forall_forall in Hall. now apply Hall.
Qed.

(** What the loop over the catalog returns: the entry at the least
    index whose lower-case form contains the lower-case token. *)
Lemma close_match_Some (tz_input : string) (tzs : list string) (tz : string) :
  close_match tz_input tzs = Some tz <->
  exists i : nat,
    tzs !! i = Some tz /\
    contains (lower tz_input) (lower tz) = true /\
    forall (j : nat) (tz' : string), (j < i)%nat -> tzs !! j = Some tz' ->
      contains (lower tz_input) (lower tz') = false.
Proof.
  induction tzs as [|x tzs IH]; simpl.
  - split; [discriminate | intros [i [H _]]; now rewrite lookup_nil in H].
  - destruct (contains (lower tz_input) (lower x)) eqn:E.
    + split.
      * intros [= <-]. exists 0%nat. repeat split; auto. intros j tz' Hj. lia.
      * intros [[|i] [Hi [Hc Hmin]]]; simpl in Hi; [congruence|].
        specialize (Hmin 0%nat x ltac:(lia) eq_refl). congruence.
    + rewrite IH. split.
      * intros [i [Hi [Hc Hmin]]]. exists (S i). repeat split; auto.
        intros [|j] tz' Hj Hl; simpl in Hl; [congruence|].
        apply (Hmin j); [lia | assumption].
      * intros [[|i] [Hi [Hc Hmin]]]; simpl in Hi; [congruence|].
        exists i. repeat split; auto. intros j tz' Hj Hl.
        apply (Hmin (S j)); [lia | assumption].
Qed.

Lemma close_match_None (tz_input : string) (tzs : list string) :
  close_match tz_input tzs = None <->
  forall tz, tz ∈ tzs -> contains (lower tz_input) (lower tz) = false.
Proof.
  induction tzs as [|x tzs IH]; simpl.
  - split; [intros _ tz H; inversion H | reflexivity].
  - destruct (contains (lower tz_input) (lower x)) eqn:E.
    + split; [discriminate|]. intros H. specialize (H x ltac:(left)). congruence.
    + rewrite IH. split.
      * intros H tz [-> | Hin]%elem_of_cons; auto.
      * intros H tz Hin. apply H. now right.
Qed.

(** C2: a token whose trimmed, upper-case form is a key of the
    abbreviation table resolves to the zone the table maps the key to,
    whatever the catalog holds: the table is consulted before the
    exact and the substring lookups. *)
Theorem abbreviation_takes_precedence (token z : string) :
  timezone_abbrevs !! upper (strip token) = Some z ->
  resolve token = Ok z.
Proof. intros H. unfold normalize_timezone. now rewrite H. Qed.

(** In the sorted catalog the first entry that contains the token is
    the least key of the database, in the order of the code points,
    that contains it. *)
Lemma close_match_least (tz_input tz : string) :
  close_match tz_input catalog = Some tz <->
  tz ∈ available_timezones /\
  contains (lower tz_input) (lower tz) = true /\
  forall tz' : string, tz' ∈ available_timezones ->
    contains (lower tz_input) (lower tz') = true -> str_le tz tz'.
Proof.
  assert (forall t, close_match tz_input catalog = Some t ->
            t ∈ available_timezones /\
            contains (lower tz_input) (lower t) = true /\
            forall tz' : string, tz' ∈ available_timezones ->
              contains (lower tz_input) (lower tz') = true -> str_le t tz') as Hdir.
  { intros t H. apply close_match_Some in H as (i & Hi & Hc & Hmin).
    split; [apply elem_of_catalog, list_elem_of_lookup; eauto|].
    split; [assumption|]. intros tz' Hin Hc'.
    apply elem_of_catalog, list_elem_of_lookup in Hin as [j Hj].
    destruct (Nat.lt_trichotomy j i) as [Hlt | [-> | Hgt]].
    - rewrite (Hmin j tz' Hlt Hj) in Hc'. discriminate.
    - rewrite Hi in Hj. injection Hj as ->. apply str_le_cases. now left.
    - apply (StronglySorted_lookup_le str_le catalog i j); auto.
      apply catalog_sorted. }
  split; [apply Hdir|]. intros (Hin & Hc & Hleast).
  destruct (close_match tz_input catalog) as [t|] eqn:E.
  - f_equal. destruct (Hdir t eq_refl) as (Hint & Hct & Hleastt).
    apply str_le_antisym; auto.
  - rewrite close_match_None in E. rewrite (E tz) in Hc; [discriminate|].
    now apply elem_of_catalog.
Qed.

(** C1: for an ASCII token over a database of ASCII keys, when the
    token is neither a key of the abbreviation table (trimmed, any
    case) nor a key of the database (trimmed, exact), resolution
    returns the first entry of the sorted catalog whose lower-case form
    contains the trimmed lower-case token as a substring: that is, the
    least key of the database, in the order of the code points, among
    those that contain it.  It raises the unknown-zone error exactly
    when no key contains the token, and raises nothing else. *)
Theorem fuzzy_pass_first_match (token : string) :
  isascii token = true ->
  (forall z : string, z ∈ available_timezones -> isascii z = true) ->
  timezone_abbrevs !! upper (strip token) = None ->
  strip token ∉ available_timezones ->
  (forall tz : string,
      resolve token = Ok tz <->
      tz ∈ available_timezones /\
      (exists pre post, lower tz = pre +:+ lower (strip token) +:+ post) /\
      forall tz' : string, tz' ∈ available_timezones ->
        (exists pre post, lower tz' = pre +:+ lower (strip token) +:+ post) ->
        str_le tz tz') /\
  (resolve token = Raise (ValueError ("Unknown timezone: " +:+ strip token)) <->
   forall tz : string, tz ∈ available_timezones ->
     ~ exists pre post, lower tz = pre +:+ lower (strip token) +:+ post) /\
  (forall e : exn,
      resolve token = Raise e ->
      e = ValueError ("Unknown timezone: " +:+ strip token)).
Proof.
  intros _ _ Habbr Hnotin. unfold normalize_timezone. rewrite Habbr.
  rewrite bool_decide_eq_false_2 by (now rewrite elem_of_catalog).
  split; [|split].
  - intros tz. destruct (close_match (strip token) catalog) as [tz0|] eqn:E.
    + split.
      * intros [= <-]. apply close_match_least in E as (Hin & Hc & Hleast).
        split; [assumption|]. split; [now apply contains_spec|].
        intros tz' Hin' Hsub. apply Hleast; [assumption | now apply contains_spec].
      * intros (Hin & Hc & Hleast). f_equal.
        assert (close_match (strip token) catalog = Some tz) as E'.
        { apply close_match_least. split; [assumption|].
          split; [now apply contains_spec|].
          intros tz' Hin' Hc'. apply Hleast; [assumption | now apply contains_spec]. }
        congruence.
    + split; [discriminate|]. intros (Hin & Hc & _).
      rewrite close_match_None in E. apply contains_spec in Hc.
      rewrite E in Hc; [discriminate | now apply elem_of_catalog].
  - destruct (close_match (strip token) catalog) as [tz0|] eqn:E.
    + split; [discriminate|]. intros H. exfalso.
      apply close_match_least in E as (Hin & Hc & _).
      apply (H tz0); [assumption | now apply contains_spec].
    + split; [|reflexivity]. intros _ tz Hin Hsub.
      rewrite close_match_None in E. apply contains_spec in Hsub.
      rewrite E in Hsub; [discriminate | now apply elem_of_catalog].
  - intros e. destruct (close_match (strip token) catalog); congruence.
Qed.

(** C3, amended: an ASCII key of the database without surrounding
    white space resolves to itself exactly when the abbreviation table
    has no entry for its upper-case form or maps that form to the key
    itself, as it does for [UTC]. *)
Theorem catalog_entry_resolves_to_itself (z : string) :
  z ∈ available_timezones ->
  isascii z = true ->
  strip z = z ->
  (resolve z = Ok z <->
   timezone_abbrevs !! upper z = None \/ timezone_abbrevs !! upper z = Some z).
Proof.
  intros Hin _ Hstrip. unfold normalize_timezone. rewrite Hstrip.
  destruct (timezone_abbrevs !! upper z) as [z'|] eqn:E.
  - split.
    + intros [= ->]. now right.
    + intros [H | [= ->]]; [discriminate | reflexivity].
  - rewrite bool_decide_eq_true_2 by (now apply elem_of_catalog).
    split; [now left | reflexivity].
Qed.

(** C10: an empty or white-space-only token does not fail: it resolves
    to the first entry of the sorted catalog, which is the least key of
    the database. *)
Theorem blank_token_resolves_to_first (token : string) (z0 : string) (rest : list string) :
  all_space token = true ->
  catalog = z0 :: rest ->
  resolve token = Ok z0 /\
  forall z : string, z ∈ available_timezones -> str_le z0 z.
Proof.
  intros Hblank Hcat. split.
  - unfold normalize_timezone. rewrite (strip_all_space _ Hblank).
    change (timezone_abbrevs !! upper "") with (@None string).
    case_bool_decide as Hin.
    + f_equal. symmetry. apply str_le_empty_inv.
      apply (catalog_head_least z0 rest ""); [assumption|].
      now apply elem_of_catalog.
    + rewrite Hcat. simpl. now rewrite contains_empty.
  - intros z. now apply (catalog_head_least z0 rest).
Qed.

End ResolverFacts.

(** ** The resolver on the sample database *)

(** Decide a closed proposition by evaluation. *)
Ltac decide_by_compute :=
  match goal with
  | |- ?P => apply (bool_decide_unpack P); vm_compute; exact I
  end.

Lemma abbreviation_takes_precedence_witness :
  "EST" ∈ sample_zones /\ normalize_timezone sample_zones "EST" = Ok "America/New_York".
Proof.
  split.
  - decide_by_compute.
  - apply abbreviation_takes_precedence. vm_compute. reflexivity.
Defined.

Lemma sample_zones_ascii (z : string) : z ∈ sample_zones -> isascii z = true.
Proof.
  unfold sample_zones. intros H. apply elem_of_list_to_set in H.
  repeat (apply elem_of_cons in H as [-> | H]; [reflexivity|]).
  now apply elem_of_nil in H.
Qed.

Lemma fuzzy_pass_first_match_witness :
  (normalize_timezone sample_zones "greenwich" = Ok "Etc/Greenwich" <->
   "Etc/Greenwich" ∈ sample_zones /\
   (exists pre post, lower "Etc/Greenwich" = pre +:+ lower (strip "greenwich") +:+ post) /\
   forall tz' : string, tz' ∈ sample_zones ->
     (exists pre post, lower tz' = pre +:+ lower (strip "greenwich") +:+ post) ->
     str_le "Etc/Greenwich" tz') /\
  (normalize_timezone sample_zones "Mars/Phobos"
     = Raise (ValueError ("Unknown timezone: " +:+ strip "Mars/Phobos")) <->
   forall tz : string, tz ∈ sample_zones ->
     ~ exists pre post, lower tz = pre +:+ lower (strip "Mars/Phobos") +:+ post).
Proof.
  split.
  - apply (fuzzy_pass_first_match sample_zones "greenwich").
    + reflexivity.
    + exact sample_zones_ascii.
    + vm_compute. reflexivity.
    + apply (bool_decide_eq_false_1 (strip "greenwich" ∈ sample_zones)).
      vm_compute. reflexivity.
  - apply (fuzzy_pass_first_match sample_zones "Mars/Phobos").
    + reflexivity.
    + exact sample_zones_ascii.
    + vm_compute. reflexivity.
    + apply (bool_decide_eq_false_1 (strip "Mars/Phobos" ∈ sample_zones)).
      vm_compute. reflexivity.
Defined.

(** C3 as stated fails: [EST] is a key of the database and of the
    abbreviation table, and resolves to the zone of the table. *)
Lemma catalog_entry_not_itself :
  "EST" ∈ all_timezones sample_zones /\
  normalize_timezone sample_zones "EST" = Ok "America/New_York" /\
  normalize_timezone sample_zones "EST" <> Ok "EST".
Proof.
  split; [|split].
  - decide_by_compute.
  - vm_compute. reflexivity.
  - vm_compute. discriminate.
Qed.

Lemma catalog_entry_resolves_to_itself_witness :
  normalize_timezone sample_zones "UTC" = Ok "UTC" <->
  timezone_abbrevs !! upper "UTC" = None \/ timezone_abbrevs !! upper "UTC" = Some "UTC".
Proof.
  apply (catalog_entry_resolves_to_itself sample_zones "UTC").
  - apply (bool_decide_unpack ("UTC" ∈ sample_zones)). vm_compute. exact I.
  - reflexivity.
  - vm_compute. reflexivity.
Defined.

Lemma blank_token_resolves_to_first_witness :
  normalize_timezone sample_zones "   " = Ok "Africa/Abidjan" /\
  forall z : string, z ∈ sample_zones -> str_le "Africa/Abidjan" z.
Proof.
  apply (blank_token_resolves_to_first sample_zones "   " "Africa/Abidjan"
           ["Asia/Kolkata"; "Asia/Tokyo"; "EST"; "Etc/GMT+5";
            "Etc/Greenwich"; "Greenwich"; "UTC"]).
  - vm_compute. reflexivity.
  - vm_compute. reflexivity.
Defined.

(** ** The conversion pipeline *)

Section MonadFacts.

Context {A B : Type}.

Lemma bind_Ok_inv (m : M A) (k : A -> M B) (w w' : nat) (b : B) :
  bind m k w = (Ok b, w') ->
  exists (a : A) (w1 : nat), m w = (Ok a, w1) /\ k a w1 = (Ok b, w').
Proof.
  unfold bind. destruct (m w) as [[a|e] w1]; [|discriminate].
  intros H. now exists a, w1.
Qed.

Lemma bind_Raise (m : M A) (k : A -> M B) (w w' : nat) (e : exn) :
  m w = (Raise e, w') -> bind m k w = (Raise e, w').
Proof. unfold bind. now intros ->. Qed.

Lemma bind_Ok (m : M A) (k : A -> M B) (w w' : nat) (a : A) :
  m w = (Ok a, w') -> bind m k w = k a w'.
Proof. unfold bind. now intros ->. Qed.

Lemma lift_inv (r : result A) (w w' : nat) (x : result A) :
  lift r w = (x, w') -> r = x /\ w' = w.
Proof. unfold lift. intros [= -> ->]. auto. Qed.

End MonadFacts.

Section ConverterFacts.

Variable available_timezones : gset string.
Variable zone_known : string -> bool.
Variable utcoffset : string -> naive -> bool -> Z.
Variable fromutc : string -> naive -> result aware.
Variable clock : nat -> Z.
Variable localtime : Z -> naive.

Local Abbreviation resolve := (normalize_timezone available_timezones).
Local Abbreviation parse := (parse_time_input zone_known fromutc clock localtime).
Local Abbreviation convert :=
  (convert_time available_timezones zone_known utcoffset fromutc clock localtime).

(** The two shapes of the dictionary that [convert_time] returns. *)
Definition success_dict (source_time target_time : aware) (source_tz target_tz : string)
  : gmap string pyval :=
  <["source_time" := PyDatetime source_time]>
  (<["target_time" := PyDatetime target_time]>
  (<["source_tz" := PyStr source_tz]>
  (<["target_tz" := PyStr target_tz]> ∅))).

Definition error_dict (msg : string) : gmap string pyval :=
  {["error" := PyStr msg]}.

Lemma success_dict_keys (s t : aware) (sz tz : string) :
  dom (success_dict s t sz tz)
  = ({["source_time"; "target_time"; "source_tz"; "target_tz"]} : gset string).
Proof. unfold success_dict. rewrite !dom_insert_L, dom_empty_L. set_solver. Qed.

Lemma error_dict_keys (msg : string) :
  dom (error_dict msg) = ({["error"]} : gset string).
Proof. unfold error_dict. apply dom_singleton_L. Qed.

(** The result of [convert_time] when it does not end in an error. *)
Lemma convert_time_success_inv (time_str from_tz to_tz : string) (w w' : nat)
    (d : gmap string pyval) :
  convert time_str from_tz to_tz w = (Ok d, w') ->
  (exists msg, d = error_dict msg) \/
  exists (source_tz target_tz : string) (source_time target_time : aware),
    resolve from_tz = Ok source_tz /\
    resolve to_tz = Ok target_tz /\
    parse time_str source_tz w = (Ok source_time, w') /\
    ZoneInfo zone_known target_tz = Ok target_tz /\
    astimezone utcoffset fromutc source_time target_tz = Ok target_time /\
    d = success_dict source_time target_time source_tz target_tz.
Proof.
  unfold convert_time, except_Exception.
  match goal with |- context [match ?b w with _ => _ end] => destruct (b w) as [[d0|e] w0] eqn:E end.
  - intros [= <- <-]. right.
    apply bind_Ok_inv in E as (source_tz & w1 & H1 & E).
    apply lift_inv in H1 as [H1 ->].
    apply bind_Ok_inv in E as (target_tz & w1 & H2 & E).
    apply lift_inv in H2 as [H2 ->].
    apply bind_Ok_inv in E as (source_time & w1 & H3 & E).
    apply bind_Ok_inv in E as (tz & w2 & H4 & E).
    apply lift_inv in H4 as [H4 ->].
    apply bind_Ok_inv in E as (target_time & w2 & H5 & E).
    apply lift_inv in H5 as [H5 ->].
    injection E as <- <-.
    assert (tz = target_tz) as ->.
    { unfold ZoneInfo in H4. destruct (zone_known target_tz); congruence. }
    exists source_tz, target_tz, source_time, target_time. repeat split; assumption.
  - unfold ret. intros [= <- <-]. left. now exists (str_exn e).
Qed.

(** C6: for every input and every state of the clock, [convert_time]
    returns a dictionary and raises nothing; the dictionary is either
    the success record, with exactly the keys [source_time],
    [target_time], [source_tz] and [target_tz], or the error record,
    with the key [error] alone and a message under it. *)
Theorem convert_time_two_variants (time_str from_tz to_tz : string) (w : nat) :
  exists (d : gmap string pyval) (w' : nat),
    convert time_str from_tz to_tz w = (Ok d, w') /\
    ((exists (source_time target_time : aware) (source_tz target_tz : string),
         d = success_dict source_time target_time source_tz target_tz /\
         dom d = {["source_time"; "target_time"; "source_tz"; "target_tz"]} /\
         d !! "error" = None)
     \/
     (exists msg : string,
         d = error_dict msg /\
         dom d = {["error"]} /\
         d !! "source_time" = None /\ d !! "target_time" = None /\
         d !! "source_tz" = None /\ d !! "target_tz" = None)).
Proof.
  destruct (convert time_str from_tz to_tz w) as [[d|e] w'] eqn:E.
  - exists d, w'. split; [reflexivity|].
    apply convert_time_success_inv in E as [[msg ->] | (sz & tz & s & t & _ & _ & _ & _ & _ & ->)].
    + right. exists msg. split; [reflexivity|]. split; [apply error_dict_keys|].
      unfold error_dict. repeat split; now apply lookup_singleton_ne.
    + left. exists s, t, sz, tz. split; [reflexivity|].
      split; [apply success_dict_keys|].
      unfold success_dict. now rewrite !lookup_insert_ne, lookup_empty.
  - exfalso. revert E. unfold convert_time, except_Exception.
    match goal with |- context [match ?b w with _ => _ end] => destruct (b w) as [[d0|e0] w0] end;
      unfold ret; discriminate.
Qed.

(** A failed resolution of either token ends the pipeline. *)
Lemma convert_time_resolution_failure (time_str from_tz to_tz : string) (w : nat) (e : exn) :
  resolve from_tz = Raise e \/
  (exists z, resolve from_tz = Ok z /\ resolve to_tz = Raise e) ->
  convert time_str from_tz to_tz w = (Ok (error_dict (str_exn e)), w).
Proof.
  intros [H | [z [H1 H2]]]; unfold convert_time, except_Exception, bind, lift, ret;
    [rewrite H | rewrite H1, H2]; reflexivity.
Qed.

(** C7: both tokens are resolved before the time expression is looked
    at.  When the source token fails to resolve, or resolves and the
    target token fails, [convert_time] returns the error record with
    the message of that failure, whatever the time expression is, and
    the clock has not been read. *)
Theorem resolution_failure_short_circuits
    (time_str from_tz to_tz : string) (w : nat) (e : exn) :
  resolve from_tz = Raise e \/
  (exists z, resolve from_tz = Ok z /\ resolve to_tz = Raise e) ->
  convert time_str from_tz to_tz w = (Ok (error_dict (str_exn e)), w) /\
  forall other : string,
    convert other from_tz to_tz w = convert time_str from_tz to_tz w.
Proof.
  intros H. split.
  - now apply convert_time_resolution_failure.
  - intros other. now rewrite !(convert_time_resolution_failure _ _ _ _ e H).
Qed.

(** On every database without a key that contains [mars/phobos], the
    conversion from [Mars/Phobos] reports the unknown zone for every
    time expression, parseable or not. *)
Lemma convert_from_unknown_zone (time_str : string) (w : nat) :
  (forall tz : string, tz ∈ available_timezones ->
     contains "mars/phobos" (lower tz) = false) ->
  convert time_str "Mars/Phobos" "UTC" w
  = (Ok (error_dict "Unknown timezone: Mars/Phobos"), w).
Proof.
  intros Hnone.
  apply (convert_time_resolution_failure time_str "Mars/Phobos" "UTC" w
           (ValueError "Unknown timezone: Mars/Phobos")).
  left. unfold normalize_timezone.
  change (strip "Mars/Phobos") with "Mars/Phobos".
  change (timezone_abbrevs !! upper "Mars/Phobos") with (@None string).
  assert (close_match "Mars/Phobos" (all_timezones available_timezones) = None) as Hcm.
  { apply close_match_None. intros tz Hin. apply Hnone. now apply elem_of_catalog. }
  case_bool_decide as Hin.
  - exfalso. apply elem_of_catalog in Hin. specialize (Hnone _ Hin).
    vm_compute in Hnone. discriminate.
  - now rewrite Hcm.
Qed.

End ConverterFacts.

Lemma resolution_failure_short_circuits_witness :
  sample_convert "3pm" "Mars/Phobos" "UTC" 0%nat
    = (Ok (error_dict "Unknown timezone: Mars/Phobos"), 0%nat) /\
  forall other : string,
    sample_convert other "Mars/Phobos" "UTC" 0%nat
    = sample_convert "3pm" "Mars/Phobos" "UTC" 0%nat.
Proof.
  apply (resolution_failure_short_circuits sample_zones sample_known sample_utcoffset
           sample_fromutc sample_clock sample_localtime
           "3pm" "Mars/Phobos" "UTC" 0%nat (ValueError "Unknown timezone: Mars/Phobos")).
  left. vm_compute. reflexivity.
Defined.

(** ** Regular expressions: the matcher decides membership *)

Section RegexFacts.

Lemma append_eq_nil (a b : string) : a +:+ b = "" -> a = "" /\ b = "".
Proof. destruct a; [intros H; now split | discriminate]. Qed.

Lemma append_eq_cons (a b : string) (c : ascii) (s : string) :
  a +:+ b = String c s ->
  (a = "" /\ b = String c s) \/ exists a', a = String c a' /\ s = a' +:+ b.
Proof.
  destruct a as [|x a].
  - intros H. left. now split.
  - rewrite append_cons. intros [= -> <-]. right. now exists a.
Qed.

Lemma Matches_Void (s : string) : ~ Matches Void s.
Proof. intros H. inversion H. Qed.

Lemma Matches_Eps (s : string) : Matches Eps s <-> s = "".
Proof. split; [intros H; now inversion H | intros ->; constructor]. Qed.

Lemma Matches_Class (p : ascii -> bool) (s : string) :
  Matches (Class p) s <-> exists c, s = String c "" /\ p c = true.
Proof.
  split.
  - intros H. inversion H; subst. eauto.
  - intros [c [-> H]]. now constructor.
Qed.

Lemma Matches_Cat (r1 r2 : regex) (s : string) :
  Matches (Cat r1 r2) s <->
  exists s1 s2, s = s1 +:+ s2 /\ Matches r1 s1 /\ Matches r2 s2.
Proof.
  split.
  - intros H. inversion H; subst. eauto.
  - intros (s1 & s2 & -> & H1 & H2). now constructor.
Qed.

Lemma Matches_Alt (r1 r2 : regex) (s : string) :
  Matches (Alt r1 r2) s <-> Matches r1 s \/ Matches r2 s.
Proof.
  split.
  - intros H. inversion H; subst; auto.
  - intros [H | H]; [now apply M_AltL | now apply M_AltR].
Qed.

(** A non-empty word of [r*] starts with a non-empty word of [r]. *)
Lemma Matches_Star_cons (r : regex) (c : ascii) (s : string) :
  Matches (Star r) (String c s) ->
  exists s1 s2, s = s1 +:+ s2 /\ Matches r (String c s1) /\ Matches (Star r) s2.
Proof.
  intros H. remember (Star r) as r' eqn:Er. remember (String c s) as t eqn:Et.
  revert s Et. induction H as [| | | | | |r0 s1 s2 H1 _ H2 IH2]; intros s0 Et;
    try discriminate.
  injection Er as ->.
  apply append_eq_cons in Et as [[-> ->] | (a' & -> & ->)].
  - now apply IH2.
  - now exists a', s2.
Qed.

Lemma nullable_spec (r : regex) : nullable r = true <-> Matches r "".
Proof.
  induction r as [| |p|r1 IH1 r2 IH2|r1 IH1 r2 IH2|r IH]; simpl.
  - split; [discriminate | intros H; inversion H].
  - split; [constructor | reflexivity].
  - split; [discriminate | intros H; inversion H].
  - rewrite andb_true_iff, IH1, IH2, Matches_Cat. split.
    + intros [H1 H2]. now exists "", "".
    + intros (s1 & s2 & E & H1 & H2). symmetry in E.
      apply append_eq_nil in E as [-> ->]. now split.
  - now rewrite orb_true_iff, IH1, IH2, Matches_Alt.
  - split; [constructor | reflexivity].
Qed.

Lemma deriv_spec (c : ascii) (r : regex) (s : string) :
  Matches (deriv c r) s <-> Matches r (String c s).
Proof.
  revert s. induction r as [| |p|r1 IH1 r2 IH2|r1 IH1 r2 IH2|r IH]; intros s; simpl.
  - split; intros H; inversion H.
  - split; intros H; inversion H.
  - rewrite Matches_Class. destruct (p c) eqn:E.
    + rewrite Matches_Eps. split.
      * intros ->. now exists c.
      * intros (c' & [= <- ->] & _). reflexivity.
    + split; [intros H; inversion H|]. intros (c' & [= <- ->] & H). congruence.
  - assert (Matches (Cat (deriv c r1) r2) s <->
            exists s1 s2, s = s1 +:+ s2 /\ Matches r1 (String c s1) /\ Matches r2 s2) as HC.
    { rewrite Matches_Cat. split; intros (s1 & s2 & E & H1 & H2);
        exists s1, s2; (split; [assumption|]); (split; [|assumption]); now apply IH1. }
    rewrite (Matches_Cat r1 r2 (String c s)).
    destruct (nullable r1) eqn:N.
    + rewrite Matches_Alt, HC, IH2. split.
      * intros [(s1 & s2 & -> & H1 & H2) | H].
        -- exists (String c s1), s2. now rewrite append_cons.
        -- exists "", (String c s). repeat split; [now apply nullable_spec | assumption].
      * intros (s1 & s2 & E & H1 & H2). symmetry in E.
        apply append_eq_cons in E as [[-> ->] | (a' & -> & ->)].
        -- now right.
        -- left. now exists a', s2.
    + rewrite HC. split.
      * intros (s1 & s2 & -> & H1 & H2). exists (String c s1), s2. now rewrite append_cons.
      * intros (s1 & s2 & E & H1 & H2). symmetry in E.
        apply append_eq_cons in E as [[-> ->] | (a' & -> & ->)].
        -- apply nullable_spec in H1. congruence.
        -- now exists a', s2.
  - now rewrite !Matches_Alt, IH1, IH2.
  - rewrite Matches_Cat. split.
    + intros (s1 & s2 & -> & H1 & H2). apply IH in H1.
      change (String c (s1 +:+ s2)) with (String c s1 +:+ s2). now constructor.
    + intros H. apply Matches_Star_cons in H as (s1 & s2 & -> & H1 & H2).
      exists s1, s2. repeat split; [now apply IH | assumption].
Qed.

Theorem fullmatch_spec (r : regex) (s : string) :
  fullmatch r s = true <-> Matches r s.
Proof.
  revert r. induction s as [|c s IH]; intros r; simpl.
  - apply nullable_spec.
  - now rewrite IH, deriv_spec.
Qed.

End RegexFacts.

(** ** The four patterns are pairwise disjoint *)

(** Facts about single characters, by enumeration. *)
Ltac ascii_cases c :=
  destruct c as [[] [] [] [] [] [] [] []]; vm_compute; intros; congruence.

Section PatternFacts.

Lemma digit_not_m (c : ascii) : isdigit c = true -> Strptime.ci "m" c = false.
Proof. ascii_cases c. Qed.
Lemma digit_not_colon (c : ascii) : isdigit c = true -> Strptime.ci ":" c = false.
Proof. ascii_cases c. Qed.
Lemma digit_not_dash (c : ascii) : isdigit c = true -> Strptime.ci "-" c = false.
Proof. ascii_cases c. Qed.
Lemma colon_not_dash (c : ascii) : Strptime.ci ":" c = true -> Strptime.ci "-" c = false.
Proof. ascii_cases c. Qed.
Lemma m_not_colon (c : ascii) : Strptime.ci "m" c = true -> Strptime.ci ":" c = false.
Proof. ascii_cases c. Qed.
Lemma ap_not_colon (c : ascii) :
  (Ascii.eqb (lower_char c) "a" || Ascii.eqb (lower_char c) "p")%bool = true ->
  Strptime.ci ":" c = false.
Proof. ascii_cases c. Qed.
Lemma space_not_newline_free (c : ascii) : isspace c = false -> Ascii.eqb c "010" = false.
Proof. ascii_cases c. Qed.

Lemma any_char_append (p : ascii -> bool) (a b : string) :
  any_char p (a +:+ b) = (any_char p a || any_char p b)%bool.
Proof.
  induction a as [|c a IH]; [reflexivity|].
  rewrite append_cons. simpl. now rewrite IH, orb_assoc.
Qed.

Lemma last_is_append (p : ascii -> bool) (a : string) (c : ascii) (b : string) :
  last_is p (a +:+ String c b) = last_is p (String c b).
Proof.
  induction a as [|x a IH]; [reflexivity|].
  rewrite append_cons. destruct a as [|y a]; [reflexivity|].
  rewrite append_cons in *. exact IH.
Qed.

(** Take a derivation of a pattern apart into its characters. *)
Ltac invert_matches :=
  repeat match goal with
  | H : Matches (Cat _ _) _ |- _ =>
      apply Matches_Cat in H as (? & ? & -> & ? & ?)
  | H : Matches (Alt _ _) _ |- _ => apply Matches_Alt in H as [? | ?]
  | H : Matches (Class _) _ |- _ => apply Matches_Class in H as (? & -> & ?)
  | H : Matches Eps _ |- _ => apply Matches_Eps in H as ->
  end.

Ltac flatten_append :=
  rewrite ?append_assoc; rewrite ?append_cons, ?append_nil_l, ?append_nil_r.

Local Abbreviation colon := (Strptime.ci ":").
Local Abbreviation dash := (Strptime.ci "-").
Local Abbreviation letter_m := (Strptime.ci "m").

Lemma hour_meridiem_shape (s : string) :
  Matches pattern_hour_meridiem s ->
  last_is letter_m s = true /\ any_char colon s = false.
Proof.
  unfold pattern_hour_meridiem, digit12, digit, ap, lit. intros H.
  invert_matches; flatten_append; simpl;
    repeat match goal with
    | H : isdigit _ = true |- _ => rewrite (digit_not_colon _ H); clear H
    | H : (_ || _)%bool = true |- _ => rewrite (ap_not_colon _ H); clear H
    | H : Ascii.eqb (lower_char ?x) (lower_char "m") = true |- _ =>
        change (letter_m x = true) in H; rewrite (m_not_colon _ H)
    end; auto.
Qed.

Lemma hour_minute_meridiem_shape (s : string) :
  Matches pattern_hour_minute_meridiem s ->
  last_is letter_m s = true /\ any_char colon s = true.
Proof.
  unfold pattern_hour_minute_meridiem, digit12, digit2, digit, ap, lit. intros H.
  invert_matches; flatten_append; simpl;
    repeat match goal with
    | H : Ascii.eqb (lower_char ?x) (lower_char ":") = true |- _ =>
        change (colon x = true) in H; rewrite H; clear H
    end; rewrite ?orb_true_r; simpl; (split; [assumption | reflexivity]).
Qed.

Lemma hour_minute_shape (s : string) :
  Matches pattern_hour_minute s ->
  last_is isdigit s = true /\ any_char colon s = true /\ any_char dash s = false.
Proof.
  unfold pattern_hour_minute, digit12, digit2, digit, lit. intros H.
  invert_matches; flatten_append; simpl;
    repeat match goal with
    | H : Ascii.eqb (lower_char ?x) (lower_char ":") = true |- _ =>
        change (colon x = true) in H; rewrite H, (colon_not_dash _ H); clear H
    | H : isdigit _ = true |- _ => rewrite ?(digit_not_dash _ H); rewrite ?H; clear H
    end; rewrite ?orb_true_r; simpl; auto.
Qed.

Lemma date_time_shape (s : string) :
  Matches pattern_date_time s ->
  last_is isdigit s = true /\ any_char dash s = true.
Proof.
  unfold pattern_date_time, digit12, digit4, digit2, digit, lit, plus. intros H.
  repeat match goal with
  | H : Matches (Cat (Class _) (Star _)) _ |- _ => fail 1
  | H : Matches (Cat _ _) _ |- _ =>
      apply Matches_Cat in H as (? & ? & -> & ? & ?)
  | H : Matches (Alt _ _) _ |- _ => apply Matches_Alt in H as [? | ?]
  | H : Matches (Class _) _ |- _ => apply Matches_Class in H as (? & -> & ?)
  | H : Matches Eps _ |- _ => apply Matches_Eps in H as ->
  end.
  all: split.
  all: try (rewrite <- ?append_assoc; rewrite last_is_append; simpl; assumption).
  all: flatten_append; simpl;
    repeat match goal with
    | H : Ascii.eqb (lower_char ?x) (lower_char "-") = true |- _ =>
        change (dash x = true) in H; rewrite H; clear H
    end; rewrite ?orb_true_r; reflexivity.
Qed.

End PatternFacts.

(** ** The loop over the patterns *)

Section LoopFacts.

Lemma chop_newline_rstrip (s : string) : chop_newline (rstrip s) = None.
Proof.
  induction s as [|c s IH]; [reflexivity|]. simpl.
  destruct (rstrip s) as [|a r] eqn:E.
  - destruct (isspace c) eqn:Hc; [reflexivity|]. simpl.
    now rewrite (space_not_newline_free _ Hc).
  - change (chop_newline (String c (String a r)))
      with (option_map (String c) (chop_newline (String a r))).
    now rewrite IH.
Qed.

(** On a trimmed string [$] can only match at the end. *)
Lemma re_match_strip (r : regex) (s : string) :
  re_match r (strip s) = fullmatch r (strip s).
Proof.
  unfold re_match, strip. rewrite chop_newline_rstrip. apply orb_false_r.
Qed.

Lemma last_is_two_classes (p q : ascii -> bool) (s : string) :
  (forall c, p c = true -> q c = false) ->
  last_is p s = true -> last_is q s = false.
Proof.
  intros Hpq. induction s as [|c s IH]; [discriminate|].
  destruct s as [|d s]; simpl; [apply Hpq | exact IH].
Qed.

Lemma m_not_digit (c : ascii) : Strptime.ci "m" c = true -> isdigit c = false.
Proof. destruct (isdigit c) eqn:E; [|reflexivity]. rewrite (digit_not_m _ E). discriminate. Qed.

(** The shape of a string, as far as the patterns tell strings apart. *)
Lemma pattern_shapes (s : string) :
  (fullmatch pattern_hour_meridiem s = true ->
     last_is isdigit s = false /\ any_char (Strptime.ci ":") s = false) /\
  (fullmatch pattern_hour_minute_meridiem s = true ->
     last_is isdigit s = false /\ any_char (Strptime.ci ":") s = true) /\
  (fullmatch pattern_hour_minute s = true ->
     last_is isdigit s = true /\ any_char (Strptime.ci "-") s = false) /\
  (fullmatch pattern_date_time s = true ->
     last_is isdigit s = true /\ any_char (Strptime.ci "-") s = true).
Proof.
  split; [|split; [|split]]; intros H; apply fullmatch_spec in H.
  - apply hour_meridiem_shape in H as [Hm Hc]. split; [|assumption].
    revert Hm. apply last_is_two_classes, m_not_digit.
  - apply hour_minute_meridiem_shape in H as [Hm Hc]. split; [|assumption].
    revert Hm. apply last_is_two_classes, m_not_digit.
  - apply hour_minute_shape in H as (Hd & _ & Hn). now split.
  - now apply date_time_shape in H.
Qed.

(** A string matches at most one of the four patterns. *)
Lemma patterns_disjoint (s : string) :
  match fullmatch pattern_hour_meridiem s, fullmatch pattern_hour_minute_meridiem s,
        fullmatch pattern_hour_minute s, fullmatch pattern_date_time s with
  | true, false, false, false
  | false, true, false, false
  | false, false, true, false
  | false, false, false, true
  | false, false, false, false => True
  | _, _, _, _ => False
  end.
Proof.
  destruct (pattern_shapes s) as (Ha & Hb & Hc & Hd).
  destruct (fullmatch pattern_hour_meridiem s);
    destruct (fullmatch pattern_hour_minute_meridiem s);
    destruct (fullmatch pattern_hour_minute s);
    destruct (fullmatch pattern_date_time s); try exact I;
    repeat match goal with
    | H : true = true -> _ |- _ => specialize (H eq_refl); destruct H
    | H : false = true -> _ |- _ => clear H
    end; congruence.
Qed.

(** [now] matches none of the patterns. *)
Lemma now_shape (s : string) :
  String.eqb (lower s) "now" = true ->
  last_is isdigit s = false /\ last_is (Strptime.ci "m") s = false.
Proof.
  intros H. apply String.eqb_eq in H.
  destruct s as [|a [|b [|c [|d s]]]]; try discriminate.
  injection H as _ _ H. simpl. split; revert H; ascii_cases c.
Qed.

End LoopFacts.

(** ** Parsing *)

Section ParseFacts.

Variable zone_known : string -> bool.
Variable fromutc : string -> naive -> result aware.
Variable clock : nat -> Z.
Variable localtime : Z -> naive.

Local Abbreviation parse := (parse_time_input zone_known fromutc clock localtime).
Local Abbreviation attempt := (parse_with zone_known clock localtime).
Local Abbreviation loop := (try_patterns zone_known clock localtime).

Definition unparseable (time_str : string) : exn :=
  ValueError ("Could not parse time: " +:+ time_str).

(** By disjointness the loop makes at most one attempt; when it fails
    with a [ValueError] the remaining patterns are tried and none
    matches. *)
Lemma try_patterns_spec (s source_tz : string) (w : nat) :
  chop_newline s = None ->
  loop patterns s source_tz w =
  match matching_format s with
  | Some fmt => except_ValueError (attempt s fmt source_tz) (raise (unparseable s)) w
  | None => raise (unparseable s) w
  end.
Proof.
  intros Hs. pose proof (patterns_disjoint s) as HD.
  unfold matching_format, patterns. simpl. unfold re_match. rewrite Hs, !orb_false_r.
  destruct (fullmatch pattern_hour_meridiem s);
    destruct (fullmatch pattern_hour_minute_meridiem s);
    destruct (fullmatch pattern_hour_minute s);
    destruct (fullmatch pattern_date_time s); try contradiction; reflexivity.
Qed.

Lemma matching_format_unique (s : string) (pattern : regex) (fmt : string) :
  chop_newline s = None ->
  (pattern, fmt) ∈ patterns ->
  re_match pattern s = true ->
  matching_format s = Some fmt.
Proof.
  intros Hs Hin Hm. pose proof (patterns_disjoint s) as HD.
  unfold re_match in Hm. rewrite Hs, orb_false_r in Hm.
  unfold matching_format, patterns. simpl. unfold re_match. rewrite Hs, !orb_false_r.
  unfold patterns in Hin.
  repeat (apply elem_of_cons in Hin as [[= -> ->] | Hin]);
    [..|now apply elem_of_nil in Hin];
    rewrite Hm in *;
    destruct (fullmatch pattern_hour_meridiem s);
    destruct (fullmatch pattern_hour_minute_meridiem s);
    destruct (fullmatch pattern_hour_minute s);
    destruct (fullmatch pattern_date_time s); try contradiction; try discriminate;
    reflexivity.
Qed.

Lemma matching_format_cases (s fmt : string) :
  matching_format s = Some fmt ->
  fmt = "%I%p" \/ fmt = "%I:%M%p" \/ fmt = "%H:%M" \/ fmt = "%Y-%m-%d %H:%M".
Proof.
  unfold matching_format, patterns. simpl.
  repeat match goal with
  | |- context [if ?b then _ else _] => destruct b
  end; intros [= <-]; auto.
Qed.

(** A string that matches a pattern is not [now]. *)
Lemma matching_not_now (s fmt : string) :
  chop_newline s = None ->
  matching_format s = Some fmt ->
  String.eqb (lower s) "now" = false.
Proof.
  intros Hs Hm. destruct (String.eqb (lower s) "now") eqn:E; [|reflexivity].
  apply now_shape in E as [Hd Hl]. exfalso.
  destruct (pattern_shapes s) as (Ha & Hb & Hc & Hdt).
  revert Hm. unfold matching_format, patterns. simpl. unfold re_match.
  rewrite Hs, !orb_false_r.
  destruct (fullmatch pattern_hour_meridiem s) eqn:E1.
  { apply fullmatch_spec, hour_meridiem_shape in E1 as [E1 _]. congruence. }
  destruct (fullmatch pattern_hour_minute_meridiem s) eqn:E2.
  { apply fullmatch_spec, hour_minute_meridiem_shape in E2 as [E2 _]. congruence. }
  destruct (fullmatch pattern_hour_minute s).
  { destruct (Hc eq_refl). congruence. }
  destruct (fullmatch pattern_date_time s).
  { destruct (Hdt eq_refl). congruence. }
  discriminate.
Qed.

Lemma chop_newline_strip (s : string) : chop_newline (strip s) = None.
Proof. apply chop_newline_rstrip. Qed.

(** [parse_time_input] on an expression that matches a pattern. *)
Lemma parse_matching (time_str source_tz fmt : string) (w : nat) :
  matching_format (strip time_str) = Some fmt ->
  parse time_str source_tz w =
  except_ValueError (attempt (strip time_str) fmt source_tz)
                    (raise (unparseable (strip time_str))) w.
Proof.
  intros Hm. unfold parse_time_input.
  rewrite (matching_not_now _ _ (chop_newline_strip _) Hm).
  rewrite try_patterns_spec by apply chop_newline_strip. now rewrite Hm.
Qed.

(** An attempt whose call of [strptime] raises [ValueError] raises it. *)
Lemma attempt_strptime_fails (s fmt source_tz msg : string) (w : nat) :
  strptime (strptime_input s fmt) fmt = Raise (ValueError msg) ->
  exists w', attempt s fmt source_tz w = (Raise (ValueError msg), w').
Proof.
  unfold parse_with, strptime_input.
  destruct (contains "Y" fmt); intros H.
  - exists w. unfold bind, lift. now rewrite H.
  - exists (S w). unfold bind, lift, now_local, read_clock, ret. now rewrite H.
Qed.

Lemma datetime_Ok_inv (y m d h mi sec us : Z) (dt : naive) :
  datetime y m d h mi sec us = Ok dt ->
  dt = mk_naive y m d h mi sec us /\ valid_date y m d = true /\
  valid_time h mi sec us = true.
Proof.
  unfold datetime. destruct (valid_date y m d); [|discriminate].
  destruct (valid_time h mi sec us); [|discriminate]. simpl.
  intros [= <-]. auto.
Qed.

Lemma ZoneInfo_Ok_inv (key tz : string) :
  ZoneInfo zone_known key = Ok tz -> tz = key /\ zone_known key = true.
Proof. unfold ZoneInfo. destruct (zone_known key); [|discriminate]. intros [= <-]. auto. Qed.

(** A successful attempt under a format without a year: one reading of
    the clock, the date of the local time at that reading, the time
    that [strptime] read from the upper-cased expression. *)
Lemma attempt_time_only_inv (s fmt source_tz : string) (w w' : nat) (dt : aware) :
  contains "Y" fmt = false ->
  attempt s fmt source_tz w = (Ok dt, w') ->
  exists t : naive,
    strptime (upper s) fmt = Ok t /\
    let today := localtime (clock w) in
    dt = mk_aware (mk_naive (year today) (month today) (day today)
                            (hour t) (minute t) (second t) (microsecond t))
                  false source_tz /\
    w' = S w /\ zone_known source_tz = true /\
    valid_date (year today) (month today) (day today) = true.
Proof.
  intros HY. unfold parse_with. rewrite HY. intros H.
  apply bind_Ok_inv in H as (today & w1 & H0 & H).
  unfold now_local, bind, read_clock, ret in H0. injection H0 as <- <-.
  apply bind_Ok_inv in H as (t & w1 & H1 & H). apply lift_inv in H1 as [H1 ->].
  apply bind_Ok_inv in H as (t' & w1 & H2 & H). apply lift_inv in H2 as [H2 ->].
  apply bind_Ok_inv in H as (tz & w1 & H3 & H). apply lift_inv in H3 as [H3 ->].
  injection H as <- <-.
  apply datetime_Ok_inv in H2 as (-> & Hv & _).
  apply ZoneInfo_Ok_inv in H3 as [-> Hk].
  exists t. repeat split; assumption.
Qed.

(** A successful attempt under the format with a year: no reading of
    the clock, date and time as [strptime] read them. *)
Lemma attempt_full_inv (s fmt source_tz : string) (w w' : nat) (dt : aware) :
  contains "Y" fmt = true ->
  attempt s fmt source_tz w = (Ok dt, w') ->
  exists t : naive,
    strptime s fmt = Ok t /\ dt = mk_aware t false source_tz /\
    w' = w /\ zone_known source_tz = true.
Proof.
  intros HY. unfold parse_with. rewrite HY. intros H.
  apply bind_Ok_inv in H as (t & w1 & H1 & H). apply lift_inv in H1 as [H1 ->].
  apply bind_Ok_inv in H as (tz & w1 & H3 & H). apply lift_inv in H3 as [H3 ->].
  injection H as <- <-.
  apply ZoneInfo_Ok_inv in H3 as [-> Hk].
  exists t. repeat split; assumption.
Qed.

(** A parse that succeeds on a matching expression is the attempt under
    the format of its pattern. *)
Lemma parse_matching_Ok (time_str source_tz fmt : string) (w w' : nat) (dt : aware) :
  matching_format (strip time_str) = Some fmt ->
  parse time_str source_tz w = (Ok dt, w') ->
  attempt (strip time_str) fmt source_tz w = (Ok dt, w').
Proof.
  intros Hm. rewrite (parse_matching _ _ _ _ Hm). unfold except_ValueError, raise.
  destruct (attempt (strip time_str) fmt source_tz w) as [[a|[m|m|m]] w1];
    intros H; try discriminate; assumption.
Qed.

End ParseFacts.

(** ** Parsing and conversion: the claims *)

Section ConversionTheorems.

Variable available_timezones : gset string.
Variable zone_known : string -> bool.
Variable utcoffset : string -> naive -> bool -> Z.
Variable fromutc : string -> naive -> result aware.
Variable clock : nat -> Z.
Variable localtime : Z -> naive.

Local Abbreviation parse := (parse_time_input zone_known fromutc clock localtime).
Local Abbreviation attempt := (parse_with zone_known clock localtime).
Local Abbreviation convert :=
  (convert_time available_timezones zone_known utcoffset fromutc clock localtime).

(** A matching expression that [strptime] rejects fails the call. *)
Lemma parse_fails_when_strptime_fails
    (time_str source_tz : string) (w : nat) (pattern : regex) (fmt msg : string) :
  (pattern, fmt) ∈ patterns ->
  re_match pattern (strip time_str) = true ->
  strptime (strptime_input (strip time_str) fmt) fmt = Raise (ValueError msg) ->
  fst (parse time_str source_tz w) = Raise (unparseable (strip time_str)).
Proof.
  intros Hin Hm Hfail.
  pose proof (matching_format_unique _ _ _ (chop_newline_strip _) Hin Hm) as Hfmt.
  rewrite (parse_matching zone_known fromutc clock localtime _ source_tz _ w Hfmt).
  destruct (attempt_strptime_fails zone_known clock localtime
              (strip time_str) fmt source_tz msg w Hfail) as [w' Hw'].
  unfold except_ValueError. now rewrite Hw'.
Qed.

Definition raises_ValueError {A : Type} (r : result A) : bool :=
  match r with
  | Raise (ValueError _) => true
  | _ => false
  end.

Lemma raises_ValueError_inv {A : Type} (r : result A) :
  raises_ValueError r = true -> exists msg, r = Raise (ValueError msg).
Proof. destruct r as [a|[m|m|m]]; try discriminate. intros _. now exists m. Qed.

Lemma isdigit_inv (c : ascii) :
  isdigit c = true ->
  c = "0"%char \/ c = "1"%char \/ c = "2"%char \/ c = "3"%char \/ c = "4"%char \/
  c = "5"%char \/ c = "6"%char \/ c = "7"%char \/ c = "8"%char \/ c = "9"%char.
Proof.
  destruct c as [[] [] [] [] [] [] [] []]; vm_compute; intros H;
    try discriminate; tauto.
Qed.

Lemma digit_not_space (c : ascii) : isdigit c = true -> isspace c = false.
Proof. ascii_cases c. Qed.

Lemma rstrip_id (s : string) :
  last_is (fun c => negb (isspace c)) s = true -> rstrip s = s.
Proof.
  induction s as [|c s IH]; [discriminate|].
  destruct s as [|d s].
  - simpl. intros H. apply negb_true_iff in H. now rewrite H.
  - intros H. change (last_is (fun c => negb (isspace c)) (String d s) = true) in H.
    change (rstrip (String c (String d s)))
      with (match rstrip (String d s) with
            | EmptyString => if isspace c then EmptyString else String c EmptyString
            | r' => String c r'
            end).
    now rewrite (IH H).
Qed.

(** A well-shaped 24-hour expression is its own trimmed form and
    matches the third pattern. *)
Lemma hour_minute_text (h1 h2 m1 m2 : ascii) :
  isdigit h1 = true -> isdigit h2 = true ->
  isdigit m1 = true -> isdigit m2 = true ->
  let s := String h1 (String h2 (String ":" (String m1 (String m2 "")))) in
  strip s = s /\ re_match pattern_hour_minute s = true.
Proof.
  intros H1 H2 H3 H4 s. split.
  - unfold strip. subst s. simpl lstrip. rewrite (digit_not_space _ H1).
    apply rstrip_id. simpl. now rewrite (digit_not_space _ H4).
  - unfold re_match. apply orb_true_iff. left. apply fullmatch_spec.
    subst s. unfold pattern_hour_minute, digit12, digit2, digit, lit.
    change (String h1 (String h2 (String ":" (String m1 (String m2 "")))))
      with ((String h1 "" +:+ String h2 "") +:+
            (String ":" "" +:+ (String m1 "" +:+ String m2 ""))).
    repeat first [apply M_Cat | apply M_AltL | apply M_Class]; auto.
Qed.

(** An hour above 23 in the 24-hour form: [strptime] finds no match,
    and the whole call fails. *)
Lemma hour_over_23_fails (h1 h2 m1 m2 : ascii) (source_tz : string) (w : nat) :
  isdigit h1 = true -> isdigit h2 = true ->
  isdigit m1 = true -> isdigit m2 = true ->
  24 <= 10 * digit_value h1 + digit_value h2 ->
  let s := String h1 (String h2 (String ":" (String m1 (String m2 "")))) in
  fst (parse s source_tz w) = Raise (unparseable s).
Proof.
  intros H1 H2 H3 H4 Hh s.
  destruct (hour_minute_text h1 h2 m1 m2 H1 H2 H3 H4) as [Hs Hm]. fold s in Hs, Hm.
  assert (exists msg, strptime (strptime_input s "%H:%M") "%H:%M" = Raise (ValueError msg))
    as [msg Hfail].
  { subst s. clear Hs Hm.
    apply isdigit_inv in H1, H2.
    repeat match goal with H : _ \/ _ |- _ => destruct H end; subst;
      try (exfalso; vm_compute in Hh; now apply Hh);
      apply raises_ValueError_inv; vm_compute; reflexivity. }
  rewrite <- Hs at 2.
  apply (parse_fails_when_strptime_fails _ _ _ pattern_hour_minute "%H:%M" msg).
  - unfold patterns. set_solver.
  - now rewrite Hs.
  - now rewrite Hs.
Qed.

(** C4: when the trimmed expression has the shape of one of the four
    patterns and [strptime] rejects its fields under the format of that
    pattern, the whole call raises the could-not-parse error: no other
    pattern takes the expression over.  In particular the conversion of
    [25:00] from [UTC] to [UTC] returns that error, on every machine. *)
Theorem shape_match_out_of_range_fails
    (time_str source_tz : string) (w : nat) (pattern : regex) (fmt msg : string) :
  (pattern, fmt) ∈ patterns ->
  re_match pattern (strip time_str) = true ->
  strptime (strptime_input (strip time_str) fmt) fmt = Raise (ValueError msg) ->
  fst (parse time_str source_tz w) = Raise (unparseable (strip time_str)) /\
  convert "25:00" "UTC" "UTC" w
  = (Ok (error_dict "Could not parse time: 25:00"), S w).
Proof.
  intros Hin Hm Hfail. split.
  - now apply (parse_fails_when_strptime_fails _ _ _ pattern fmt msg).
  - vm_compute. reflexivity.
Qed.

(** C8: a successful parse of a time-only expression (any of the three
    formats without a year) carries the year, month and day of the
    local time of the machine at the one reading of the clock that the
    call takes, whatever the source zone is, and the time read from the
    expression; a successful parse of the full form carries the date
    and the time read from the expression and takes no reading of the
    clock. *)
Theorem parsed_date_origin
    (time_str source_tz : string) (w w' : nat) (pattern : regex) (fmt : string)
    (dt : aware) :
  (pattern, fmt) ∈ patterns ->
  re_match pattern (strip time_str) = true ->
  parse time_str source_tz w = (Ok dt, w') ->
  tzinfo dt = source_tz /\
  (fmt <> "%Y-%m-%d %H:%M" ->
     date (wall dt) = date (localtime (clock w)) /\ w' = S w /\
     exists t : naive,
       strptime (upper (strip time_str)) fmt = Ok t /\
       hour (wall dt) = hour t /\ minute (wall dt) = minute t) /\
  (fmt = "%Y-%m-%d %H:%M" ->
     strptime (strip time_str) fmt = Ok (wall dt) /\ w' = w).
Proof.
  intros Hin Hm Hp.
  pose proof (matching_format_unique _ _ _ (chop_newline_strip _) Hin Hm) as Hfmt.
  apply (parse_matching_Ok zone_known fromutc clock localtime _ _ _ _ _ _ Hfmt) in Hp.
  destruct (matching_format_cases _ _ Hfmt) as [-> | [-> | [-> | ->]]].
  1-3: apply attempt_time_only_inv in Hp as (t & Ht & -> & -> & _ & _);
       [|reflexivity]; split; [reflexivity|]; split; [|intros [=]];
       intros _; split; [reflexivity|]; split; [reflexivity|];
       exists t; auto.
  apply attempt_full_inv in Hp as (t & Ht & -> & -> & _); [|reflexivity].
  split; [reflexivity|]. split; [intros H; now destruct H|]. intros _. now split.
Qed.

(** C9, amended: for an ASCII expression other than [now], the result
    of a parse depends on the clock only through the local calendar
    date, and only for the time-only forms: two calls with the same
    expression and source zone return the same result when the
    expression is of the full form or matches no pattern, and also when
    it is time-only and the local date is the same at both readings of
    the clock. *)
Theorem parse_deterministic_up_to_local_date
    (time_str source_tz : string) (w1 w2 : nat) :
  isascii time_str = true ->
  String.eqb (lower (strip time_str)) "now" = false ->
  (time_only (strip time_str) = true ->
   date (localtime (clock w1)) = date (localtime (clock w2))) ->
  fst (parse time_str source_tz w1) = fst (parse time_str source_tz w2).
Proof.
  intros _ Hnow Hdate. unfold parse_time_input. rewrite Hnow.
  rewrite !try_patterns_spec by apply chop_newline_strip.
  unfold time_only in Hdate.
  destruct (matching_format (strip time_str)) as [fmt|]; [|reflexivity].
  assert (fst (attempt (strip time_str) fmt source_tz w1)
          = fst (attempt (strip time_str) fmt source_tz w2)) as Hfst.
  { unfold parse_with. destruct (contains "Y" fmt).
    - unfold bind, lift, ret.
      destruct (strptime (strip time_str) fmt); [|reflexivity].
      destruct (ZoneInfo zone_known source_tz); reflexivity.
    - specialize (Hdate eq_refl). unfold date in Hdate.
      injection Hdate as Hy Hm Hd.
      unfold now_local, read_clock, bind, lift, ret. rewrite Hy, Hm, Hd.
      destruct (strptime (upper (strip time_str)) fmt); [|reflexivity].
      destruct (replace_date _ _ _ _); [|reflexivity].
      destruct (ZoneInfo zone_known source_tz); reflexivity. }
  unfold except_ValueError, raise.
  destruct (attempt (strip time_str) fmt source_tz w1) as [[a1|[m1|m1|m1]] u1];
    destruct (attempt (strip time_str) fmt source_tz w2) as [[a2|[m2|m2|m2]] u2];
    simpl in *; congruence.
Qed.

End ConversionTheorems.

Lemma shape_match_out_of_range_fails_witness :
  fst (sample_parse " 25:00 " "UTC" 0%nat) = Raise (unparseable (strip " 25:00 ")) /\
  sample_convert "25:00" "UTC" "UTC" 0%nat
  = (Ok (error_dict "Could not parse time: 25:00"), 1%nat).
Proof.
  apply (shape_match_out_of_range_fails sample_zones sample_known sample_utcoffset
           sample_fromutc sample_clock sample_localtime " 25:00 " "UTC" 0%nat
           pattern_hour_minute "%H:%M"
           "time data '25:00' does not match format '%H:%M'").
  - unfold patterns. set_solver.
  - vm_compute. reflexivity.
  - vm_compute. reflexivity.
Defined.

Lemma parsed_date_origin_witness :
  let dt := mk_aware (mk_naive 2024 3 9 15 0 0 0) false "Asia/Tokyo" in
  tzinfo dt = "Asia/Tokyo" /\
  ("%I%p" <> "%Y-%m-%d %H:%M" ->
     date (wall dt) = date (sample_localtime (sample_clock 0)) /\ 1%nat = 1%nat /\
     exists t : naive,
       strptime (upper (strip "3pm")) "%I%p" = Ok t /\
       hour (wall dt) = hour t /\ minute (wall dt) = minute t) /\
  ("%I%p" = "%Y-%m-%d %H:%M" ->
     strptime (strip "3pm") "%I%p" = Ok (wall dt) /\ 1%nat = 0%nat).
Proof.
  apply (parsed_date_origin sample_known sample_fromutc sample_clock sample_localtime
           "3pm" "Asia/Tokyo" 0%nat 1%nat pattern_hour_meridiem "%I%p").
  - unfold patterns. set_solver.
  - vm_compute. reflexivity.
  - vm_compute. reflexivity.
Defined.

(** C9 as stated fails: [3pm] is not [now], and two calls with it and
    the same source zone, one before and one after local midnight,
    return different datetimes. *)
Lemma same_expression_different_instants :
  isascii "3pm" = true /\
  String.eqb (lower (strip "3pm")) "now" = false /\
  re_match pattern_hour_meridiem (strip "3pm") = true /\
  sample_parse "3pm" "UTC" 0%nat
    = (Ok (mk_aware (mk_naive 2024 3 9 15 0 0 0) false "UTC"), 1%nat) /\
  sample_parse "3pm" "UTC" 1%nat
    = (Ok (mk_aware (mk_naive 2024 3 10 15 0 0 0) false "UTC"), 2%nat) /\
  instant sample_utcoffset (mk_aware (mk_naive 2024 3 9 15 0 0 0) false "UTC")
    <> instant sample_utcoffset (mk_aware (mk_naive 2024 3 10 15 0 0 0) false "UTC") /\
  fst (sample_parse "3pm" "UTC" 0%nat) <> fst (sample_parse "3pm" "UTC" 1%nat).
Proof.
  repeat split; try (vm_compute; reflexivity); vm_compute; discriminate.
Qed.

Lemma parse_deterministic_up_to_local_date_witness :
  sample_clock 1 <> sample_clock 2 /\
  fst (sample_parse "3:30pm" "Asia/Tokyo" 1%nat)
  = fst (sample_parse "3:30pm" "Asia/Tokyo" 2%nat).
Proof.
  split; [vm_compute; discriminate|].
  apply (parse_deterministic_up_to_local_date sample_known sample_fromutc
           sample_clock sample_localtime).
  - reflexivity.
  - vm_compute. reflexivity.
  - intros _. vm_compute. reflexivity.
Defined.

(** The full form does not look at the clock at all. *)
Example full_form_ignores_clock :
  fst (sample_parse "2024-01-15 15:00" "Asia/Tokyo" 0%nat)
  = fst (sample_parse "2024-01-15 15:00" "Asia/Tokyo" 1%nat).
Proof. vm_compute. reflexivity. Qed.

(** ** The calendar: [_ord2ymd] inverts [_ymd2ord] *)

Section CalendarFacts.

Definition ymd2ord3 (t : Z * Z * Z) : Z :=
  let '(y, m, d) := t in ymd2ord y m d.

(** The month and the day of the month of the day [n] of a year, from 0. *)
Definition month_day (n : Z) (leapyear : bool) : Z * Z :=
  let m := Z.shiftr (n + 50) 5 in
  let preceding := DAYS_BEFORE_MONTH m + (if (2 <? m) && leapyear then 1 else 0) in
  if n <? preceding then
    let m' := m - 1 in
    let preceding' :=
      preceding - (DAYS_IN_MONTH m' + (if (m' =? 2) && leapyear then 1 else 0)) in
    (m', n - preceding' + 1)
  else (m, n - preceding + 1).

(** [test] holds at [r], [r + 1], ..., [r + fuel - 1]. *)
Fixpoint holds_from (test : Z -> bool) (fuel : nat) (r : Z) : bool :=
  match fuel with
  | O => true
  | S k => (test r && holds_from test k (r + 1))%bool
  end.

Lemma holds_from_spec (test : Z -> bool) (fuel : nat) (r0 r : Z) :
  holds_from test fuel r0 = true ->
  r0 <= r < r0 + Z.of_nat fuel -> test r = true.
Proof.
  revert r0. induction fuel as [|k IH]; intros r0; simpl; [lia|].
  intros [H0 H1]%andb_true_iff Hr.
  destruct (Z.eq_dec r r0) as [-> | Hne]; [assumption|].
  apply (IH (r0 + 1)); [assumption | lia].
Qed.

Definition month_day_ok (leapyear : bool) (n : Z) : bool :=
  let '(m, d) := month_day n leapyear in
  (DAYS_BEFORE_MONTH m + (if (2 <? m) && leapyear then 1 else 0) + d =? n + 1).

(** Every day of a common year and of a leap year, by evaluation. *)
Lemma month_day_check :
  holds_from (month_day_ok false) 365 0 = true /\
  holds_from (month_day_ok true) 366 0 = true.
Proof. split; vm_compute; reflexivity. Qed.

Lemma month_day_spec (n : Z) (leapyear : bool) :
  0 <= n < 365 + (if leapyear then 1 else 0) ->
  let '(m, d) := month_day n leapyear in
  DAYS_BEFORE_MONTH m + (if (2 <? m) && leapyear then 1 else 0) + d = n + 1.
Proof.
  intros Hn. pose proof month_day_check as [Hf Ht].
  destruct leapyear.
  - pose proof (holds_from_spec _ _ 0 n Ht ltac:(lia)) as H.
    unfold month_day_ok in H. destruct (month_day n true). now apply Z.eqb_eq.
  - pose proof (holds_from_spec _ _ 0 n Hf ltac:(lia)) as H.
    unfold month_day_ok in H. destruct (month_day n false). now apply Z.eqb_eq.
Qed.

(** [ord2ymd] with the month and day set apart. *)
Lemma ord2ymd_unfold (ordinal : Z) :
  ord2ymd ordinal =
  let n := ordinal - 1 in
  let n400 := n / DI400Y in
  let n := n mod DI400Y in
  let n100 := n / DI100Y in
  let n := n mod DI100Y in
  let n4 := n / DI4Y in
  let n := n mod DI4Y in
  let n1 := n / 365 in
  let n := n mod 365 in
  let y := n400 * 400 + 1 + n100 * 100 + n4 * 4 + n1 in
  if (n1 =? 4) || (n100 =? 4) then (y - 1, 12, 31)
  else
    let leapyear := (n1 =? 3) && (negb (n4 =? 24) || (n100 =? 3)) in
    let '(m, d) := month_day n leapyear in (y, m, d).
Proof.
  unfold ord2ymd, month_day. cbv zeta.
  repeat match goal with
  | |- context [if ?b then _ else _] => destruct b
  end; reflexivity.
Qed.

(** [_ord2ymd] followed by [_ymd2ord] gives the ordinal back. *)
Lemma ord2ymd_roundtrip (n : Z) : ymd2ord3 (ord2ymd n) = n.
Proof.
  rewrite ord2ymd_unfold. cbv zeta. unfold DI400Y, DI100Y, DI4Y.
  set (n0 := n - 1).
  set (n400 := n0 / 146097). set (r1 := n0 mod 146097).
  set (n100 := r1 / 36524). set (r2 := r1 mod 36524).
  set (n4 := r2 / 1461). set (r3 := r2 mod 1461).
  set (n1 := r3 / 365). set (r4 := r3 mod 365).
  assert (n0 = 146097 * n400 + r1 /\ 0 <= r1 < 146097) as [E1 B1]
    by (subst n400 r1; split; [apply Z.div_mod | apply Z.mod_pos_bound]; lia).
  assert (r1 = 36524 * n100 + r2 /\ 0 <= r2 < 36524) as [E2 B2]
    by (subst n100 r2; split; [apply Z.div_mod | apply Z.mod_pos_bound]; lia).
  assert (r2 = 1461 * n4 + r3 /\ 0 <= r3 < 1461) as [E3 B3]
    by (subst n4 r3; split; [apply Z.div_mod | apply Z.mod_pos_bound]; lia).
  assert (r3 = 365 * n1 + r4 /\ 0 <= r4 < 365) as [E4 B4]
    by (subst n1 r4; split; [apply Z.div_mod | apply Z.mod_pos_bound]; lia).
  clearbody n400 r1 n100 r2 n4 r3 n1 r4.
  assert (0 <= n100 <= 4 /\ 0 <= n4 <= 24 /\ 0 <= n1 <= 4) as (Bn100 & Bn4 & Bn1) by lia.
  destruct ((n1 =? 4) || (n100 =? 4)) eqn:Hlast.
  - unfold ymd2ord3, ymd2ord, days_before_month, days_before_year, is_leap, DAYS_BEFORE_MONTH.
    simpl nth. cbv zeta.
    apply orb_true_iff in Hlast as [H | H]; apply Z.eqb_eq in H; subst.
    all: repeat match goal with
         | |- context [?a =? ?b] => destruct (Z.eqb_spec a b)
         end; simpl; Z.to_euclidean_division_equations; lia.
  - apply orb_false_iff in Hlast as [H1 H2]. apply Z.eqb_neq in H1, H2.
    set (leapyear := (n1 =? 3) && (negb (n4 =? 24) || (n100 =? 3))).
    set (y := n400 * 400 + 1 + n100 * 100 + n4 * 4 + n1).
    assert (is_leap y = leapyear) as HL.
    { unfold is_leap, leapyear, y.
      repeat match goal with
      | |- context [?a =? ?b] => destruct (Z.eqb_spec a b)
      end; simpl; try reflexivity; exfalso; Z.to_euclidean_division_equations; lia. }
    assert (days_before_year y = n0 - r4) as HY.
    { unfold days_before_year, y. cbv zeta. Z.to_euclidean_division_equations. lia. }
    assert (0 <= r4 < 365 + (if leapyear then 1 else 0)) as Hr4
      by (destruct leapyear; lia).
    pose proof (month_day_spec r4 leapyear Hr4) as HM.
    destruct (month_day r4 leapyear) as [m d].
    unfold ymd2ord3, ymd2ord, days_before_month. rewrite HL, HY. lia.
Qed.

(** The wall clock at a point of the time line denotes that point. *)
Lemma to_us_of_us (us : Z) : to_us (of_us us) = us.
Proof.
  unfold of_us.
  pose proof (ord2ymd_roundtrip (us / US_PER_DAY + 1)) as R.
  destruct (ord2ymd (us / US_PER_DAY + 1)) as [[y m] d]. simpl in R.
  unfold to_us. simpl. rewrite R.
  pose proof (Z.div_mod us US_PER_DAY ltac:(unfold US_PER_DAY; lia)) as E.
  set (r := us mod US_PER_DAY) in *.
  pose proof (Z.div_mod r 1000000 ltac:(lia)) as E1.
  set (secs := r / 1000000) in *.
  pose proof (Z.div_mod secs 3600 ltac:(lia)) as E2.
  pose proof (Z.div_mod (secs mod 3600) 60 ltac:(lia)) as E3.
  assert (secs mod 60 = (secs mod 3600) mod 60) as E4.
  { rewrite <- (Z.mod_mod_divide secs 3600 60) by (exists 60; lia). reflexivity. }
  lia.
Qed.

End CalendarFacts.

(** ** Conversion keeps the instant *)

Section InstantFacts.

Variable available_timezones : gset string.
Variable zone_known : string -> bool.
Variable utcoffset : string -> naive -> bool -> Z.
Variable fromutc : string -> naive -> result aware.
Variable clock : nat -> Z.
Variable localtime : Z -> naive.

Local Abbreviation convert :=
  (convert_time available_timezones zone_known utcoffset fromutc clock localtime).
Local Abbreviation abs := (instant utcoffset).
Local Abbreviation to_zone := (astimezone utcoffset fromutc).

(** What the program relies on from the zone database: the local time
    that [fromutc] returns for a UTC wall clock denotes, under the
    offset the database gives for it, that same UTC time. *)
Definition fromutc_sound : Prop :=
  forall (key : string) (utc : naive) (local : aware),
    fromutc key utc = Ok local -> abs local = to_us utc.

Lemma add_us_Ok_inv (dt utc : naive) (delta : Z) :
  add_us dt delta = Ok utc -> to_us utc = to_us dt + delta.
Proof.
  unfold add_us. destruct (representable (to_us dt + delta)); [|discriminate].
  intros [= <-]. apply to_us_of_us.
Qed.

Lemma astimezone_keeps_instant (dt target : aware) (tz : string) :
  fromutc_sound ->
  to_zone dt tz = Ok target ->
  abs target = abs dt.
Proof.
  intros Hdb. unfold astimezone.
  destruct (String.eqb tz (tzinfo dt)); [now intros [= <-]|].
  destruct (add_us (wall dt) (- offset_of utcoffset dt)) as [utc|e] eqn:E; [|discriminate].
  intros H. rewrite (Hdb _ _ _ H), (add_us_Ok_inv _ _ _ E).
  unfold instant. lia.
Qed.

Lemma success_dict_inj (s t s' t' : aware) (sz tz sz' tz' : string) :
  success_dict s t sz tz = success_dict s' t' sz' tz' ->
  s = s' /\ t = t' /\ sz = sz' /\ tz = tz'.
Proof.
  intros H.
  pose proof (f_equal (fun d => d !! "source_time") H) as H1.
  pose proof (f_equal (fun d => d !! "target_time") H) as H2.
  pose proof (f_equal (fun d => d !! "source_tz") H) as H3.
  pose proof (f_equal (fun d => d !! "target_tz") H) as H4.
  unfold success_dict in H1, H2, H3, H4. simpl in *.
  rewrite !lookup_insert_eq in H1.
  rewrite !(lookup_insert_ne _ "source_time" "target_time"), !lookup_insert_eq in H2 by done.
  rewrite !(lookup_insert_ne _ "source_time" "source_tz"),
          !(lookup_insert_ne _ "target_time" "source_tz"), !lookup_insert_eq in H3 by done.
  rewrite !(lookup_insert_ne _ "source_time" "target_tz"),
          !(lookup_insert_ne _ "target_time" "target_tz"),
          !(lookup_insert_ne _ "source_tz" "target_tz"), !lookup_insert_eq in H4 by done.
  repeat split; congruence.
Qed.

Lemma success_dict_not_error (s t : aware) (sz tz msg : string) :
  success_dict s t sz tz <> error_dict msg.
Proof.
  intros H. pose proof (f_equal (fun d => d !! "error") H) as E.
  unfold success_dict, error_dict in E. simpl in E.
  rewrite !lookup_insert_ne, lookup_empty, lookup_singleton_eq in E by done.
  discriminate.
Qed.

(** C5: over a sound zone database, the target datetime of a
    successful conversion denotes the instant of the source datetime;
    converting the target back to the source zone again gives a
    datetime of that instant. *)
Theorem conversion_preserves_instant
    (time_str from_tz to_tz : string) (w w' : nat)
    (source_time target_time : aware) (source_tz target_tz : string) :
  fromutc_sound ->
  convert time_str from_tz to_tz w
  = (Ok (success_dict source_time target_time source_tz target_tz), w') ->
  abs target_time = abs source_time /\
  forall back : aware,
    to_zone target_time source_tz = Ok back -> abs back = abs source_time.
Proof.
  intros Hdb Hc.
  apply convert_time_success_inv in Hc
    as [[msg E] | (sz & tz & s & t & _ & _ & _ & _ & Ht & E)].
  - now apply success_dict_not_error in E.
  - apply success_dict_inj in E as (-> & -> & -> & ->).
    pose proof (astimezone_keeps_instant _ _ _ Hdb Ht) as E1.
    split; [assumption|].
    intros back Hb. rewrite <- E1. now apply (astimezone_keeps_instant _ _ _ Hdb Hb).
Qed.

End InstantFacts.

(** The sample database is sound. *)
Lemma sample_fromutc_sound : fromutc_sound sample_utcoffset sample_fromutc.
Proof.
  intros key utc local. unfold sample_fromutc.
  destruct (add_us utc (default 0 (sample_offsets !! key))) as [dt|e] eqn:E; [|discriminate].
  intros [= <-]. unfold instant, offset_of, sample_utcoffset. simpl.
  rewrite (add_us_Ok_inv _ _ _ E). lia.
Qed.

Lemma conversion_preserves_instant_witness :
  let source := mk_aware (mk_naive 2024 1 15 15 0 0 0) false "UTC" in
  let target := mk_aware (mk_naive 2024 1 16 0 0 0 0) false "Asia/Tokyo" in
  instant sample_utcoffset target = instant sample_utcoffset source /\
  forall back : aware,
    astimezone sample_utcoffset sample_fromutc target "UTC" = Ok back ->
    instant sample_utcoffset back = instant sample_utcoffset source.
Proof.
  intros source target.
  apply (conversion_preserves_instant sample_zones sample_known sample_utcoffset
           sample_fromutc sample_clock sample_localtime
           "2024-01-15 15:00" "UTC" "Asia/Tokyo" 0%nat 0%nat
           source target "UTC" "Asia/Tokyo").
  - exact sample_fromutc_sound.
  - vm_compute. reflexivity.
Defined.

Example round_trip_sample :
  astimezone sample_utcoffset sample_fromutc
    (mk_aware (mk_naive 2024 1 16 0 0 0 0) false "Asia/Tokyo") "UTC"
  = Ok (mk_aware (mk_naive 2024 1 15 15 0 0 0) false "UTC").
Proof. vm_compute. reflexivity. Qed.

(** * Further properties of the code *)

(** ** White space around the arguments *)

Section Padding.

Lemma lstrip_append_space (pre s : string) :
  all_space pre = true -> lstrip (pre +:+ s) = lstrip s.
Proof.
  induction pre as [|c pre IH]; [reflexivity|].
  intros H. simpl in H. apply andb_true_iff in H as [Hc Hp].
  rewrite ?append_cons. simpl. rewrite Hc. now apply IH.
Qed.

Lemma rstrip_append_space (s post : string) :
  all_space post = true -> rstrip (s +:+ post) = rstrip s.
Proof.
  intros Hp. induction s as [|c s IH].
  - rewrite append_nil_l. simpl.
    apply strip_empty_iff in Hp as Hs. unfold strip in Hs.
    rewrite (lstrip_all_space _ Hp) in Hs.
    clear Hs. induction post as [|d post IHp]; [reflexivity|].
    simpl in *. apply andb_true_iff in Hp as [Hd Hp].
    now rewrite (IHp Hp), Hd.
  - rewrite ?append_cons. simpl. now rewrite IH.
Qed.

Lemma lstrip_cases (s : string) :
  (lstrip s = "" /\ all_space s = true) \/
  exists pre c r, s = pre +:+ String c r /\ all_space pre = true /\
                  isspace c = false /\ lstrip s = String c r.
Proof.
  induction s as [|c s IH]; [left; now split|]. simpl.
  destruct (isspace c) eqn:E.
  - destruct IH as [[H1 H2] | (pre & d & r & -> & Hp & Hd & Hl)].
    + left. now split.
    + right. exists (String c pre), d, r. rewrite ?append_cons. simpl. rewrite E. auto.
  - right. exists "", c, s. auto.
Qed.

(** White space before and after a string does not change what
    [strip] returns. *)
Lemma strip_pad (pre s post : string) :
  all_space pre = true -> all_space post = true ->
  strip (pre +:+ s +:+ post) = strip s.
Proof.
  intros Hpre Hpost. unfold strip. rewrite (lstrip_append_space _ _ Hpre).
  destruct (lstrip_cases s) as [[Hl Hs] | (p & c & r & -> & Hp & Hc & Hl)].
  - rewrite Hl. rewrite lstrip_all_space; [reflexivity|].
    clear Hl. induction s as [|d s IH]; [assumption|].
    rewrite ?append_cons. simpl in *. apply andb_true_iff in Hs as [Hd Hs].
    now rewrite Hd, IH.
  - rewrite Hl. rewrite append_assoc, (lstrip_append_space _ _ Hp).
    rewrite append_cons. simpl lstrip. rewrite Hc.
    rewrite <- append_cons. now apply rstrip_append_space.
Qed.

End Padding.

(** ** What the pipeline does on every input *)

Section PipelineFacts.

Variable available_timezones : gset string.
Variable zone_known : string -> bool.
Variable utcoffset : string -> naive -> bool -> Z.
Variable fromutc : string -> naive -> result aware.
Variable clock : nat -> Z.
Variable localtime : Z -> naive.

Local Abbreviation resolve := (normalize_timezone available_timezones).
Local Abbreviation parse := (parse_time_input zone_known fromutc clock localtime).
Local Abbreviation attempt := (parse_with zone_known clock localtime).
Local Abbreviation convert :=
  (convert_time available_timezones zone_known utcoffset fromutc clock localtime).

(** X1: a zone that [normalize_timezone] returns is a value of the
    abbreviation table or a key of the zone database. *)
Theorem resolved_zone_is_known (token z : string) :
  resolve token = Ok z ->
  (exists abbrev : string, timezone_abbrevs !! abbrev = Some z) \/
  z ∈ available_timezones.
Proof.
  unfold normalize_timezone.
  destruct (timezone_abbrevs !! upper (strip token)) as [v|] eqn:E.
  - intros [= <-]. left. eauto.
  - case_bool_decide as Hin.
    + intros [= <-]. right. now apply elem_of_catalog in Hin.
    + destruct (close_match (strip token) (all_timezones available_timezones))
        as [tz|] eqn:Hc; [|discriminate].
      intros [= <-]. right. apply close_match_Some in Hc as (i & Hi & _).
      apply elem_of_catalog, list_elem_of_lookup. eauto.
Qed.

(** X2: white space around any of the three arguments of
    [convert_time] changes nothing: the result and the readings of the
    clock are those of the call on the bare arguments. *)
Theorem convert_time_ignores_padding
    (time_str from_tz to_tz a1 b1 a2 b2 a3 b3 : string) (w : nat) :
  all_space a1 = true -> all_space b1 = true ->
  all_space a2 = true -> all_space b2 = true ->
  all_space a3 = true -> all_space b3 = true ->
  convert (a1 +:+ time_str +:+ b1) (a2 +:+ from_tz +:+ b2) (a3 +:+ to_tz +:+ b3) w
  = convert time_str from_tz to_tz w.
Proof.
  intros Ha1 Hb1 Ha2 Hb2 Ha3 Hb3.
  unfold convert_time, normalize_timezone, parse_time_input.
  now rewrite !strip_pad.
Qed.

(** An attempt reads the clock at most once. *)
Lemma attempt_reads_at_most_once (s fmt source_tz : string) (w : nat) :
  snd (attempt s fmt source_tz w) = w \/ snd (attempt s fmt source_tz w) = S w.
Proof.
  unfold parse_with. destruct (contains "Y" fmt).
  - left. unfold bind, lift, ret.
    destruct (strptime s fmt); [|reflexivity].
    destruct (ZoneInfo zone_known source_tz); reflexivity.
  - right. unfold now_local, read_clock, bind, lift, ret.
    destruct (strptime (upper s) fmt); [|reflexivity].
    destruct (replace_date _ _ _ _); [|reflexivity].
    destruct (ZoneInfo zone_known source_tz); reflexivity.
Qed.

Lemma parse_reads_at_most_once (time_str source_tz : string) (w : nat) :
  snd (parse time_str source_tz w) = w \/ snd (parse time_str source_tz w) = S w.
Proof.
  unfold parse_time_input.
  destruct (String.eqb (lower (strip time_str)) "now").
  - unfold now_in, read_clock, bind, lift.
    destruct (ZoneInfo zone_known source_tz) as [tz|e]; [|now left]. right.
    destruct (utcfromtimestamp (clock w)) as [utc|e]; [|reflexivity].
    destruct (fromutc tz utc); reflexivity.
  - rewrite try_patterns_spec by apply chop_newline_strip.
    destruct (matching_format (strip time_str)) as [fmt|]; [|now left].
    unfold except_ValueError, raise.
    destruct (attempt_reads_at_most_once (strip time_str) fmt source_tz w) as [H | H];
      destruct (attempt (strip time_str) fmt source_tz w) as [[a|[m|m|m]] w1];
      simpl in *; auto.
Qed.

(** X3: one call of [convert_time] reads the clock at most once, and
    not at all when a zone token does not resolve. *)
Theorem convert_time_reads_clock_at_most_once
    (time_str from_tz to_tz : string) (w : nat) :
  (snd (convert time_str from_tz to_tz w) = w \/
   snd (convert time_str from_tz to_tz w) = S w) /\
  (snd (convert time_str from_tz to_tz w) = S w ->
   exists source_tz target_tz,
     normalize_timezone available_timezones from_tz = Ok source_tz /\
     normalize_timezone available_timezones to_tz = Ok target_tz).
Proof.
  unfold convert_time, except_Exception, bind, lift, ret.
  destruct (resolve from_tz) as [sz|e1]; [|split; [now left | simpl; lia]].
  destruct (resolve to_tz) as [tz|e2]; [|split; [now left | simpl; lia]].
  pose proof (parse_reads_at_most_once time_str sz w) as H.
  destruct (parse time_str sz w) as [[dt|e] w1]; simpl in H.
  - destruct (ZoneInfo zone_known tz) as [z|e]; simpl.
    + destruct (astimezone utcoffset fromutc dt z); simpl; split; eauto.
    + split; eauto.
  - simpl. split; eauto.
Qed.

End PipelineFacts.

Lemma resolved_zone_is_known_witness :
  (exists abbrev : string, timezone_abbrevs !! abbrev = Some "Asia/Tokyo") \/
  "Asia/Tokyo" ∈ sample_zones.
Proof.
  apply (resolved_zone_is_known sample_zones "tok" "Asia/Tokyo").
  vm_compute. reflexivity.
Defined.

Lemma convert_time_ignores_padding_witness :
  sample_convert (" " +:+ "3pm" +:+ "  ") ("" +:+ "UTC" +:+ " ") ("  " +:+ "jst" +:+ "") 0%nat
  = sample_convert "3pm" "UTC" "jst" 0%nat.
Proof.
  apply (convert_time_ignores_padding sample_zones sample_known sample_utcoffset
           sample_fromutc sample_clock sample_localtime); reflexivity.
Defined.

(** ** The expression [now] and conversions inside one zone *)

Section NowFacts.

Variable available_timezones : gset string.
Variable zone_known : string -> bool.
Variable utcoffset : string -> naive -> bool -> Z.
Variable fromutc : string -> naive -> result aware.
Variable clock : nat -> Z.
Variable localtime : Z -> naive.

Local Abbreviation resolve := (normalize_timezone available_timezones).
Local Abbreviation parse := (parse_time_input zone_known fromutc clock localtime).
Local Abbreviation convert :=
  (convert_time available_timezones zone_known utcoffset fromutc clock localtime).
Local Abbreviation abs := (instant utcoffset).
Local Abbreviation to_zone := (astimezone utcoffset fromutc).

Lemma utcfromtimestamp_Ok_inv (t : Z) (utc : naive) :
  utcfromtimestamp t = Ok utc -> to_us utc = UNIX_EPOCH_US + t.
Proof.
  unfold utcfromtimestamp. cbv zeta.
  destruct (representable (UNIX_EPOCH_US + t)); [|discriminate].
  intros [= <-]. apply to_us_of_us.
Qed.

(** A successful parse of [now] in any letter case: one reading of the
    clock, and a datetime that denotes it. *)
Lemma parse_now_inv (time_str source_tz : string) (w w' : nat) (dt : aware) :
  fromutc_sound utcoffset fromutc ->
  lower (strip time_str) = "now" ->
  parse time_str source_tz w = (Ok dt, w') ->
  w' = S w /\ abs dt = UNIX_EPOCH_US + clock w /\ zone_known source_tz = true.
Proof.
  intros Hdb Hnow. unfold parse_time_input. rewrite Hnow. simpl String.eqb.
  intros H. apply bind_Ok_inv in H as (tz & w1 & H1 & H).
  apply lift_inv in H1 as [H1 ->].
  apply (ZoneInfo_Ok_inv zone_known) in H1 as [-> Hk].
  unfold now_in in H. apply bind_Ok_inv in H as (t & w1 & H0 & H).
  unfold read_clock in H0. injection H0 as <- <-.
  apply bind_Ok_inv in H as (utc & w1 & H2 & H). apply lift_inv in H2 as [H2 ->].
  apply lift_inv in H as [H ->].
  split; [reflexivity|]. split; [|assumption].
  rewrite (Hdb _ _ _ H). now apply utcfromtimestamp_Ok_inv.
Qed.

(** X4: over a sound zone database, a successful conversion of [now],
    in any letter case and with any white space around it, reads the
    clock once, and its source and target datetimes both denote that
    reading. *)
Theorem now_converts_the_clock_reading
    (time_str from_tz to_tz : string) (w w' : nat)
    (source_time target_time : aware) (source_tz target_tz : string) :
  fromutc_sound utcoffset fromutc ->
  lower (strip time_str) = "now" ->
  convert time_str from_tz to_tz w
  = (Ok (success_dict source_time target_time source_tz target_tz), w') ->
  w' = S w /\
  abs source_time = UNIX_EPOCH_US + clock w /\
  abs target_time = UNIX_EPOCH_US + clock w.
Proof.
  intros Hdb Hnow Hc.
  apply convert_time_success_inv in Hc
    as [[msg E] | (sz & tz & s & t & _ & _ & Hp & _ & Ht & E)].
  - now apply success_dict_not_error in E.
  - apply success_dict_inj in E as (-> & -> & -> & ->).
    apply (parse_now_inv _ _ _ _ _ Hdb Hnow) in Hp as (-> & Hs & _).
    split; [reflexivity|]. split; [assumption|].
    now rewrite (astimezone_keeps_instant _ _ _ _ _ Hdb Ht).
Qed.

(** The datetime of a successful parse of an expression other than
    [now] is in the source zone. *)
Lemma parse_zone (time_str source_tz : string) (w w' : nat) (dt : aware) :
  lower (strip time_str) <> "now" ->
  parse time_str source_tz w = (Ok dt, w') ->
  tzinfo dt = source_tz.
Proof.
  intros Hnow. unfold parse_time_input.
  destruct (String.eqb_spec (lower (strip time_str)) "now") as [E|_]; [contradiction|].
  rewrite try_patterns_spec by apply chop_newline_strip.
  destruct (matching_format (strip time_str)) as [fmt|] eqn:Hm; [|discriminate].
  unfold except_ValueError, raise.
  destruct (parse_with zone_known clock localtime (strip time_str) fmt source_tz w)
    as [[a|[m|m|m]] w1] eqn:Ha; intros [= <- <-].
  destruct (contains "Y" fmt) eqn:HY.
  - apply attempt_full_inv in Ha as (t & _ & -> & _); [reflexivity | assumption].
  - apply attempt_time_only_inv in Ha as (t & _ & -> & _); [reflexivity | assumption].
Qed.

(** X5: when both zone tokens resolve to the same zone, a successful
    conversion of an expression other than [now] returns the source
    datetime itself as target: same wall clock, same zone. *)
Theorem same_zone_conversion_is_identity
    (time_str from_tz to_tz : string) (w w' : nat)
    (source_time target_time : aware) (source_tz target_tz : string) :
  lower (strip time_str) <> "now" ->
  resolve from_tz = resolve to_tz ->
  convert time_str from_tz to_tz w
  = (Ok (success_dict source_time target_time source_tz target_tz), w') ->
  target_time = source_time /\ target_tz = source_tz.
Proof.
  intros Hnow Hz Hc.
  apply convert_time_success_inv in Hc
    as [[msg E] | (sz & tz & s & t & Hs & Ht & Hp & _ & Ha & E)].
  - now apply success_dict_not_error in E.
  - apply success_dict_inj in E as (-> & -> & -> & ->).
    rewrite Hz, Ht in Hs. injection Hs as ->.
    apply (parse_zone _ _ _ _ _ Hnow) in Hp. unfold astimezone in Ha.
    rewrite Hp, String.eqb_refl in Ha. injection Ha as <-. now split.
Qed.

End NowFacts.

Lemma now_converts_the_clock_reading_witness :
  let source := mk_aware (mk_naive 2024 3 9 23 59 59 0) false "UTC" in
  let target := mk_aware (mk_naive 2024 3 10 8 59 59 0) false "Asia/Tokyo" in
  1%nat = 1%nat /\
  instant sample_utcoffset source = UNIX_EPOCH_US + sample_clock 0 /\
  instant sample_utcoffset target = UNIX_EPOCH_US + sample_clock 0.
Proof.
  intros source target.
  apply (now_converts_the_clock_reading sample_zones sample_known sample_utcoffset
           sample_fromutc sample_clock sample_localtime
           " Now" "utc" "jst" 0%nat 1%nat source target "UTC" "Asia/Tokyo").
  - exact sample_fromutc_sound.
  - reflexivity.
  - reflexivity.
Defined.

Lemma same_zone_conversion_is_identity_witness :
  let source := mk_aware (mk_naive 2024 3 9 15 30 0 0) false "Asia/Tokyo" in
  source = source /\ "Asia/Tokyo" = "Asia/Tokyo".
Proof.
  intros source.
  apply (same_zone_conversion_is_identity sample_zones sample_known sample_utcoffset
           sample_fromutc sample_clock sample_localtime
           "3:30pm" "JST" "tokyo" 0%nat 1%nat source source "Asia/Tokyo" "Asia/Tokyo").
  - discriminate.
  - reflexivity.
  - reflexivity.
Defined.

(** ** [strptime] on the texts that the patterns let through *)

Section StrptimeFacts.

(** Every character of the text is a digit. *)
Fixpoint all_digits (t : string) : bool :=
  match t with
  | EmptyString => true
  | String c r => (isdigit c && all_digits r)%bool
  end.

(** The directives that read a number of one or two digits, and the
    numbers that their alternatives of two digits and of one digit
    accept. *)
Definition numeric (d : directive) : bool :=
  match d with
  | D_H | D_I | D_m | D_d | D_M => true
  | _ => false
  end.

Definition two_digit_ok (d : directive) (n : Z) : bool :=
  match d with
  | D_H => n <=? 23
  | D_I | D_m => (1 <=? n) && (n <=? 12)
  | D_d => (1 <=? n) && (n <=? 31)
  | D_M => n <=? 59
  | _ => false
  end.

Definition one_digit_ok (d : directive) (n : Z) : bool :=
  match d with
  | D_H | D_M => true
  | D_I | D_m | D_d => 1 <=? n
  | _ => false
  end.

Ltac digit_cases H :=
  apply isdigit_inv in H;
  repeat match type of H with _ \/ _ => destruct H as [H | H] end; subst.

Lemma successes_two_digits (d : directive) (a b : ascii) (rest : string) :
  numeric d = true -> isdigit a = true -> isdigit b = true ->
  successes d (String a (String b rest)) =
  (if two_digit_ok d (10 * digit_value a + digit_value b)
   then [(String a (String b ""), rest)] else []) ++
  (if one_digit_ok d (digit_value a) then [(String a "", String b rest)] else []).
Proof.
  intros Hd Ha Hb. destruct d; try discriminate; clear Hd;
    digit_cases Ha; digit_cases Hb; reflexivity.
Qed.

Lemma nondigit_between (lo hi x : ascii) :
  isdigit lo = true -> isdigit hi = true -> isdigit x = false ->
  between lo hi x = false.
Proof.
  unfold between, isdigit, in_range. intros Hlo Hhi Hx.
  apply andb_true_iff in Hlo as [Hlo _]. apply andb_true_iff in Hhi as [_ Hhi].
  apply N.leb_le in Hlo, Hhi.
  apply andb_false_iff. apply andb_false_iff in Hx.
  rewrite !N.leb_gt in *. lia.
Qed.

Lemma successes_one_digit (d : directive) (a x : ascii) (rest : string) :
  numeric d = true -> isdigit a = true -> isdigit x = false ->
  successes d (String a (String x rest)) =
  if one_digit_ok d (digit_value a) then [(String a "", String x rest)] else [].
Proof.
  intros Hd Ha Hx.
  assert (forall lo hi, isdigit lo = true -> isdigit hi = true -> between lo hi x = false) as Hb
    by (intros; now apply nondigit_between).
  pose proof (Hb "0"%char "1"%char eq_refl eq_refl) as H01.
  pose proof (Hb "0"%char "2"%char eq_refl eq_refl) as H02.
  pose proof (Hb "0"%char "3"%char eq_refl eq_refl) as H03.
  pose proof (Hb "1"%char "9"%char eq_refl eq_refl) as H19.
  destruct d; try discriminate; clear Hd Hb;
    digit_cases Ha; unfold successes, alternatives; simpl;
    rewrite ?Hx, ?H01, ?H02, ?H03, ?H19; reflexivity.
Qed.


(** A text of digits whose length is between [lo] and [hi]. *)
Definition digits (lo hi : nat) (t : string) : bool :=
  (all_digits t && Nat.leb lo (String.length t) && Nat.leb (String.length t) hi)%bool.

Lemma digits_1_2_inv (t : string) :
  digits 1 2 t = true ->
  (exists a, t = String a "" /\ isdigit a = true) \/
  (exists a b, t = String a (String b "") /\ isdigit a = true /\ isdigit b = true).
Proof.
  unfold digits. destruct t as [|a [|b [|c t]]]; try discriminate; simpl;
    rewrite ?andb_true_r; intros H.
  - left. exists a. auto.
  - right. exists a, b. apply andb_true_iff in H as [H1 H2]. auto.
  - now rewrite andb_false_r in H.
Qed.

Lemma digits_2_inv (t : string) :
  digits 2 2 t = true ->
  exists a b, t = String a (String b "") /\ isdigit a = true /\ isdigit b = true.
Proof.
  unfold digits. destruct t as [|a [|b [|c t]]]; try discriminate; simpl;
    rewrite ?andb_true_r, ?andb_false_r; intros H; try discriminate.
  exists a, b. apply andb_true_iff in H as [H1 H2]. auto.
Qed.

Lemma digits_4_inv (t : string) :
  digits 4 4 t = true ->
  exists a b c d, t = String a (String b (String c (String d ""))) /\
    isdigit a = true /\ isdigit b = true /\ isdigit c = true /\ isdigit d = true.
Proof.
  unfold digits. destruct t as [|a [|b [|c [|d [|e t]]]]]; try discriminate; simpl;
    rewrite ?andb_true_r, ?andb_false_r; intros H; try discriminate.
  exists a, b, c, d.
  apply andb_true_iff in H as [H1 H]. apply andb_true_iff in H as [H2 H].
  apply andb_true_iff in H as [H3 H4]. auto.
Qed.

Lemma digit_value_range (c : ascii) : isdigit c = true -> 0 <= digit_value c <= 9.
Proof. intros H. digit_cases H; vm_compute; split; discriminate. Qed.

Lemma int_one (a : ascii) : isdigit a = true -> int (String a "") = digit_value a.
Proof. intros H. unfold int. simpl. now rewrite H. Qed.

Lemma int_two (a b : ascii) :
  isdigit a = true -> isdigit b = true ->
  int (String a (String b "")) = 10 * digit_value a + digit_value b.
Proof. intros Ha Hb. unfold int. simpl. rewrite Ha, Hb. lia. Qed.

Lemma int_four (a b c d : ascii) :
  isdigit a = true -> isdigit b = true -> isdigit c = true -> isdigit d = true ->
  int (String a (String b (String c (String d "")))) =
  1000 * digit_value a + 100 * digit_value b + 10 * digit_value c + digit_value d.
Proof. intros Ha Hb Hc Hd. unfold int. simpl. rewrite Ha, Hb, Hc, Hd. lia. Qed.

(** *** The matcher, one directive at a time *)

Lemma run_cons (d : directive) (ds : list directive) (s : string) :
  run (d :: ds) s =
  flat_map (fun tr => map (fun gr => (capture d (fst tr) (fst gr), snd gr)) (run ds (snd tr)))
           (successes d s).
Proof. reflexivity. Qed.

Lemma map_pair_id {A B : Type} (l : list (A * B)) :
  map (fun gr => (fst gr, snd gr)) l = l.
Proof. induction l as [|[a b] l IH]; [reflexivity|]. simpl. now rewrite IH. Qed.

(** A directive that cannot start on a digit. *)
Definition rejects_digits (d : directive) : Prop :=
  forall (c : ascii) (r : string), isdigit c = true -> successes d (String c r) = [].

Lemma run_lit (c x : ascii) (ds : list directive) (rest : string) :
  run (D_lit c :: ds) (String x rest) = if ci c x then run ds rest else [].
Proof.
  rewrite run_cons. unfold successes, alternatives. simpl.
  destruct (ci c x); simpl; [|reflexivity].
  rewrite app_nil_r. apply map_pair_id.
Qed.

Lemma colon_rejects_digits : rejects_digits (D_lit ":").
Proof.
  intros c r H. unfold successes, alternatives. simpl. now rewrite (digit_not_colon _ H).
Qed.

Lemma dash_rejects_digits : rejects_digits (D_lit "-").
Proof.
  intros c r H. unfold successes, alternatives. simpl. now rewrite (digit_not_dash _ H).
Qed.

Lemma meridiem_rejects_digits : rejects_digits D_p.
Proof.
  intros c r H. digit_cases H; reflexivity.
Qed.

Lemma space_rejects_digits : rejects_digits D_space.
Proof.
  intros c r H. unfold successes. simpl. now rewrite (digit_not_space _ H).
Qed.

(** A number of one or two digits, followed by a character that is not
    a digit and by a directive that cannot start on a digit: the
    directive takes the whole number or nothing. *)
Lemma run_number (d d' : directive) (ds : list directive) (t : string) (x : ascii)
    (rest : string) :
  numeric d = true -> digits 1 2 t = true -> isdigit x = false -> rejects_digits d' ->
  run (d :: d' :: ds) (t +:+ String x rest) =
  if two_digit_ok d (int t)
  then map (fun gr => (capture d t (fst gr), snd gr)) (run (d' :: ds) (String x rest))
  else [].
Proof.
  intros Hd Ht Hx Hrej. rewrite run_cons.
  apply digits_1_2_inv in Ht as [(a & -> & Ha) | (a & b & -> & Ha & Hb)].
  - rewrite append_cons, append_nil_l, (successes_one_digit _ _ _ _ Hd Ha Hx), (int_one _ Ha).
    pose proof (digit_value_range _ Ha) as Hr.
    destruct d; try discriminate; simpl;
      rewrite ?app_nil_r; try reflexivity;
      destruct (1 <=? digit_value a) eqn:E; simpl; rewrite ?app_nil_r;
      try reflexivity;
      match goal with |- context [?n <=? ?m] =>
        replace (n <=? m) with true by (symmetry; apply Z.leb_le; lia) end;
      reflexivity.
  - rewrite !append_cons, append_nil_l, (successes_two_digits _ _ _ _ Hd Ha Hb),
      (int_two _ _ Ha Hb).
    rewrite flat_map_app.
    assert (flat_map
              (fun tr => map (fun gr => (capture d (fst tr) (fst gr), snd gr))
                             (run (d' :: ds) (snd tr)))
              (if one_digit_ok d (digit_value a)
               then [(String a "", String b (String x rest))] else []) = []) as ->.
    { destruct (one_digit_ok d (digit_value a)); [|reflexivity].
      cbn [flat_map fst snd]. rewrite run_cons, (Hrej _ _ Hb). reflexivity. }
    rewrite app_nil_r.
    destruct (two_digit_ok d (10 * digit_value a + digit_value b));
      cbn [flat_map fst snd]; [now rewrite app_nil_r | reflexivity].
Qed.


Lemma digits_1_2_range (t : string) : digits 1 2 t = true -> 0 <= int t <= 99.
Proof.
  intros H. apply digits_1_2_inv in H as [(a & -> & Ha) | (a & b & -> & Ha & Hb)].
  - rewrite (int_one _ Ha). pose proof (digit_value_range _ Ha). lia.
  - rewrite (int_two _ _ Ha Hb).
    pose proof (digit_value_range _ Ha). pose proof (digit_value_range _ Hb). lia.
Qed.

Lemma digits_2_range (t : string) : digits 2 2 t = true -> 0 <= int t <= 99.
Proof.
  intros H. apply digits_2_inv in H as (a & b & -> & Ha & Hb).
  rewrite (int_two _ _ Ha Hb).
  pose proof (digit_value_range _ Ha). pose proof (digit_value_range _ Hb). lia.
Qed.

(** The minute at the end of the data: the alternative of two digits
    comes first; the alternative of one digit leaves the second. *)
Lemma run_minute_end (mm : string) :
  digits 2 2 mm = true ->
  exists (g : groups) (c : ascii),
    run [D_M] mm =
    (if int mm <=? 59 then [([("M"%char, mm)], "")] else []) ++ [(g, String c "")].
Proof.
  intros H. apply digits_2_inv in H as (a & b & -> & Ha & Hb).
  exists [("M"%char, String a "")], b.
  rewrite run_cons, (successes_two_digits D_M _ _ _ eq_refl Ha Hb), (int_two _ _ Ha Hb).
  cbn [two_digit_ok one_digit_ok].
  destruct (10 * digit_value a + digit_value b <=? 59);
    cbn [app flat_map map fst snd run capture group_name]; reflexivity.
Qed.

(** Four digits of a year. *)
Lemma run_year (ds : list directive) (yyyy rest : string) :
  digits 4 4 yyyy = true ->
  run (D_Y :: ds) (yyyy +:+ rest) =
  map (fun gr => (("Y"%char, yyyy) :: fst gr, snd gr)) (run ds rest).
Proof.
  intros H. apply digits_4_inv in H as (a & b & c & d & -> & Ha & Hb & Hc & Hd).
  rewrite run_cons, !append_cons, append_nil_l. unfold successes, alternatives.
  simpl. rewrite Ha, Hb, Hc, Hd. simpl. now rewrite app_nil_r.
Qed.

(** A run of white space before a character that is not white space,
    when the next directive cannot start on white space: [\s+] takes
    the whole run. *)
Lemma run_space (ds : list directive) (sp : string) (x : ascii) (rest : string) :
  all_space sp = true -> sp <> "" -> isspace x = false ->
  (forall c r, isspace c = true -> run ds (String c r) = []) ->
  run (D_space :: ds) (sp +:+ String x rest) = run ds (String x rest).
Proof.
  intros Hsp Hne Hx Hrej. induction sp as [|c sp IH]; [contradiction|].
  simpl in Hsp. apply andb_true_iff in Hsp as [Hc Hsp].
  rewrite run_cons, append_cons. unfold successes. cbn [space_splits]. rewrite Hc.
  rewrite flat_map_app.
  assert (forall l : list (string * string),
            flat_map (fun tr => map (fun gr => (capture D_space (fst tr) (fst gr), snd gr))
                                    (run ds (snd tr)))
                     (map (fun tr => (String c (fst tr), snd tr)) l)
            = flat_map (fun tr => map (fun gr => (capture D_space (fst tr) (fst gr), snd gr))
                                      (run ds (snd tr))) l) as ->.
  { induction l as [|[t r] l IHl]; [reflexivity|]. cbn [map flat_map fst snd].
    now rewrite IHl. }
  cbn [flat_map fst snd capture group_name]. rewrite app_nil_r, map_pair_id.
  destruct sp as [|c' sp].
  - rewrite append_nil_l. cbn [space_splits]. rewrite Hx. reflexivity.
  - change (flat_map _ (space_splits (String c' sp +:+ String x rest)))
      with (run (D_space :: ds) (String c' sp +:+ String x rest)).
    rewrite (IH Hsp) by discriminate.
    simpl in Hsp. apply andb_true_iff in Hsp as [Hc' _].
    rewrite append_cons, (Hrej _ _ Hc'). apply app_nil_r.
Qed.

Lemma take_reject (p : ascii -> bool) (cs : list (ascii -> bool)) (c : ascii) (r : string) :
  p c = false -> take (p :: cs) (String c r) = None.
Proof. intros H. cbn [take]. now rewrite H. Qed.

Lemma omap_take_cons (cs : list (ascii -> bool)) (css : list (list (ascii -> bool)))
    (s : string) :
  omap (fun cs => take cs s) (cs :: css) =
  match take cs s with
  | Some y => y :: omap (fun cs => take cs s) css
  | None => omap (fun cs => take cs s) css
  end.
Proof. reflexivity. Qed.

Lemma hour_rejects_space (ds : list directive) (c : ascii) (r : string) :
  isspace c = true -> run (D_H :: ds) (String c r) = [].
Proof.
  intros H. rewrite run_cons. unfold successes, alternatives.
  assert (isdigit c = false) as Hd by (revert H; ascii_cases c).
  assert (only "2" c = false) as H2 by (revert H; ascii_cases c).
  assert (between "0" "1" c = false) as H01 by (revert H; ascii_cases c).
  rewrite !omap_take_cons, (take_reject _ _ _ _ Hd), (take_reject _ _ _ _ H2),
    (take_reject _ _ _ _ H01).
  reflexivity.
Qed.

Lemma run_space_cons (ds : list directive) (c : ascii) (r tail : string) :
  all_space (String c r) = true ->
  (exists x rest, tail = String x rest /\ isspace x = false) ->
  (forall c r, isspace c = true -> run ds (String c r) = []) ->
  run (D_space :: ds) (String c (r +:+ tail)) = run ds tail.
Proof.
  intros Hsp (x & rest & -> & Hx) Hrej. rewrite <- append_cons.
  now apply run_space.
Qed.

Lemma digits_1_2_head (t z : string) :
  digits 1 2 t = true ->
  exists x rest, t +:+ z = String x rest /\ isspace x = false.
Proof.
  intros H. apply digits_1_2_inv in H as [(a & -> & Ha) | (a & b & -> & Ha & _)];
    rewrite append_cons; eauto using digit_not_space.
Qed.

(** *** The four formats *)

(** [r] is [Ok t] when [ok] holds, and a [ValueError] otherwise. *)
Definition accepts_as (r : result naive) (ok : bool) (t : naive) : Prop :=
  if ok then r = Ok t else exists msg : string, r = Raise (ValueError msg).

Lemma datetime_valid (y m d h mi : Z) :
  valid_date y m d = true -> 0 <= h <= 23 -> 0 <= mi <= 59 ->
  datetime y m d h mi 0 0 = Ok (mk_naive y m d h mi 0 0).
Proof.
  intros Hd Hh Hm. unfold datetime, valid_time. rewrite Hd. simpl.
  replace (0 <=? h) with true by (symmetry; apply Z.leb_le; lia).
  replace (h <=? 23) with true by (symmetry; apply Z.leb_le; lia).
  replace (0 <=? mi) with true by (symmetry; apply Z.leb_le; lia).
  replace (mi <=? 59) with true by (symmetry; apply Z.leb_le; lia).
  reflexivity.
Qed.

(** [%H:%M] *)
Lemma strptime_hour_minute (hh mm : string) :
  digits 1 2 hh = true -> digits 2 2 mm = true ->
  accepts_as (strptime (hh +:+ ":" +:+ mm) "%H:%M")
             ((int hh <=? 23) && (int mm <=? 59))
             (mk_naive 1900 1 1 (int hh) (int mm) 0 0).
Proof.
  intros Hh Hm. unfold strptime.
  change (compile false "%H:%M") with (Ok [D_H; D_lit ":"; D_M]).
  rewrite append_cons, append_nil_l.
  rewrite (run_number D_H (D_lit ":") [D_M] hh ":" mm eq_refl Hh eq_refl colon_rejects_digits).
  cbn [two_digit_ok]. rewrite run_lit. change (ci ":" ":") with true. cbv iota.
  destruct (run_minute_end mm Hm) as (g & c & ->).
  pose proof (digits_1_2_range _ Hh). pose proof (digits_2_range _ Hm).
  destruct (int hh <=? 23) eqn:E1; [|simpl; eauto].
  destruct (int mm <=? 59) eqn:E2; simpl; [|eauto].
  apply Z.leb_le in E1, E2. unfold build, hour_of, get_int. simpl.
  apply datetime_valid; [reflexivity | lia | lia].
Qed.


(** The meridiem of the expression, in any letter case. *)
Definition meridiem (ap : string) : bool :=
  (String.eqb (lower ap) "am" || String.eqb (lower ap) "pm")%bool.

Definition is_pm (ap : string) : bool := String.eqb (lower ap) "pm".

(** The hour of the day of the hour [h] of a 12-hour clock. *)
Definition hour_of_day (h : Z) (pm : bool) : Z := h mod 12 + (if pm then 12 else 0).

Lemma lower_char_a (x : ascii) : lower_char x = "a"%char -> x = "a"%char \/ x = "A"%char.
Proof.
  destruct x as [[] [] [] [] [] [] [] []]; vm_compute; intros H;
    try discriminate; auto.
Qed.

Lemma lower_char_p (x : ascii) : lower_char x = "p"%char -> x = "p"%char \/ x = "P"%char.
Proof.
  destruct x as [[] [] [] [] [] [] [] []]; vm_compute; intros H;
    try discriminate; auto.
Qed.

Lemma lower_char_m (x : ascii) : lower_char x = "m"%char -> x = "m"%char \/ x = "M"%char.
Proof.
  destruct x as [[] [] [] [] [] [] [] []]; vm_compute; intros H;
    try discriminate; auto.
Qed.

Lemma meridiem_inv (ap : string) :
  meridiem ap = true ->
  exists x y : ascii,
    ap = String x (String y "") /\
    (Ascii.eqb (lower_char x) "a" || Ascii.eqb (lower_char x) "p")%bool = true /\
    Ascii.eqb (lower_char y) (lower_char "m") = true /\
    ((upper ap = "AM" /\ is_pm ap = false) \/ (upper ap = "PM" /\ is_pm ap = true)).
Proof.
  unfold meridiem, is_pm. intros H.
  destruct ap as [|x [|y [|z ap]]];
    try (exfalso; apply orb_true_iff in H as [H | H]; apply String.eqb_eq in H;
         discriminate H).
  exists x, y. split; [reflexivity|].
  apply orb_true_iff in H as [H | H]; apply String.eqb_eq in H;
    injection H as Hx Hy;
    [apply lower_char_a in Hx | apply lower_char_p in Hx];
    apply lower_char_m in Hy;
    destruct Hx as [-> | ->]; destruct Hy as [-> | ->];
    (split; [reflexivity|]); (split; [reflexivity|]);
    solve [left; split; reflexivity | right; split; reflexivity].
Qed.

Lemma map_str_append (f : ascii -> ascii) (a b : string) :
  map_str f (a +:+ b) = map_str f a +:+ map_str f b.
Proof.
  induction a as [|c a IH]; [reflexivity|].
  rewrite append_cons. simpl. now rewrite IH.
Qed.

Lemma upper_char_digit (c : ascii) : isdigit c = true -> upper_char c = c.
Proof. ascii_cases c. Qed.

Lemma upper_all_digits (t : string) : all_digits t = true -> upper t = t.
Proof.
  induction t as [|c t IH]; [reflexivity|]. simpl.
  intros H. apply andb_true_iff in H as [Hc Ht].
  unfold upper in *. simpl. now rewrite (upper_char_digit _ Hc), (IH Ht).
Qed.

Lemma digits_all (lo hi : nat) (t : string) : digits lo hi t = true -> all_digits t = true.
Proof.
  unfold digits. intros H. apply andb_true_iff in H as [H _].
  now apply andb_true_iff in H as [H _].
Qed.

Lemma digits_2_is_1_2 (t : string) : digits 2 2 t = true -> digits 1 2 t = true.
Proof.
  intros H. apply digits_2_inv in H as (a & b & -> & Ha & Hb).
  unfold digits. simpl. now rewrite Ha, Hb.
Qed.

Lemma run_meridiem_end (x y : ascii) :
  ci "a" x || ci "p" x = true -> ci "m" y = true ->
  run [D_p] (String x (String y "")) = [([("p"%char, String x (String y ""))], "")].
Proof.
  intros Hx Hy. rewrite run_cons. unfold successes, alternatives.
  rewrite !omap_take_cons. cbn [take]. rewrite Hy.
  destruct (ci "a" x) eqn:Ea; destruct (ci "p" x) eqn:Ep; try discriminate.
  - exfalso. revert Ea Ep. clear. ascii_cases x.
  - reflexivity.
  - reflexivity.
Qed.

Lemma hour12_am (h : Z) : 1 <= h <= 12 -> hour12 h "am" = hour_of_day h false.
Proof.
  intros H. unfold hour12, hour_of_day. simpl.
  destruct (Z.eqb_spec h 12) as [-> | Hne]; [reflexivity|].
  rewrite Z.mod_small by lia. lia.
Qed.

Lemma hour12_pm (h : Z) : 1 <= h <= 12 -> hour12 h "pm" = hour_of_day h true.
Proof.
  intros H. unfold hour12, hour_of_day. simpl.
  destruct (Z.eqb_spec h 12) as [-> | Hne]; [reflexivity|].
  rewrite Z.mod_small by lia. lia.
Qed.

Lemma hour_of_day_range (h : Z) (pm : bool) : 0 <= hour_of_day h pm <= 23.
Proof.
  unfold hour_of_day. pose proof (Z.mod_pos_bound h 12 ltac:(lia)).
  destruct pm; lia.
Qed.

(** [%I%p], on the upper-cased expression *)
Lemma strptime_hour_meridiem (hh ap : string) :
  digits 1 2 hh = true -> meridiem ap = true ->
  accepts_as (strptime (upper (hh +:+ ap)) "%I%p")
             ((1 <=? int hh) && (int hh <=? 12))
             (mk_naive 1900 1 1 (hour_of_day (int hh) (is_pm ap)) 0 0 0).
Proof.
  intros Hh Hap. unfold strptime.
  change (compile false "%I%p") with (Ok [D_I; D_p]).
  unfold upper. rewrite map_str_append. fold upper.
  rewrite (upper_all_digits _ (digits_all _ _ _ Hh)).
  apply meridiem_inv in Hap as (x & y & _ & _ & _ & Hcase).
  pose proof (hour_of_day_range (int hh) (is_pm ap)) as Hr.
  destruct Hcase as [[-> Hpm] | [-> Hpm]]; rewrite Hpm in *.
  - rewrite (run_number D_I D_p [] hh "A" "M" eq_refl Hh eq_refl meridiem_rejects_digits).
    cbn [two_digit_ok]. rewrite (run_meridiem_end "A" "M" eq_refl eq_refl).
    destruct ((1 <=? int hh) && (int hh <=? 12)) eqn:E; [|simpl; eauto].
    apply andb_true_iff in E as [E1 E2]. apply Z.leb_le in E1, E2.
    cbn [map fst snd capture group_name String.eqb negb].
    unfold build, hour_of, get_int. simpl get. cbv iota beta.
    change (lower "AM") with "am". rewrite hour12_am by lia.
    apply datetime_valid; [reflexivity | lia | lia].
  - rewrite (run_number D_I D_p [] hh "P" "M" eq_refl Hh eq_refl meridiem_rejects_digits).
    cbn [two_digit_ok]. rewrite (run_meridiem_end "P" "M" eq_refl eq_refl).
    destruct ((1 <=? int hh) && (int hh <=? 12)) eqn:E; [|simpl; eauto].
    apply andb_true_iff in E as [E1 E2]. apply Z.leb_le in E1, E2.
    cbn [map fst snd capture group_name String.eqb negb].
    unfold build, hour_of, get_int. simpl get. cbv iota beta.
    change (lower "PM") with "pm". rewrite hour12_pm by lia.
    apply datetime_valid; [reflexivity | lia | lia].
Qed.


(** [%I:%M%p], on the upper-cased expression *)
Lemma strptime_hour_minute_meridiem (hh mm ap : string) :
  digits 1 2 hh = true -> digits 2 2 mm = true -> meridiem ap = true ->
  accepts_as (strptime (upper (hh +:+ ":" +:+ mm +:+ ap)) "%I:%M%p")
             ((1 <=? int hh) && (int hh <=? 12) && (int mm <=? 59))
             (mk_naive 1900 1 1 (hour_of_day (int hh) (is_pm ap)) (int mm) 0 0).
Proof.
  intros Hh Hm Hap. unfold strptime.
  change (compile false "%I:%M%p") with (Ok [D_I; D_lit ":"; D_M; D_p]).
  unfold upper. rewrite !map_str_append. fold upper.
  rewrite (upper_all_digits _ (digits_all _ _ _ Hh)),
    (upper_all_digits _ (digits_all _ _ _ Hm)).
  change (upper ":") with ":". rewrite append_cons, append_nil_l.
  apply meridiem_inv in Hap as (x & y & _ & _ & _ & Hcase).
  pose proof (hour_of_day_range (int hh) (is_pm ap)) as Hr.
  pose proof (digits_2_range _ Hm) as Hmr.
  pose proof (digits_2_is_1_2 _ Hm) as Hm'.
  destruct Hcase as [[-> Hpm] | [-> Hpm]]; rewrite Hpm in *.
  - rewrite (run_number D_I (D_lit ":") [D_M; D_p] hh ":" (mm +:+ "AM")
               eq_refl Hh eq_refl colon_rejects_digits).
    cbn [two_digit_ok]. rewrite run_lit. change (ci ":" ":") with true. cbv iota.
    rewrite (run_number D_M D_p [] mm "A" "M" eq_refl Hm' eq_refl meridiem_rejects_digits).
    cbn [two_digit_ok]. rewrite (run_meridiem_end "A" "M" eq_refl eq_refl).
    destruct ((1 <=? int hh) && (int hh <=? 12)) eqn:E; [|simpl; eauto].
    destruct (int mm <=? 59) eqn:E3; [|simpl; eauto].
    apply andb_true_iff in E as [E1 E2]. apply Z.leb_le in E1, E2, E3.
    cbn [map fst snd capture group_name String.eqb negb andb].
    unfold build, hour_of, get_int. simpl get. cbv iota beta.
    change (lower "AM") with "am". rewrite hour12_am by lia.
    apply datetime_valid; [reflexivity | lia | lia].
  - rewrite (run_number D_I (D_lit ":") [D_M; D_p] hh ":" (mm +:+ "PM")
               eq_refl Hh eq_refl colon_rejects_digits).
    cbn [two_digit_ok]. rewrite run_lit. change (ci ":" ":") with true. cbv iota.
    rewrite (run_number D_M D_p [] mm "P" "M" eq_refl Hm' eq_refl meridiem_rejects_digits).
    cbn [two_digit_ok]. rewrite (run_meridiem_end "P" "M" eq_refl eq_refl).
    destruct ((1 <=? int hh) && (int hh <=? 12)) eqn:E; [|simpl; eauto].
    destruct (int mm <=? 59) eqn:E3; [|simpl; eauto].
    apply andb_true_iff in E as [E1 E2]. apply Z.leb_le in E1, E2, E3.
    cbn [map fst snd capture group_name String.eqb negb andb].
    unfold build, hour_of, get_int. simpl get. cbv iota beta.
    change (lower "PM") with "pm". rewrite hour12_pm by lia.
    apply datetime_valid; [reflexivity | lia | lia].
Qed.

Lemma all_space_first (sp : string) :
  all_space sp = true -> sp <> "" ->
  exists c r, sp = String c r /\ isspace c = true.
Proof.
  destruct sp as [|c r]; [contradiction|]. simpl. intros H _.
  apply andb_true_iff in H as [H _]. eauto.
Qed.

Lemma space_not_digit (c : ascii) : isspace c = true -> isdigit c = false.
Proof. ascii_cases c. Qed.

(** [%Y-%m-%d %H:%M]: the blank of the format stands for any run of
    white space. *)
Lemma strptime_date_time (yyyy mo dd sp hh mm : string) :
  digits 4 4 yyyy = true -> digits 2 2 mo = true -> digits 2 2 dd = true ->
  all_space sp = true -> sp <> "" ->
  digits 1 2 hh = true -> digits 2 2 mm = true ->
  accepts_as
    (strptime (yyyy +:+ "-" +:+ mo +:+ "-" +:+ dd +:+ sp +:+ hh +:+ ":" +:+ mm)
              "%Y-%m-%d %H:%M")
    ((1 <=? int mo) && (int mo <=? 12) && ((1 <=? int dd) && (int dd <=? 31)) &&
     (int hh <=? 23) && (int mm <=? 59) && valid_date (int yyyy) (int mo) (int dd))
    (mk_naive (int yyyy) (int mo) (int dd) (int hh) (int mm) 0 0).
Proof.
  intros Hy Hmo Hd Hsp Hne Hh Hm. unfold strptime.
  change (compile false "%Y-%m-%d %H:%M")
    with (Ok [D_Y; D_lit "-"; D_m; D_lit "-"; D_d; D_space; D_H; D_lit ":"; D_M]).
  cbv iota beta. rewrite (run_year _ _ _ Hy).
  rewrite !append_cons, !append_nil_l, run_lit. change (ci "-" "-") with true. cbv iota.
  rewrite (run_number D_m (D_lit "-") _ mo "-" _ eq_refl (digits_2_is_1_2 _ Hmo) eq_refl
             dash_rejects_digits).
  cbn [two_digit_ok]. rewrite run_lit. change (ci "-" "-") with true. cbv iota.
  destruct (all_space_first _ Hsp Hne) as (c & r & -> & Hc).
  rewrite !append_cons.
  rewrite (run_number D_d D_space _ dd c _ eq_refl (digits_2_is_1_2 _ Hd)
             (space_not_digit _ Hc) space_rejects_digits).
  cbn [two_digit_ok].
  rewrite (run_space_cons _ c r _ Hsp (digits_1_2_head hh _ Hh))
    by (intros; apply hour_rejects_space; assumption).
  rewrite (run_number D_H (D_lit ":") [D_M] hh ":" mm eq_refl Hh eq_refl
             colon_rejects_digits).
  cbn [two_digit_ok]. rewrite run_lit. change (ci ":" ":") with true. cbv iota.
  destruct (run_minute_end mm Hm) as (g & c0 & ->).
  pose proof (digits_1_2_range _ Hh). pose proof (digits_2_range _ Hm).
  destruct ((1 <=? int mo) && (int mo <=? 12)); [|simpl; eauto].
  destruct ((1 <=? int dd) && (int dd <=? 31)); [|simpl; eauto].
  destruct (int hh <=? 23) eqn:E1; [|simpl; eauto].
  destruct (int mm <=? 59) eqn:E2; [|simpl; eauto].
  apply Z.leb_le in E1, E2.
  cbn [map app fst snd capture group_name String.eqb negb andb].
  unfold build, hour_of, get_int. simpl get. cbv iota beta.
  destruct (valid_date (int yyyy) (int mo) (int dd)) eqn:Ev.
  - apply datetime_valid; [assumption | lia | lia].
  - unfold datetime. rewrite Ev. simpl. eauto.
Qed.

End StrptimeFacts.

(** ** The four forms of a time expression *)

Section FormFacts.

Variable zone_known : string -> bool.
Variable fromutc : string -> naive -> result aware.
Variable clock : nat -> Z.
Variable localtime : Z -> naive.

Local Abbreviation parse := (parse_time_input zone_known fromutc clock localtime).

(** The date fields of a datetime pass [_check_date_fields]. *)
Definition date_is_valid (dt : naive) : bool :=
  valid_date (year dt) (month dt) (day dt).

(** The date of [today] at [h]:[mi]:00. *)
Definition at_time (today : naive) (h mi : Z) : naive :=
  mk_naive (year today) (month today) (day today) h mi 0 0.

(** A run of white space that is not empty. *)
Definition blank_run (sp : string) : bool :=
  (all_space sp && negb (String.eqb sp ""))%bool.

Lemma blank_run_inv (sp : string) :
  blank_run sp = true -> all_space sp = true /\ sp <> "".
Proof.
  unfold blank_run. intros H. apply andb_true_iff in H as [H1 H2].
  split; [assumption|]. intros ->. discriminate.
Qed.

Lemma strip_id (s : string) :
  (exists x rest, s = String x rest /\ isspace x = false) ->
  last_is (fun c => negb (isspace c)) s = true ->
  strip s = s.
Proof.
  intros (x & rest & -> & Hx) Hl. unfold strip. cbn [lstrip]. rewrite Hx.
  now apply rstrip_id.
Qed.

Lemma last_is_suffix (p : ascii -> bool) (pre t : string) :
  t <> "" -> last_is p (pre +:+ t) = last_is p t.
Proof. destruct t as [|c t]; [contradiction|]. intros _. apply last_is_append. Qed.

Lemma digits_2_last (t : string) :
  digits 2 2 t = true -> t <> "" /\ last_is (fun c => negb (isspace c)) t = true.
Proof.
  intros H. apply digits_2_inv in H as (a & b & -> & Ha & Hb).
  split; [discriminate|]. simpl. now rewrite (digit_not_space _ Hb).
Qed.

Lemma meridiem_last (ap : string) :
  meridiem ap = true -> ap <> "" /\ last_is (fun c => negb (isspace c)) ap = true.
Proof.
  intros H. apply meridiem_inv in H as (x & y & -> & _ & Hy & _).
  split; [discriminate|]. simpl. revert Hy. clear. ascii_cases y.
Qed.

Lemma Matches_digit12 (t : string) : digits 1 2 t = true -> Matches digit12 t.
Proof.
  intros H. apply digits_1_2_inv in H as [(a & -> & Ha) | (a & b & -> & Ha & Hb)].
  - change (String a "") with (String a "" +:+ "").
    apply M_Cat; [now apply M_Class | apply M_AltR, M_Eps].
  - change (String a (String b "")) with (String a "" +:+ String b "").
    apply M_Cat; [now apply M_Class | apply M_AltL; now apply M_Class].
Qed.

Lemma Matches_digit2 (t : string) : digits 2 2 t = true -> Matches digit2 t.
Proof.
  intros H. apply digits_2_inv in H as (a & b & -> & Ha & Hb).
  change (String a (String b "")) with (String a "" +:+ String b "").
  apply M_Cat; now apply M_Class.
Qed.

Lemma Matches_digit4 (t : string) : digits 4 4 t = true -> Matches digit4 t.
Proof.
  intros H. apply digits_4_inv in H as (a & b & c & d & -> & Ha & Hb & Hc & Hd).
  change (String a (String b (String c (String d ""))))
    with ((String a "" +:+ String b "") +:+ (String c "" +:+ String d "")).
  apply M_Cat; apply M_Cat; now apply M_Class.
Qed.

Lemma Matches_meridiem (t : string) :
  meridiem t = true -> Matches (Cat Re.ap (lit "m")) t.
Proof.
  intros H. apply meridiem_inv in H as (x & y & -> & Hx & Hy & _).
  change (String x (String y "")) with (String x "" +:+ String y "").
  apply M_Cat; now apply M_Class.
Qed.

Lemma Matches_star_space (t : string) : all_space t = true -> Matches (Star space) t.
Proof.
  induction t as [|c t IH]; [constructor|]. simpl. intros H.
  apply andb_true_iff in H as [Hc Ht].
  change (String c t) with (String c "" +:+ t).
  apply M_StarS; [now apply M_Class | auto].
Qed.

Lemma Matches_blank_run (sp : string) : blank_run sp = true -> Matches (plus space) sp.
Proof.
  intros H. apply blank_run_inv in H as [Hs Hne].
  destruct sp as [|c sp]; [contradiction|]. simpl in Hs.
  apply andb_true_iff in Hs as [Hc Hs].
  change (String c sp) with (String c "" +:+ sp).
  apply M_Cat; [now apply M_Class | now apply Matches_star_space].
Qed.

Lemma Matches_colon : Matches (lit ":") ":".
Proof. now apply M_Class. Qed.

Lemma Matches_dash : Matches (lit "-") "-".
Proof. now apply M_Class. Qed.

Ltac in_patterns :=
  unfold patterns;
  repeat first [ apply elem_of_cons; left; reflexivity | apply elem_of_cons; right ].

(** An expression that is its own trimmed form and a word of a pattern
    of the list is handled under the format of that pattern. *)
Lemma matching_format_of_word (s : string) (pattern : regex) (fmt : string) :
  strip s = s -> (pattern, fmt) ∈ patterns -> Matches pattern s ->
  matching_format s = Some fmt.
Proof.
  intros Hs Hin Hm. apply (matching_format_unique s pattern fmt); [|assumption|].
  - rewrite <- Hs. apply chop_newline_strip.
  - unfold re_match. apply orb_true_iff. left. now apply fullmatch_spec.
Qed.

(** The result of [parse_time_input] on an expression of a form
    without a year, from what [strptime] does on it. *)
Lemma parse_time_only_result (s fmt source_tz : string) (ok : bool) (h mi : Z) (w : nat) :
  strip s = s -> matching_format s = Some fmt -> contains "Y" fmt = false ->
  accepts_as (strptime (upper s) fmt) ok (mk_naive 1900 1 1 h mi 0 0) ->
  (ok = true -> 0 <= h <= 23 /\ 0 <= mi <= 59) ->
  zone_known source_tz = true ->
  date_is_valid (localtime (clock w)) = true ->
  parse s source_tz w =
  if ok
  then (Ok (mk_aware (at_time (localtime (clock w)) h mi) false source_tz), S w)
  else (Raise (unparseable s), S w).
Proof.
  intros Hs Hm HY Hp Hr Hz Hd.
  rewrite <- Hs in Hm.
  rewrite (parse_matching zone_known fromutc clock localtime s source_tz fmt w Hm), Hs.
  unfold except_ValueError, parse_with. rewrite HY.
  unfold now_local, read_clock. unfold bind, lift, ret, raise. cbv beta iota.
  destruct ok; cbn [accepts_as] in Hp.
  - rewrite Hp. unfold replace_date. cbn [hour minute second microsecond].
    destruct (Hr eq_refl) as [Hh Hmi].
    rewrite (datetime_valid _ _ _ _ _ Hd Hh Hmi).
    unfold ZoneInfo. rewrite Hz. reflexivity.
  - destruct Hp as [msg ->]. reflexivity.
Qed.

(** The same for the form with a year. *)
Lemma parse_full_result (s fmt source_tz : string) (ok : bool) (t : naive) (w : nat) :
  strip s = s -> matching_format s = Some fmt -> contains "Y" fmt = true ->
  accepts_as (strptime s fmt) ok t ->
  zone_known source_tz = true ->
  parse s source_tz w =
  if ok then (Ok (mk_aware t false source_tz), w) else (Raise (unparseable s), w).
Proof.
  intros Hs Hm HY Hp Hz.
  rewrite <- Hs in Hm.
  rewrite (parse_matching zone_known fromutc clock localtime s source_tz fmt w Hm), Hs.
  unfold except_ValueError, parse_with. rewrite HY.
  unfold bind, lift, ret, raise.
  destruct ok; cbn [accepts_as] in Hp.
  - rewrite Hp. unfold ZoneInfo. rewrite Hz. reflexivity.
  - destruct Hp as [msg ->]. reflexivity.
Qed.

(** X6: the 24-hour form.  An hour of one or two digits, a colon and a
    minute of two digits are accepted exactly when the hour is at most
    23 and the minute at most 59; the datetime is then today's local
    date at that hour and minute, in the source zone, and in both cases
    the clock has been read once. *)
Theorem hour_minute_form (hh mm source_tz : string) (w : nat) :
  digits 1 2 hh = true -> digits 2 2 mm = true ->
  zone_known source_tz = true ->
  date_is_valid (localtime (clock w)) = true ->
  parse (hh +:+ ":" +:+ mm) source_tz w =
  if (int hh <=? 23) && (int mm <=? 59)
  then (Ok (mk_aware (at_time (localtime (clock w)) (int hh) (int mm)) false source_tz), S w)
  else (Raise (unparseable (hh +:+ ":" +:+ mm)), S w).
Proof.
  intros Hh Hm Hz Hd.
  pose proof (digits_1_2_range _ Hh) as Rh. pose proof (digits_2_range _ Hm) as Rm.
  assert (strip (hh +:+ ":" +:+ mm) = hh +:+ ":" +:+ mm) as Hs.
  { apply strip_id; [now apply digits_1_2_head|].
    rewrite <- append_assoc, last_is_suffix; apply (digits_2_last _ Hm). }
  apply (parse_time_only_result _ "%H:%M"); try assumption; try reflexivity.
  - apply (matching_format_of_word _ pattern_hour_minute); [assumption | in_patterns |].
    apply M_Cat; [now apply Matches_digit12|].
    apply M_Cat; [apply Matches_colon | now apply Matches_digit2].
  - unfold upper. rewrite !map_str_append. fold upper.
    rewrite (upper_all_digits _ (digits_all _ _ _ Hh)),
      (upper_all_digits _ (digits_all _ _ _ Hm)).
    change (upper ":") with ":". now apply strptime_hour_minute.
  - intros H. apply andb_true_iff in H as [H1 H2]. apply Z.leb_le in H1, H2. lia.
Qed.


(** X7: the 12-hour form without minutes.  An hour of one or two
    digits and [am] or [pm] in any letter case are accepted exactly
    when the hour is between 1 and 12; 12am is hour 0, 12pm is hour 12,
    and the other hours of the afternoon are twelve more than
    written. *)
Theorem hour_meridiem_form (hh ap source_tz : string) (w : nat) :
  digits 1 2 hh = true -> meridiem ap = true ->
  zone_known source_tz = true ->
  date_is_valid (localtime (clock w)) = true ->
  parse (hh +:+ ap) source_tz w =
  if (1 <=? int hh) && (int hh <=? 12)
  then (Ok (mk_aware (at_time (localtime (clock w)) (hour_of_day (int hh) (is_pm ap)) 0)
                     false source_tz), S w)
  else (Raise (unparseable (hh +:+ ap)), S w).
Proof.
  intros Hh Hap Hz Hd.
  assert (strip (hh +:+ ap) = hh +:+ ap) as Hs.
  { apply strip_id; [now apply digits_1_2_head|].
    rewrite last_is_suffix; apply (meridiem_last _ Hap). }
  apply (parse_time_only_result _ "%I%p"); try assumption; try reflexivity.
  - apply (matching_format_of_word _ pattern_hour_meridiem); [assumption | in_patterns |].
    apply M_Cat; [now apply Matches_digit12 | now apply Matches_meridiem].
  - now apply strptime_hour_meridiem.
  - intros _. split; [apply hour_of_day_range | lia].
Qed.

(** X8: the 12-hour form with minutes: accepted exactly when the hour
    is between 1 and 12 and the minute at most 59, with the same rule
    for the hour of the day. *)
Theorem hour_minute_meridiem_form (hh mm ap source_tz : string) (w : nat) :
  digits 1 2 hh = true -> digits 2 2 mm = true -> meridiem ap = true ->
  zone_known source_tz = true ->
  date_is_valid (localtime (clock w)) = true ->
  parse (hh +:+ ":" +:+ mm +:+ ap) source_tz w =
  if (1 <=? int hh) && (int hh <=? 12) && (int mm <=? 59)
  then (Ok (mk_aware (at_time (localtime (clock w))
                              (hour_of_day (int hh) (is_pm ap)) (int mm))
                     false source_tz), S w)
  else (Raise (unparseable (hh +:+ ":" +:+ mm +:+ ap)), S w).
Proof.
  intros Hh Hm Hap Hz Hd.
  pose proof (digits_2_range _ Hm) as Rm.
  assert (strip (hh +:+ ":" +:+ mm +:+ ap) = hh +:+ ":" +:+ mm +:+ ap) as Hs.
  { apply strip_id; [now apply digits_1_2_head|].
    rewrite <- !append_assoc, last_is_suffix; apply (meridiem_last _ Hap). }
  apply (parse_time_only_result _ "%I:%M%p"); try assumption; try reflexivity.
  - apply (matching_format_of_word _ pattern_hour_minute_meridiem);
      [assumption | in_patterns |].
    apply M_Cat; [now apply Matches_digit12|].
    apply M_Cat; [apply Matches_colon|].
    apply M_Cat; [now apply Matches_digit2 | now apply Matches_meridiem].
  - now apply strptime_hour_minute_meridiem.
  - intros H. apply andb_true_iff in H as [_ H2]. apply Z.leb_le in H2.
    split; [apply hour_of_day_range | lia].
Qed.

Lemma valid_date_ranges (y m d : Z) :
  valid_date y m d = true -> 1 <= m <= 12 /\ 1 <= d <= 31.
Proof.
  unfold valid_date. intros H.
  repeat match goal with
  | H : (_ && _)%bool = true |- _ => apply andb_true_iff in H as [H ?]
  end.
  repeat match goal with
  | H : (_ <=? _) = true |- _ => apply Z.leb_le in H
  end.
  assert (days_in_month y m <= 31); [|lia].
  unfold days_in_month.
  assert (m = 1 \/ m = 2 \/ m = 3 \/ m = 4 \/ m = 5 \/ m = 6 \/ m = 7 \/ m = 8 \/
          m = 9 \/ m = 10 \/ m = 11 \/ m = 12) as Hm by lia.
  destruct (is_leap y);
    repeat (destruct Hm as [-> | Hm]; [vm_compute; discriminate|]);
    subst; vm_compute; discriminate.
Qed.

(** X9: the form with a date.  Four digits of a year, two of a month,
    two of a day, any run of white space, and a 24-hour time are
    accepted exactly when the date exists in the calendar and the hour
    and minute are in range; the datetime is the one written, in the
    source zone, and the clock is not read. *)
Theorem date_time_form (yyyy mo dd sp hh mm source_tz : string) (w : nat) :
  digits 4 4 yyyy = true -> digits 2 2 mo = true -> digits 2 2 dd = true ->
  blank_run sp = true ->
  digits 1 2 hh = true -> digits 2 2 mm = true ->
  zone_known source_tz = true ->
  parse (yyyy +:+ "-" +:+ mo +:+ "-" +:+ dd +:+ sp +:+ hh +:+ ":" +:+ mm) source_tz w =
  if valid_date (int yyyy) (int mo) (int dd) && (int hh <=? 23) && (int mm <=? 59)
  then (Ok (mk_aware (mk_naive (int yyyy) (int mo) (int dd) (int hh) (int mm) 0 0)
                     false source_tz), w)
  else (Raise (unparseable
                 (yyyy +:+ "-" +:+ mo +:+ "-" +:+ dd +:+ sp +:+ hh +:+ ":" +:+ mm)), w).
Proof.
  intros Hy Hmo Hdd Hsp Hh Hm Hz.
  set (s := yyyy +:+ "-" +:+ mo +:+ "-" +:+ dd +:+ sp +:+ hh +:+ ":" +:+ mm).
  assert (strip s = s) as Hs.
  { subst s. apply strip_id.
    - destruct (digits_4_inv _ Hy) as (a & b & c & d & -> & Ha & _).
      rewrite append_cons. eauto using digit_not_space.
    - rewrite <- !append_assoc, last_is_suffix; apply (digits_2_last _ Hm). }
  assert (matching_format s = Some "%Y-%m-%d %H:%M") as Hf.
  { apply (matching_format_of_word _ pattern_date_time); [assumption | in_patterns |].
    subst s.
    apply M_Cat; [now apply Matches_digit4|].
    apply M_Cat; [apply Matches_dash|].
    apply M_Cat; [now apply Matches_digit2|].
    apply M_Cat; [apply Matches_dash|].
    apply M_Cat; [now apply Matches_digit2|].
    apply M_Cat; [now apply Matches_blank_run|].
    apply M_Cat; [now apply Matches_digit12|].
    apply M_Cat; [apply Matches_colon | now apply Matches_digit2]. }
  destruct (blank_run_inv _ Hsp) as [Hsp1 Hsp2].
  pose proof (strptime_date_time yyyy mo dd sp hh mm Hy Hmo Hdd Hsp1 Hsp2 Hh Hm) as Hp.
  fold s in Hp.
  rewrite (parse_full_result s "%Y-%m-%d %H:%M" source_tz _ _ w Hs Hf eq_refl Hp Hz).
  destruct (valid_date (int yyyy) (int mo) (int dd)) eqn:Ev.
  - apply valid_date_ranges in Ev as [[E1 E2] [E3 E4]].
    apply Z.leb_le in E1, E2, E3, E4. rewrite E1, E2, E3, E4.
    cbn [andb]. now rewrite andb_true_r.
  - now rewrite !andb_false_r.
Qed.

End FormFacts.

Lemma hour_minute_form_witness :
  sample_parse ("7" +:+ ":" +:+ "05") "Asia/Tokyo" 0%nat =
  (Ok (mk_aware (mk_naive 2024 3 9 7 5 0 0) false "Asia/Tokyo"), 1%nat).
Proof.
  apply (hour_minute_form sample_known sample_fromutc sample_clock sample_localtime
           "7" "05" "Asia/Tokyo" 0%nat); reflexivity.
Defined.

Lemma hour_meridiem_form_witness :
  sample_parse ("12" +:+ "Am") "UTC" 0%nat =
  (Ok (mk_aware (mk_naive 2024 3 9 0 0 0 0) false "UTC"), 1%nat).
Proof.
  apply (hour_meridiem_form sample_known sample_fromutc sample_clock sample_localtime
           "12" "Am" "UTC" 0%nat); reflexivity.
Defined.

Lemma hour_minute_meridiem_form_witness :
  sample_parse ("3" +:+ ":" +:+ "30" +:+ "pm") "UTC" 0%nat =
  (Ok (mk_aware (mk_naive 2024 3 9 15 30 0 0) false "UTC"), 1%nat).
Proof.
  apply (hour_minute_meridiem_form sample_known sample_fromutc sample_clock
           sample_localtime "3" "30" "pm" "UTC" 0%nat); reflexivity.
Defined.

Lemma date_time_form_witness :
  sample_parse ("2023" +:+ "-" +:+ "02" +:+ "-" +:+ "29" +:+ "  " +:+ "9" +:+ ":" +:+ "15")
               "UTC" 0%nat =
  (Raise (unparseable "2023-02-29  9:15"), 0%nat).
Proof.
  apply (date_time_form sample_known sample_fromutc sample_clock sample_localtime
           "2023" "02" "29" "  " "9" "15" "UTC" 0%nat); reflexivity.
Defined.

(** ** Nothing else is accepted *)

Section OnlyTheForms.

Variable zone_known : string -> bool.
Variable fromutc : string -> naive -> result aware.
Variable clock : nat -> Z.
Variable localtime : Z -> naive.

Local Abbreviation parse := (parse_time_input zone_known fromutc clock localtime).

Lemma Matches_digit_inv (t : string) :
  Matches digit t -> exists a, t = String a "" /\ isdigit a = true.
Proof. intros H. now apply Matches_Class in H. Qed.

Lemma Matches_digit12_inv (t : string) : Matches digit12 t -> digits 1 2 t = true.
Proof.
  unfold digit12. intros H.
  apply Matches_Cat in H as (t1 & t2 & -> & H1 & H2).
  apply Matches_digit_inv in H1 as (a & -> & Ha).
  apply Matches_Alt in H2 as [H2 | H2].
  - apply Matches_digit_inv in H2 as (b & -> & Hb).
    rewrite append_cons, append_nil_l. unfold digits. simpl. now rewrite Ha, Hb.
  - apply Matches_Eps in H2 as ->.
    rewrite append_cons, append_nil_l. unfold digits. simpl. now rewrite Ha.
Qed.

Lemma Matches_digit2_inv (t : string) : Matches digit2 t -> digits 2 2 t = true.
Proof.
  unfold digit2. intros H.
  apply Matches_Cat in H as (t1 & t2 & -> & H1 & H2).
  apply Matches_digit_inv in H1 as (a & -> & Ha).
  apply Matches_digit_inv in H2 as (b & -> & Hb).
  rewrite append_cons, append_nil_l. unfold digits. simpl. now rewrite Ha, Hb.
Qed.

Lemma Matches_digit4_inv (t : string) : Matches digit4 t -> digits 4 4 t = true.
Proof.
  unfold digit4, digit2. intros H.
  apply Matches_Cat in H as (t1 & t2 & -> & H1 & H2).
  apply Matches_Cat in H1 as (u1 & u2 & -> & H11 & H12).
  apply Matches_Cat in H2 as (v1 & v2 & -> & H21 & H22).
  apply Matches_digit_inv in H11 as (a & -> & Ha).
  apply Matches_digit_inv in H12 as (b & -> & Hb).
  apply Matches_digit_inv in H21 as (c & -> & Hc).
  apply Matches_digit_inv in H22 as (d & -> & Hd).
  rewrite !append_cons, !append_nil_l. unfold digits. simpl.
  now rewrite Ha, Hb, Hc, Hd.
Qed.

Lemma Matches_colon_inv (t : string) : Matches (lit ":") t -> t = ":".
Proof.
  intros H. apply Matches_Class in H as (c & -> & Hc). f_equal.
  revert Hc. clear. destruct c as [[] [] [] [] [] [] [] []]; vm_compute;
    intros H; try discriminate; reflexivity.
Qed.

Lemma Matches_dash_inv (t : string) : Matches (lit "-") t -> t = "-".
Proof.
  intros H. apply Matches_Class in H as (c & -> & Hc). f_equal.
  revert Hc. clear. destruct c as [[] [] [] [] [] [] [] []]; vm_compute;
    intros H; try discriminate; reflexivity.
Qed.

Lemma Matches_meridiem_inv (t : string) :
  Matches (Cat Re.ap (lit "m")) t -> meridiem t = true.
Proof.
  intros H. apply Matches_Cat in H as (t1 & t2 & -> & H1 & H2).
  apply Matches_Class in H1 as (x & -> & Hx).
  apply Matches_Class in H2 as (y & -> & Hy).
  rewrite append_cons, append_nil_l. unfold meridiem, lower. cbn [map_str].
  apply Ascii.eqb_eq in Hy. change (lower_char "m") with "m"%char in Hy. rewrite Hy.
  apply orb_true_iff in Hx as [Hx | Hx]; apply Ascii.eqb_eq in Hx; rewrite Hx;
    reflexivity.
Qed.

Lemma Matches_star_space_inv (t : string) : Matches (Star space) t -> all_space t = true.
Proof.
  intros H. remember (Star space) as r eqn:Er.
  induction H; try discriminate; [reflexivity|].
  injection Er as ->. apply Matches_Class in H as (c & -> & Hc).
  rewrite append_cons, append_nil_l. simpl. rewrite Hc. now apply IHMatches2.
Qed.

Lemma Matches_blank_run_inv (t : string) : Matches (plus space) t -> blank_run t = true.
Proof.
  unfold plus. intros H. apply Matches_Cat in H as (t1 & t2 & -> & H1 & H2).
  apply Matches_Class in H1 as (c & -> & Hc). apply Matches_star_space_inv in H2.
  rewrite append_cons, append_nil_l. unfold blank_run. simpl. now rewrite Hc, H2.
Qed.

(** The four forms, as sets of expressions. *)
Definition hour_meridiem_expr (s : string) : Prop :=
  exists hh ap, s = hh +:+ ap /\ digits 1 2 hh = true /\ meridiem ap = true.

Definition hour_minute_meridiem_expr (s : string) : Prop :=
  exists hh mm ap, s = hh +:+ ":" +:+ mm +:+ ap /\
    digits 1 2 hh = true /\ digits 2 2 mm = true /\ meridiem ap = true.

Definition hour_minute_expr (s : string) : Prop :=
  exists hh mm, s = hh +:+ ":" +:+ mm /\ digits 1 2 hh = true /\ digits 2 2 mm = true.

Definition date_time_expr (s : string) : Prop :=
  exists yyyy mo dd sp hh mm,
    s = yyyy +:+ "-" +:+ mo +:+ "-" +:+ dd +:+ sp +:+ hh +:+ ":" +:+ mm /\
    digits 4 4 yyyy = true /\ digits 2 2 mo = true /\ digits 2 2 dd = true /\
    blank_run sp = true /\ digits 1 2 hh = true /\ digits 2 2 mm = true.

Lemma pattern_hour_meridiem_inv (s : string) :
  Matches pattern_hour_meridiem s -> hour_meridiem_expr s.
Proof.
  unfold pattern_hour_meridiem. intros H.
  apply Matches_Cat in H as (hh & ap & -> & H1 & H2).
  exists hh, ap. auto using Matches_digit12_inv, Matches_meridiem_inv.
Qed.

Lemma pattern_hour_minute_meridiem_inv (s : string) :
  Matches pattern_hour_minute_meridiem s -> hour_minute_meridiem_expr s.
Proof.
  unfold pattern_hour_minute_meridiem. intros H.
  apply Matches_Cat in H as (hh & r1 & -> & H1 & H).
  apply Matches_Cat in H as (c & r2 & -> & H2 & H).
  apply Matches_Cat in H as (mm & ap & -> & H3 & H4).
  apply Matches_colon_inv in H2 as ->.
  exists hh, mm, ap.
  auto using Matches_digit12_inv, Matches_digit2_inv, Matches_meridiem_inv.
Qed.

Lemma pattern_hour_minute_inv (s : string) :
  Matches pattern_hour_minute s -> hour_minute_expr s.
Proof.
  unfold pattern_hour_minute. intros H.
  apply Matches_Cat in H as (hh & r1 & -> & H1 & H).
  apply Matches_Cat in H as (c & mm & -> & H2 & H3).
  apply Matches_colon_inv in H2 as ->.
  exists hh, mm. auto using Matches_digit12_inv, Matches_digit2_inv.
Qed.

Lemma pattern_date_time_inv (s : string) :
  Matches pattern_date_time s -> date_time_expr s.
Proof.
  unfold pattern_date_time. intros H.
  apply Matches_Cat in H as (yyyy & r1 & -> & H1 & H).
  apply Matches_Cat in H as (c1 & r2 & -> & H2 & H).
  apply Matches_Cat in H as (mo & r3 & -> & H3 & H).
  apply Matches_Cat in H as (c2 & r4 & -> & H4 & H).
  apply Matches_Cat in H as (dd & r5 & -> & H5 & H).
  apply Matches_Cat in H as (sp & r6 & -> & H6 & H).
  apply Matches_Cat in H as (hh & r7 & -> & H7 & H).
  apply Matches_Cat in H as (c3 & mm & -> & H8 & H9).
  apply Matches_dash_inv in H2 as ->. apply Matches_dash_inv in H4 as ->.
  apply Matches_colon_inv in H8 as ->.
  exists yyyy, mo, dd, sp, hh, mm.
  repeat split;
    auto using Matches_digit12_inv, Matches_digit2_inv, Matches_digit4_inv,
               Matches_blank_run_inv.
Qed.

(** X14: of the ASCII expressions, nothing but [now] and the four
    forms is accepted.  When [parse_time_input] returns a datetime for
    an ASCII expression, the trimmed expression is [now] in some letter
    case, or an hour with a meridiem, or an hour and a minute with a
    meridiem, or an hour and a minute, or a date, white space and an
    hour and a minute, with the numbers of digits of the patterns. *)
Theorem accepted_expressions (time_str source_tz : string) (w w' : nat) (dt : aware) :
  isascii time_str = true ->
  parse time_str source_tz w = (Ok dt, w') ->
  lower (strip time_str) = "now" \/
  hour_meridiem_expr (strip time_str) \/
  hour_minute_meridiem_expr (strip time_str) \/
  hour_minute_expr (strip time_str) \/
  date_time_expr (strip time_str).
Proof.
  intros _. unfold parse_time_input.
  destruct (String.eqb_spec (lower (strip time_str)) "now") as [E|_]; [now left|].
  intros H. right.
  rewrite try_patterns_spec in H by apply chop_newline_strip.
  destruct (matching_format (strip time_str)) as [fmt|] eqn:Hm; [|discriminate].
  clear H. revert Hm. unfold matching_format, patterns.
  cbn [find fst snd].
  destruct (re_match pattern_hour_meridiem (strip time_str)) eqn:E1.
  { intros _. left. rewrite re_match_strip in E1.
    now apply pattern_hour_meridiem_inv, fullmatch_spec. }
  destruct (re_match pattern_hour_minute_meridiem (strip time_str)) eqn:E2.
  { intros _. right. left. rewrite re_match_strip in E2.
    now apply pattern_hour_minute_meridiem_inv, fullmatch_spec. }
  destruct (re_match pattern_hour_minute (strip time_str)) eqn:E3.
  { intros _. right. right. left. rewrite re_match_strip in E3.
    now apply pattern_hour_minute_inv, fullmatch_spec. }
  destruct (re_match pattern_date_time (strip time_str)) eqn:E4.
  { intros _. right. right. right. rewrite re_match_strip in E4.
    now apply pattern_date_time_inv, fullmatch_spec. }
  discriminate.
Qed.

End OnlyTheForms.

Lemma accepted_expressions_witness :
  lower (strip " 3:30PM ") = "now" \/
  hour_meridiem_expr (strip " 3:30PM ") \/
  hour_minute_meridiem_expr (strip " 3:30PM ") \/
  hour_minute_expr (strip " 3:30PM ") \/
  date_time_expr (strip " 3:30PM ").
Proof.
  apply (accepted_expressions sample_known sample_fromutc sample_clock sample_localtime
           " 3:30PM " "UTC" 0%nat 1%nat
           (mk_aware (mk_naive 2024 3 9 15 30 0 0) false "UTC")).
  - reflexivity.
  - reflexivity.
Defined.

(** ** The display *)

Section DisplayFacts.

Variable tzname : string -> naive -> bool -> string.
Variable str_datetime : aware -> string.
Variable available_timezones : gset string.
Variable zone_known : string -> bool.
Variable utcoffset : string -> naive -> bool -> Z.
Variable fromutc : string -> naive -> result aware.
Variable clock : nat -> Z.
Variable localtime : Z -> naive.

Local Abbreviation convert :=
  (convert_time available_timezones zone_known utcoffset fromutc clock localtime).
Local Abbreviation format := (format_result tzname str_datetime).
Local Abbreviation cli :=
  (cli_mode tzname str_datetime available_timezones zone_known utcoffset fromutc
            clock localtime).

(** [convert_time] always returns one of its two dictionaries. *)
Lemma convert_time_returns (time_str from_tz to_tz : string) (w : nat) :
  exists (d : gmap string pyval) (w' : nat),
    convert time_str from_tz to_tz w = (Ok d, w') /\
    ((exists msg, d = error_dict msg) \/
     exists source_time target_time source_tz target_tz,
       d = success_dict source_time target_time source_tz target_tz).
Proof.
  destruct (convert time_str from_tz to_tz w) as [[d|e] w'] eqn:E.
  - exists d, w'. split; [reflexivity|].
    apply convert_time_success_inv in E
      as [[msg ->] | (sz & tz & s & t & _ & _ & _ & _ & _ & ->)].
    + left. now exists msg.
    + right. now exists s, t, sz, tz.
  - exfalso. revert E. unfold convert_time, except_Exception.
    match goal with |- context [match ?b w with _ => _ end] =>
      destruct (b w) as [[d0|e0] w0] end; unfold ret; discriminate.
Qed.

Lemma format_error_dict (msg : string) :
  format (error_dict msg) = Some (error_line msg).
Proof.
  unfold format_result, error_dict. now rewrite lookup_singleton_eq.
Qed.

Lemma format_success_dict (s t : aware) (sz tz : string) :
  exists line, format (success_dict s t sz tz) = Some line.
Proof.
  unfold format_result, success_dict.
  rewrite !(lookup_insert_ne _ _ "error") by done. rewrite lookup_empty.
  rewrite lookup_insert_eq.
  rewrite (lookup_insert_ne _ "source_time" "target_time") by done.
  rewrite lookup_insert_eq. eauto.
Qed.

Lemma format_result_total (time_str from_tz to_tz : string) (w : nat) :
  exists (d : gmap string pyval) (line : string) (w' : nat),
    convert time_str from_tz to_tz w = (Ok d, w') /\ format d = Some line.
Proof.
  destruct (convert_time_returns time_str from_tz to_tz w)
    as (d & w' & E & [[msg ->] | (s & t & sz & tz & ->)]).
  - pose proof (format_error_dict msg) as H. eauto 6.
  - destruct (format_success_dict s t sz tz) as [line H]. eauto 6.
Qed.

(** X10: [format_result] raises nothing on what [convert_time]
    returns: whatever the three arguments and the clock, the
    conversion returns a dictionary and the formatter turns it into a
    line, which for an error dictionary is the error line with the
    message of the dictionary. *)
Theorem format_result_defined_on_conversions (time_str from_tz to_tz : string) (w : nat) :
  exists (d : gmap string pyval) (line : string),
    fst (convert time_str from_tz to_tz w) = Ok d /\ format d = Some line /\
    forall msg : string, d = error_dict msg -> line = error_line msg.
Proof.
  destruct (convert_time_returns time_str from_tz to_tz w)
    as (d & w' & E & [[msg ->] | (s & t & sz & tz & ->)]); rewrite E.
  - exists (error_dict msg), (error_line msg).
    split; [reflexivity|]. split; [apply format_error_dict|].
    intros msg' H. pose proof (f_equal (fun d => d !! "error") H) as H'.
    unfold error_dict in H'. simpl in H'. rewrite !lookup_singleton_eq in H'.
    now injection H' as ->.
  - destruct (format_success_dict s t sz tz) as [line H].
    exists (success_dict s t sz tz), line.
    split; [reflexivity|]. split; [assumption|].
    intros msg H'. now apply success_dict_not_error in H'.
Qed.


(** The numeral of a number below 100, without padding. *)
Definition decimal (n : Z) : string :=
  if n <? 10 then String (digit_char n) "" else two_digits n.

Lemma padded_hour_stripped (h : Z) (rest : string) :
  0 <= h <= 23 ->
  lstrip_chars "0" (two_digits (if h mod 12 =? 0 then 12 else h mod 12) +:+ rest)
  = decimal ((h + 11) mod 12 + 1) +:+ rest.
Proof.
  intros H.
  assert (h = 0 \/ h = 1 \/ h = 2 \/ h = 3 \/ h = 4 \/ h = 5 \/ h = 6 \/ h = 7 \/
          h = 8 \/ h = 9 \/ h = 10 \/ h = 11 \/ h = 12 \/ h = 13 \/ h = 14 \/
          h = 15 \/ h = 16 \/ h = 17 \/ h = 18 \/ h = 19 \/ h = 20 \/ h = 21 \/
          h = 22 \/ h = 23) as Hc by lia.
  repeat (destruct Hc as [-> | Hc]; [vm_compute; reflexivity|]).
  subst. vm_compute. reflexivity.
Qed.

(** X11: the clock text of a result.  [%I] pads the hour and
    [lstrip('0')] removes the padding and nothing else: the text is
    the hour of the 12-hour clock, from 1 to 12 and never empty,
    without a leading zero, then the minute on two digits, the meridiem
    and the zone name as the database gives it. *)
Theorem clock_text_has_no_leading_zero (dt : aware) :
  0 <= hour (wall dt) <= 23 ->
  lstrip_chars "0" (strftime_clock tzname dt) =
  decimal ((hour (wall dt) + 11) mod 12 + 1) +:+ ":" +:+
  two_digits (minute (wall dt)) +:+ " " +:+
  (if hour (wall dt) <? 12 then "AM" else "PM") +:+ " " +:+
  tzname (tzinfo dt) (wall dt) (fold dt).
Proof.
  intros H. unfold strftime_clock. cbv zeta. now apply padded_hour_stripped.
Qed.

(** *** The command line *)

Lemma from_end_app {A : Type} (xs ys : list A) (k : nat) :
  (1 <= k <= length ys)%nat ->
  from_end (xs ++ ys) k = ys !! (length ys - k)%nat.
Proof.
  intros H. unfold from_end. rewrite length_app.
  replace (Nat.leb k (length xs + length ys)) with true
    by (symmetry; apply Nat.leb_le; lia).
  rewrite lookup_app_r by lia. f_equal. lia.
Qed.

Lemma drop_last_app {A : Type} (xs ys : list A) :
  drop_last (length ys) (xs ++ ys) = xs.
Proof.
  unfold drop_last. rewrite length_app.
  replace (length xs + length ys - length ys)%nat with (length xs) by lia.
  apply take_app_length.
Qed.

(** X12: how [cli_mode] reads its words.  When the last but one word
    is [to] in any letter case and at least one word comes before the
    source zone, the last word is the target zone, the third from the
    end the source zone, and the words before it, joined by single
    blanks, the time expression; the one line printed is the formatted
    result of that conversion. *)
Theorem cli_mode_reads_words
    (time_parts : list string) (from_tz word to_tz : string) (w : nat) :
  time_parts <> [] -> lower word = "to" ->
  exists (d : gmap string pyval) (line : string) (w' : nat),
    convert (join " " time_parts) from_tz to_tz w = (Ok d, w') /\
    format d = Some line /\
    cli (time_parts ++ [from_tz; word; to_tz]) w = (Some [line], w').
Proof.
  intros Hne Hto.
  destruct (format_result_total (join " " time_parts) from_tz to_tz w)
    as (d & line & w' & E & Hf).
  exists d, line, w'. split; [assumption|]. split; [assumption|].
  unfold cli_mode.
  replace (Nat.ltb (length (time_parts ++ [from_tz; word; to_tz])) 4) with false.
  2:{ symmetry. apply Nat.ltb_ge. rewrite length_app. simpl.
      destruct time_parts; [contradiction | simpl; lia]. }
  rewrite (from_end_app time_parts [from_tz; word; to_tz] 2) by (simpl; lia).
  rewrite (from_end_app time_parts [from_tz; word; to_tz] 3) by (simpl; lia).
  rewrite (from_end_app time_parts [from_tz; word; to_tz] 1) by (simpl; lia).
  change ([from_tz; word; to_tz] !! (length [from_tz; word; to_tz] - 2)%nat)
    with (Some word).
  change ([from_tz; word; to_tz] !! (length [from_tz; word; to_tz] - 3)%nat)
    with (Some from_tz).
  change ([from_tz; word; to_tz] !! (length [from_tz; word; to_tz] - 1)%nat)
    with (Some to_tz).
  cbv iota. rewrite Hto. cbn [String.eqb Ascii.eqb Bool.eqb negb]. cbv iota.
  change (drop_last 3 (time_parts ++ [from_tz; word; to_tz]))
    with (drop_last (length [from_tz; word; to_tz]) (time_parts ++ [from_tz; word; to_tz])).
  rewrite (drop_last_app time_parts [from_tz; word; to_tz]).
  rewrite E, Hf. reflexivity.
Qed.

(** X13: [cli_mode] raises nothing, whatever the words: its indexing
    is guarded by the test on the length.  It prints the two lines of
    the usage, without reading the clock, exactly when there are fewer
    than four words or the last but one is not [to]; otherwise it
    prints one line. *)
Theorem cli_mode_never_fails (conversion : list string) (w : nat) :
  exists lines : list string,
    fst (cli conversion w) = Some lines /\
    if Nat.ltb (length conversion) 4 ||
       negb (String.eqb (lower (default "" (from_end conversion 2))) "to")
    then lines = usage /\ snd (cli conversion w) = w
    else exists line, lines = [line].
Proof.
  unfold cli_mode.
  destruct (Nat.ltb (length conversion) 4) eqn:El;
    [exists usage; cbn [orb fst snd]; auto|].
  apply Nat.ltb_ge in El.
  destruct (from_end conversion 2) as [word|] eqn:E2.
  2:{ exfalso. revert E2. unfold from_end.
      replace (Nat.leb 2 (length conversion)) with true
        by (symmetry; apply Nat.leb_le; lia).
      intros E2. apply lookup_ge_None in E2. lia. }
  cbn [default from_option id orb].
  destruct (String.eqb (lower word) "to"); cbn [negb];
    [|exists usage; cbn [fst snd]; auto].
  destruct (from_end conversion 3) as [from_tz|] eqn:E3.
  2:{ exfalso. revert E3. unfold from_end.
      replace (Nat.leb 3 (length conversion)) with true
        by (symmetry; apply Nat.leb_le; lia).
      intros E3. apply lookup_ge_None in E3. lia. }
  destruct (from_end conversion 1) as [to_tz|] eqn:E1.
  2:{ exfalso. revert E1. unfold from_end.
      replace (Nat.leb 1 (length conversion)) with true
        by (symmetry; apply Nat.leb_le; lia).
      intros E1. apply lookup_ge_None in E1. lia. }
  destruct (format_result_total (join " " (drop_last 3 conversion)) from_tz to_tz w)
    as (d & line & w' & E & Hf).
  rewrite E, Hf. exists [line]. simpl. eauto.
Qed.


Lemma date_order_total (a b : Z * Z * Z) :
  date_eqb a b = false -> date_ltb a b = false -> date_ltb b a = true.
Proof.
  destruct a as [[y1 m1] d1], b as [[y2 m2] d2]. unfold date_eqb, date_ltb.
  destruct (Z.eqb_spec y1 y2), (Z.eqb_spec m1 m2), (Z.eqb_spec d1 d2),
    (Z.eqb_spec y2 y1), (Z.eqb_spec m2 m1),
    (Z.ltb_spec y1 y2), (Z.ltb_spec m1 m2), (Z.ltb_spec d1 d2),
    (Z.ltb_spec y2 y1), (Z.ltb_spec m2 m1), (Z.ltb_spec d2 d1);
    simpl; intros; try reflexivity; try discriminate; lia.
Qed.

Lemma date_eqb_eq (a b : Z * Z * Z) : date_eqb a b = true -> a = b.
Proof.
  destruct a as [[y1 m1] d1], b as [[y2 m2] d2]. unfold date_eqb. intros H.
  apply andb_true_iff in H as [H H3]. apply andb_true_iff in H as [H1 H2].
  apply Z.eqb_eq in H1, H2, H3. congruence.
Qed.

(** X15: the day marker of a result line follows the calendar dates of
    the two datetimes: none when they are equal, [(+1 day)] when the
    target date is later, by whatever number of days, and [(-1 day)]
    in the remaining case, which is the one of an earlier target
    date. *)
Theorem day_marker_follows_dates (source target : aware) (source_tz target_tz : string) :
  exists marker : string,
    format (success_dict source target source_tz target_tz) =
    Some (output_line (lstrip_chars "0" (strftime_clock tzname source))
                      (lstrip_chars "0" (strftime_clock tzname target)) marker) /\
    ((date (wall source) = date (wall target) /\ marker = "") \/
     (date_ltb (date (wall source)) (date (wall target)) = true /\
      marker = " " +:+ GRAY +:+ "(+1 day)" +:+ RESET) \/
     (date_ltb (date (wall target)) (date (wall source)) = true /\
      marker = " " +:+ GRAY +:+ "(-1 day)" +:+ RESET)).
Proof.
  unfold format_result, success_dict.
  rewrite !(lookup_insert_ne _ _ "error") by done. rewrite lookup_empty.
  rewrite lookup_insert_eq.
  rewrite (lookup_insert_ne _ "source_time" "target_time") by done.
  rewrite lookup_insert_eq. cbv zeta.
  destruct (date_eqb (date (wall source)) (date (wall target))) eqn:Ee; cbn [negb].
  - eexists. split; [reflexivity|]. left. split; [now apply date_eqb_eq | reflexivity].
  - destruct (date_ltb (date (wall source)) (date (wall target))) eqn:El.
    + eexists. split; [reflexivity|]. right. left. now split.
    + eexists. split; [reflexivity|]. right. right.
      split; [now apply date_order_total | reflexivity].
Qed.

End DisplayFacts.

Lemma clock_text_has_no_leading_zero_witness :
  lstrip_chars "0"
    (strftime_clock (fun key _ _ => key)
                    (mk_aware (mk_naive 2024 3 10 0 5 0 0) false "UTC"))
  = "12:05 AM UTC".
Proof.
  apply (clock_text_has_no_leading_zero (fun key _ _ => key)
           (mk_aware (mk_naive 2024 3 10 0 5 0 0) false "UTC")).
  simpl. lia.
Defined.

(** A machine that names a zone by its key. *)
Definition sample_tzname (key : string) (dt : naive) (fold : bool) : string := key.
Definition sample_str_datetime (dt : aware) : string := "".

Definition sample_cli : list string -> nat -> option (list string) * nat :=
  cli_mode sample_tzname sample_str_datetime sample_zones sample_known
           sample_utcoffset sample_fromutc sample_clock sample_localtime.

Lemma cli_mode_reads_words_witness :
  exists (d : gmap string pyval) (line : string) (w' : nat),
    sample_convert (join " " ["2024-01-15"; "15:00"]) "utc" "jst" 0%nat = (Ok d, w') /\
    format_result sample_tzname sample_str_datetime d = Some line /\
    sample_cli (["2024-01-15"; "15:00"] ++ ["utc"; "TO"; "jst"]) 0%nat = (Some [line], w').
Proof.
  apply (cli_mode_reads_words sample_tzname sample_str_datetime sample_zones sample_known
           sample_utcoffset sample_fromutc sample_clock sample_localtime
           ["2024-01-15"; "15:00"] "utc" "TO" "jst" 0%nat).
  - discriminate.
  - reflexivity.
Defined.

Example cli_sample_run :
  sample_cli ["3pm"; "UTC"; "to"; "jst"] 0%nat =
  (Some [output_line "3:00 PM UTC" "12:00 AM Asia/Tokyo"
                     (" " +:+ GRAY +:+ "(+1 day)" +:+ RESET)], 1%nat).
Proof. reflexivity. Qed.

Example cli_sample_usage : sample_cli ["3pm"; "to"; "jst"] 5%nat = (Some usage, 5%nat).
Proof. reflexivity. Qed.

Example cli_sample_error :
  sample_cli ["25:00"; "UTC"; "to"; "UTC"] 0%nat =
  (Some [error_line "Could not parse time: 25:00"], 1%nat).
Proof. reflexivity. Qed.

Lemma convert_time_reads_clock_at_most_once_witness :
  (snd (sample_convert "3pm" "UTC" "jst" 0%nat) = 0%nat \/
   snd (sample_convert "3pm" "UTC" "jst" 0%nat) = 1%nat) /\
  (snd (sample_convert "3pm" "UTC" "jst" 0%nat) = 1%nat ->
   exists source_tz target_tz,
     normalize_timezone sample_zones "UTC" = Ok source_tz /\
     normalize_timezone sample_zones "jst" = Ok target_tz).
Proof.
  exact (convert_time_reads_clock_at_most_once sample_zones sample_known sample_utcoffset
           sample_fromutc sample_clock sample_localtime "3pm" "UTC" "jst" 0%nat).
Defined.

Lemma format_result_defined_on_conversions_witness :
  exists (d : gmap string pyval) (line : string),
    fst (sample_convert "25:00" "UTC" "UTC" 0%nat) = Ok d /\
    format_result sample_tzname sample_str_datetime d = Some line /\
    forall msg : string, d = error_dict msg -> line = error_line msg.
Proof.
  exact (format_result_defined_on_conversions sample_tzname sample_str_datetime
           sample_zones sample_known sample_utcoffset sample_fromutc sample_clock
           sample_localtime "25:00" "UTC" "UTC" 0%nat).
Defined.
